(** * Willis Stock Genie: the client session controller

    A shallow embedding of [web/config.js] and of the [FinGeniusApp]
    class of [web/app-improved.js], with the properties of the
    controller's message protocol and UI state machine.

    Conventions of the embedding:
    - a JavaScript string that the code inspects (a stock code, a host
      name, an agent id) is the list of its UTF-16 code units;
    - a constant text of the user interface is kept as the literal of the
      source, and an interpolated template as a list of pieces;
    - a JavaScript number that carries a percentage is a rational;
    - [this], the part of the document the controller touches and the
      browser environment are one state, and a method is a function from
      the state before the call to the state after it;
    - the closures handed to [setTimeout] are defunctionalised into
      [Callback] and kept in a list of pending timers with their due
      time; an event of the page (a message, a click, a timer that runs)
      is one step of the event loop;
    - the rendering of the results has modules of its own: [Charts] for
      the moving averages and the price chart, over numbers of which only
      the operations used are asked, [Payload] for the search of the
      price records in the parsed payload, [Render] for the debate panel,
      and [Settings] for the dialog of the API settings. *)

From Stdlib Require Import Ascii String QArith Qround Qminmax Lqa.
From stdpp Require Import gmap strings list fin_maps.

Local Open Scope Z_scope.

(** ** JavaScript strings *)

Module JsString.

(** A string is the sequence of its UTF-16 code units. *)
Abbreviation t := (list N).

(** The code units of an ASCII literal. *)
Definition str (s : string) : list N :=
  N_of_ascii <$> list_ascii_of_string s.
Arguments str : simpl never.

(** [WhiteSpace] and [LineTerminator] of ECMAScript, the code units that
    [String.prototype.trim] strips. *)
Definition isWhiteSpace (c : N) : bool :=
  bool_decide (c ∈ [9; 10; 11; 12; 13; 32; 160; 5760;
                    8192; 8193; 8194; 8195; 8196; 8197; 8198; 8199;
                    8200; 8201; 8202; 8232; 8233; 8239; 8287; 12288;
                    65279]%N).

Fixpoint trimStart (s : list N) : list N :=
  match s with
  | c :: s' => if isWhiteSpace c then trimStart s' else s
  | [] => []
  end.

Definition trimEnd (s : list N) : list N :=
  reverse (trimStart (reverse s)).

(** [s.trim()] *)
Definition trim (s : list N) : list N := trimEnd (trimStart s).

(** [s.startsWith(p)] *)
Fixpoint startsWith (s p : list N) : bool :=
  match p, s with
  | [], _ => true
  | c :: p', d :: s' => bool_decide (c = d) && startsWith s' p'
  | _ :: _, [] => false
  end.

(** [s.includes(p)] *)
Fixpoint includes (s p : list N) : bool :=
  startsWith s p ||
  match s with
  | _ :: s' => includes s' p
  | [] => false
  end.

End JsString.

Import JsString.

(** ** The regular expressions of the source

    Both regular expressions of the controller are anchored sequences of
    quantified single-character atoms, so the matcher below covers them:
    each item is tried greedily, from its largest repetition count down to
    its smallest, as a backtracking engine does. *)

Module Regex.

Inductive atom :=
| Digit                (* \d *)
| Char (c : N).        (* a literal character *)

Definition atom_matches (a : atom) (c : N) : bool :=
  match a with
  | Digit => (48 <=? c)%N && (c <=? 57)%N
  | Char d => bool_decide (c = d)
  end.

(** [a{lo,hi}] *)
Record item := Rep { rep_atom : atom; rep_lo : nat; rep_hi : nat }.

(** Consume exactly [n] characters that match [a]. *)
Fixpoint consume (a : atom) (n : nat) (s : list N) : option (list N) :=
  match n with
  | O => Some s
  | S n' =>
      match s with
      | c :: s' => if atom_matches a c then consume a n' s' else None
      | [] => None
      end
  end.

(** The repetition counts of an item, largest first. *)
Definition counts (i : item) : list nat :=
  reverse (seq (rep_lo i) (S (rep_hi i) - rep_lo i)).

Fixpoint first_some {A B} (f : A → option B) (l : list A) : option B :=
  match l with
  | [] => None
  | x :: l' => match f x with Some y => Some y | None => first_some f l' end
  end.

(** Match the items at the start of [s]; [dollar] is the [$] anchor at
    the end of the pattern. The result is what follows the match. *)
Fixpoint exec (its : list item) (dollar : bool) (s : list N)
  : option (list N) :=
  match its with
  | [] => if dollar then (if s is [] then Some [] else None) else Some s
  | i :: its' =>
      first_some
        (λ k, match consume (rep_atom i) k s with
              | Some rest => exec its' dollar rest
              | None => None
              end)
        (counts i)
  end.

(** [/^...$/.test(s)] or [/^.../.test(s)] *)
Definition test (its : list item) (dollar : bool) (s : list N) : bool :=
  bool_decide (is_Some (exec its dollar s)).

(** [s.replace(/^.../, '')]: without the [g] flag and with the [^]
    anchor only a match at position 0 is replaced. *)
Definition replace_prefix (its : list item) (s : list N) : list N :=
  match exec its false s with
  | Some rest => rest
  | None => s
  end.

Definition lit (s : string) : list item :=
  (λ c, Rep (Char c) 1 1) <$> str s.

(** [/^\d{4,6}$/] *)
Definition stockCodeRe : list item := [Rep Digit 4 6].

(** [/^https?:\/\//] *)
Definition schemeRe : list item :=
  lit "http" ++ [Rep (Char 115) 0 1] ++ lit "://".

End Regex.

(** [/^\d{4,6}$/.test(stockCode)], the format check of [validateInput]
    and [startAnalysis]. *)
Definition isValidFormat (stockCode : list N) : bool :=
  Regex.test Regex.stockCodeRe true stockCode.

(** What the specification calls a syntactically valid stock code: four to
    six characters, each of them a decimal digit. *)
Definition matches_4_to_6_digits (c : list N) : Prop :=
  (4 ≤ length c ≤ 6)%nat ∧ Forall (λ u, (48 ≤ u ≤ 57)%N) c.

(** ** [config.js] *)

Module CONFIG.

Definition LOCAL_ORIGIN : list N := str "http://localhost:8000".
Definition PRODUCTION_ORIGIN : list N :=
  str "https://willis-stock-genie-api.onrender.com".

(** [getBaseUrl()], as a function of [window.location.hostname]. *)
Definition getBaseUrl (hostname : list N) : list N :=
  if bool_decide (hostname = str "localhost")
     || bool_decide (hostname = str "127.0.0.1")
  then LOCAL_ORIGIN
  else PRODUCTION_ORIGIN.

(** The body of [getWebSocketUrl()] after [baseUrl] is bound. *)
Definition wsUrlOf (baseUrl : list N) : list N :=
  let wsProtocol :=
    if startsWith baseUrl (str "https") then str "wss" else str "ws" in
  let wsHost := Regex.replace_prefix Regex.schemeRe baseUrl in
  wsProtocol ++ str "://" ++ wsHost.

Definition getWebSocketUrl (hostname : list N) : list N :=
  wsUrlOf (getBaseUrl hostname).

End CONFIG.

(** What the specification calls a loopback host name, for a host name as
    [window.location.hostname] gives it: [localhost] or a name below it,
    with or without the dot of the root; an IPv4 address of the block
    127.0.0.0/8; or the IPv6 address [[::1]]. *)
Module Loopback.

(** The labels of a host name: its parts between the dots. *)
Fixpoint labels (s : list N) : list (list N) :=
  match s with
  | [] => [[]]
  | c :: s' =>
      if (c =? 46)%N then [] :: labels s'
      else
        match labels s' with
        | w :: ws => (c :: w) :: ws
        | [] => [[c]]
        end
  end.

(** A decimal number of one to three digits that is at most 255. *)
Definition octet (w : list N) : option N :=
  if bool_decide (1 ≤ length w ≤ 3)%nat
     && forallb (λ c, (48 <=? c)%N && (c <=? 57)%N) w
  then
    let v := foldl (λ acc c, acc * 10 + (c - 48))%N 0%N w in
    if (v <=? 255)%N then Some v else None
  else None.

Definition isIPv4Loopback (h : list N) : bool :=
  match octet <$> labels h with
  | [Some 127%N; Some _; Some _; Some _] => true
  | _ => false
  end.

Definition isLocalhostName (h : list N) : bool :=
  match reverse (labels h) with
  | [] :: top :: _ => bool_decide (top = str "localhost")
  | top :: _ => bool_decide (top = str "localhost")
  | [] => false
  end.

End Loopback.

Definition loopbackHostname (h : list N) : bool :=
  Loopback.isLocalhostName h || Loopback.isIPv4Loopback h
  || bool_decide (h = str "[::1]").


(** ** The state of [FinGeniusApp] and of the page *)

Module App.

(** A template literal: constant text, interpolated strings and numbers.
    [Inherited k f] stands for the text of field [f] of the property that
    [Object.prototype] supplies under the name [k]. *)
Inductive piece :=
| L (s : string)
| D (s : list N)
| Num (z : Z)
| Inherited (k : list N) (f : string).

Inductive ToastType := info | success | warning | danger.

(** One call of [showToast(message, type)]. *)
Record Toast := MkToast { toastMessage : list piece; toastType : ToastType }.

Inductive ConnectionStatus := disconnected | connecting | connected | analyzing.

(** [this.websocket]: [null], or a socket and its [readyState]; [CLOSING]
    stands for [CLOSING] and for [CLOSED], which behave alike here. *)
Inductive ReadyState := NoSocket | CONNECTING | OPEN | CLOSING.

(** The payload of [battle_results], and the [battle] entry of the
    results. *)
Record BattleResult := MkBattle {
  final_decision : list N;
  vote_count : list (list N * Z)
}.

(** [message.results] of [analysis_complete]: an object whose [research]
    and [battle] properties the controller reads; the per-agent payloads
    are kept as raw text, and [otherKeys] counts the remaining own keys.
    Whether [extractChartDataFromReal] returns on [research] or throws (a
    [TypeError], on price records that are not an array) is decided by
    the parsed payloads, which are not kept here: [chartsThrow] carries
    the answer along with them. *)
Record Results := MkResults {
  research : option (list (list N * list N));
  battle : option BattleResult;
  otherKeys : nat;
  chartsThrow : bool
}.

(** [Object.keys(results).length] *)
Definition keysLength (r : Results) : nat :=
  ((if research r is Some _ then 1 else 0)
   + (if battle r is Some _ then 1 else 0) + otherKeys r)%nat.

(** A row of the [mockStocks] table. *)
Record StockRow := MkRow { code : list N; name : string; industry : string }.

(** [stock_info] of a [validation_result] message. *)
Record StockMeta := MkMeta { meta_name : list N; meta_industry : list N }.

(** The [innerHTML] of the [stockInfo] element. *)
Inductive StockInfoHtml :=
| InfoEmpty
| InfoDanger (message : list piece)      (* span.text-danger *)
| InfoSuccess (message : list piece)     (* span.text-success *)
| InfoCompany (nm cd ind : list piece).  (* ✓ <strong>nm</strong> (cd) - ind *)

Inductive IconHtml := IconClock | IconSpinner | IconCheck.

(** One agent card of the progress panel: the [agent-<id>] element, its
    [agent-status-<id>] text and its [agent-icon-<id>] content, which
    [resetProgress] creates together. *)
Record AgentCard := MkCard {
  classList : gset string;
  cardName : string;
  statusText : string;
  iconHtml : IconHtml
}.

(** The result tabs, filled by [loadRealResults] or [loadMockResults]. *)
Inductive ResultPanels :=
| PanelsUnset
| PanelsReal (r : list (list N * list N))
| PanelsMock (stock : option (list N)).

(** Messages the client sends. *)
Inductive Outbound :=
| validate_stock (stock_code : list N)
| start_analysis (stock_code : list N)
| cancel_analysis (stock_code : option (list N))
| configure_api.

(** The closures handed to [setTimeout], one constructor per call site. *)
Inductive Callback :=
| CbWelcome                          (* showWelcomeMessage *)
| CbFocusAnalyzeBtn                  (* handleValidationResult *)
| CbReportWatchdog                   (* handlePhaseCompleted *)
| CbEnableAnalysisButton             (* tryLoadLatestReport *)
| CbRestoreValidateBtn               (* validateStockCode *)
| CbMockValidation (stockCode : list N)     (* useMockValidation *)
| CbScrollToProgress                 (* startAnalysis *)
| CbSendStartAnalysis (stockCode : list N)  (* startAnalysis *)
| CbSimBattlePhase                   (* processNextAgent, all agents done *)
| CbSimAgentDone (currentIndex : nat) (epoch : N)  (* processNextAgent *)
| CbSimReport                        (* simulateBattlePhase, outer *)
| CbSimFinish                        (* simulateBattlePhase, inner *)
| CbShowResultCard.                  (* showAnalysisResults *)

Record Timer := MkTimer { tid : positive; due : Z; callback : Callback }.

(** Inbound messages, by their [type]. *)
Inductive Message :=
| validation_result (valid : bool) (stock_info : option StockMeta)
    (message : option (list N))
| analysis_started
| phase_started (phase message : list N)
| phase_completed (phase message : list N)
| agent_progress (agent status message : list N)
| battle_started
| battle_results (final_decision : list N) (vote_count : list (list N * Z))
| analysis_complete (results : option Results)
| api_config_result (ok : bool) (message : list N)
| api_test_result (ok : bool) (message : list N)
| error (message : option (list N))
| unknown_type.

#[global] Instance BattleResult_eq_dec : EqDecision BattleResult.
Proof. solve_decision. Defined.
#[global] Instance Callback_eq_dec : EqDecision Callback.
Proof. solve_decision. Defined.
#[global] Instance piece_eq_dec : EqDecision piece.
Proof. solve_decision. Defined.
#[global] Instance ToastType_eq_dec : EqDecision ToastType.
Proof. solve_decision. Defined.
#[global] Instance Toast_eq_dec : EqDecision Toast.
Proof. solve_decision. Defined.

(** The fields of [this], as the constructor declares them, and
    [reportCompleteTimeout], which [handlePhaseCompleted] adds. *)
Record Ctl := MkCtl {
  currentStock : option (list N);
  analysisResults : option Results;
  websocket : ReadyState;
  analysisStartTime : option Z;
  connectionStatus : ConnectionStatus;
  analysisCompleted : bool;
  isBattleComplete : bool;
  awaitingBattleCompletion : bool;
  resultsDisplayed : bool;
  lastAnalysisElapsedTime : Z;
  analysisHasResults : bool;
  pendingSuccessToast : bool;
  reportCompleteTimeout : option positive
}.

(** [set_f v r] is [r] with its field [f] set to [v]. *)

Definition set_currentStock (v : option (list N)) (r : Ctl) : Ctl :=
  MkCtl v (analysisResults r) (websocket r) (analysisStartTime r)
    (connectionStatus r) (analysisCompleted r) (isBattleComplete r)
    (awaitingBattleCompletion r) (resultsDisplayed r)
    (lastAnalysisElapsedTime r) (analysisHasResults r) (pendingSuccessToast
    r) (reportCompleteTimeout r).

Definition set_analysisResults (v : option Results) (r : Ctl) : Ctl :=
  MkCtl (currentStock r) v (websocket r) (analysisStartTime r)
    (connectionStatus r) (analysisCompleted r) (isBattleComplete r)
    (awaitingBattleCompletion r) (resultsDisplayed r)
    (lastAnalysisElapsedTime r) (analysisHasResults r) (pendingSuccessToast
    r) (reportCompleteTimeout r).

Definition set_websocket (v : ReadyState) (r : Ctl) : Ctl :=
  MkCtl (currentStock r) (analysisResults r) v (analysisStartTime r)
    (connectionStatus r) (analysisCompleted r) (isBattleComplete r)
    (awaitingBattleCompletion r) (resultsDisplayed r)
    (lastAnalysisElapsedTime r) (analysisHasResults r) (pendingSuccessToast
    r) (reportCompleteTimeout r).

Definition set_analysisStartTime (v : option Z) (r : Ctl) : Ctl :=
  MkCtl (currentStock r) (analysisResults r) (websocket r) v
    (connectionStatus r) (analysisCompleted r) (isBattleComplete r)
    (awaitingBattleCompletion r) (resultsDisplayed r)
    (lastAnalysisElapsedTime r) (analysisHasResults r) (pendingSuccessToast
    r) (reportCompleteTimeout r).

Definition set_connectionStatus (v : ConnectionStatus) (r : Ctl) : Ctl :=
  MkCtl (currentStock r) (analysisResults r) (websocket r)
    (analysisStartTime r) v (analysisCompleted r) (isBattleComplete r)
    (awaitingBattleCompletion r) (resultsDisplayed r)
    (lastAnalysisElapsedTime r) (analysisHasResults r) (pendingSuccessToast
    r) (reportCompleteTimeout r).

Definition set_analysisCompleted (v : bool) (r : Ctl) : Ctl :=
  MkCtl (currentStock r) (analysisResults r) (websocket r)
    (analysisStartTime r) (connectionStatus r) v (isBattleComplete r)
    (awaitingBattleCompletion r) (resultsDisplayed r)
    (lastAnalysisElapsedTime r) (analysisHasResults r) (pendingSuccessToast
    r) (reportCompleteTimeout r).

Definition set_isBattleComplete (v : bool) (r : Ctl) : Ctl :=
  MkCtl (currentStock r) (analysisResults r) (websocket r)
    (analysisStartTime r) (connectionStatus r) (analysisCompleted r) v
    (awaitingBattleCompletion r) (resultsDisplayed r)
    (lastAnalysisElapsedTime r) (analysisHasResults r) (pendingSuccessToast
    r) (reportCompleteTimeout r).

Definition set_awaitingBattleCompletion (v : bool) (r : Ctl) : Ctl :=
  MkCtl (currentStock r) (analysisResults r) (websocket r)
    (analysisStartTime r) (connectionStatus r) (analysisCompleted r)
    (isBattleComplete r) v (resultsDisplayed r) (lastAnalysisElapsedTime r)
    (analysisHasResults r) (pendingSuccessToast r) (reportCompleteTimeout
    r).

Definition set_resultsDisplayed (v : bool) (r : Ctl) : Ctl :=
  MkCtl (currentStock r) (analysisResults r) (websocket r)
    (analysisStartTime r) (connectionStatus r) (analysisCompleted r)
    (isBattleComplete r) (awaitingBattleCompletion r) v
    (lastAnalysisElapsedTime r) (analysisHasResults r) (pendingSuccessToast
    r) (reportCompleteTimeout r).

Definition set_lastAnalysisElapsedTime (v : Z) (r : Ctl) : Ctl :=
  MkCtl (currentStock r) (analysisResults r) (websocket r)
    (analysisStartTime r) (connectionStatus r) (analysisCompleted r)
    (isBattleComplete r) (awaitingBattleCompletion r) (resultsDisplayed r) v
    (analysisHasResults r) (pendingSuccessToast r) (reportCompleteTimeout
    r).

Definition set_analysisHasResults (v : bool) (r : Ctl) : Ctl :=
  MkCtl (currentStock r) (analysisResults r) (websocket r)
    (analysisStartTime r) (connectionStatus r) (analysisCompleted r)
    (isBattleComplete r) (awaitingBattleCompletion r) (resultsDisplayed r)
    (lastAnalysisElapsedTime r) v (pendingSuccessToast r)
    (reportCompleteTimeout r).

Definition set_pendingSuccessToast (v : bool) (r : Ctl) : Ctl :=
  MkCtl (currentStock r) (analysisResults r) (websocket r)
    (analysisStartTime r) (connectionStatus r) (analysisCompleted r)
    (isBattleComplete r) (awaitingBattleCompletion r) (resultsDisplayed r)
    (lastAnalysisElapsedTime r) (analysisHasResults r) v
    (reportCompleteTimeout r).

Definition set_reportCompleteTimeout (v : option positive) (r : Ctl) : Ctl :=
  MkCtl (currentStock r) (analysisResults r) (websocket r)
    (analysisStartTime r) (connectionStatus r) (analysisCompleted r)
    (isBattleComplete r) (awaitingBattleCompletion r) (resultsDisplayed r)
    (lastAnalysisElapsedTime r) (analysisHasResults r) (pendingSuccessToast
    r) v.

(** The part of the page the controller reads and writes: the stock code
    field and the text under it, the two buttons, the progress card with
    its bar and its agent cards, the toasts, and the result card. The
    elements the methods look up by id are taken to exist.
    [agentProgressEpoch] counts the times [resetProgress] has rebuilt the
    agent cards, so that a closure can tell whether the element it holds
    is still in the page. *)
Record Dom := MkDom {
  stockCodeValue : list N;
  stockCodeClass : gset string;
  stockInfo : StockInfoHtml;
  validateBtnDisabled : bool;
  analyzeBtnDisabled : bool;
  progressCardShown : bool;
  resultCardShown : bool;
  battleCardShown : bool;
  progressBarWidth : Q;
  progressPercent : Z;
  progressText : list piece;
  agentCards : gmap (list N) AgentCard;
  agentProgressEpoch : N;
  toasts : list Toast;
  resultPanels : ResultPanels;
  battleResults : option BattleResult
}.

(** [set_f v r] is [r] with its field [f] set to [v]. *)

Definition set_stockCodeValue (v : list N) (r : Dom) : Dom :=
  MkDom v (stockCodeClass r) (stockInfo r) (validateBtnDisabled r)
    (analyzeBtnDisabled r) (progressCardShown r) (resultCardShown r)
    (battleCardShown r) (progressBarWidth r) (progressPercent r)
    (progressText r) (agentCards r) (agentProgressEpoch r) (toasts r)
    (resultPanels r) (battleResults r).

Definition set_stockCodeClass (v : gset string) (r : Dom) : Dom :=
  MkDom (stockCodeValue r) v (stockInfo r) (validateBtnDisabled r)
    (analyzeBtnDisabled r) (progressCardShown r) (resultCardShown r)
    (battleCardShown r) (progressBarWidth r) (progressPercent r)
    (progressText r) (agentCards r) (agentProgressEpoch r) (toasts r)
    (resultPanels r) (battleResults r).

Definition set_stockInfo (v : StockInfoHtml) (r : Dom) : Dom :=
  MkDom (stockCodeValue r) (stockCodeClass r) v (validateBtnDisabled r)
    (analyzeBtnDisabled r) (progressCardShown r) (resultCardShown r)
    (battleCardShown r) (progressBarWidth r) (progressPercent r)
    (progressText r) (agentCards r) (agentProgressEpoch r) (toasts r)
    (resultPanels r) (battleResults r).

Definition set_validateBtnDisabled (v : bool) (r : Dom) : Dom :=
  MkDom (stockCodeValue r) (stockCodeClass r) (stockInfo r) v
    (analyzeBtnDisabled r) (progressCardShown r) (resultCardShown r)
    (battleCardShown r) (progressBarWidth r) (progressPercent r)
    (progressText r) (agentCards r) (agentProgressEpoch r) (toasts r)
    (resultPanels r) (battleResults r).

Definition set_analyzeBtnDisabled (v : bool) (r : Dom) : Dom :=
  MkDom (stockCodeValue r) (stockCodeClass r) (stockInfo r)
    (validateBtnDisabled r) v (progressCardShown r) (resultCardShown r)
    (battleCardShown r) (progressBarWidth r) (progressPercent r)
    (progressText r) (agentCards r) (agentProgressEpoch r) (toasts r)
    (resultPanels r) (battleResults r).

Definition set_progressCardShown (v : bool) (r : Dom) : Dom :=
  MkDom (stockCodeValue r) (stockCodeClass r) (stockInfo r)
    (validateBtnDisabled r) (analyzeBtnDisabled r) v (resultCardShown r)
    (battleCardShown r) (progressBarWidth r) (progressPercent r)
    (progressText r) (agentCards r) (agentProgressEpoch r) (toasts r)
    (resultPanels r) (battleResults r).

Definition set_resultCardShown (v : bool) (r : Dom) : Dom :=
  MkDom (stockCodeValue r) (stockCodeClass r) (stockInfo r)
    (validateBtnDisabled r) (analyzeBtnDisabled r) (progressCardShown r) v
    (battleCardShown r) (progressBarWidth r) (progressPercent r)
    (progressText r) (agentCards r) (agentProgressEpoch r) (toasts r)
    (resultPanels r) (battleResults r).

Definition set_battleCardShown (v : bool) (r : Dom) : Dom :=
  MkDom (stockCodeValue r) (stockCodeClass r) (stockInfo r)
    (validateBtnDisabled r) (analyzeBtnDisabled r) (progressCardShown r)
    (resultCardShown r) v (progressBarWidth r) (progressPercent r)
    (progressText r) (agentCards r) (agentProgressEpoch r) (toasts r)
    (resultPanels r) (battleResults r).

Definition set_progressBarWidth (v : Q) (r : Dom) : Dom :=
  MkDom (stockCodeValue r) (stockCodeClass r) (stockInfo r)
    (validateBtnDisabled r) (analyzeBtnDisabled r) (progressCardShown r)
    (resultCardShown r) (battleCardShown r) v (progressPercent r)
    (progressText r) (agentCards r) (agentProgressEpoch r) (toasts r)
    (resultPanels r) (battleResults r).

Definition set_progressPercent (v : Z) (r : Dom) : Dom :=
  MkDom (stockCodeValue r) (stockCodeClass r) (stockInfo r)
    (validateBtnDisabled r) (analyzeBtnDisabled r) (progressCardShown r)
    (resultCardShown r) (battleCardShown r) (progressBarWidth r) v
    (progressText r) (agentCards r) (agentProgressEpoch r) (toasts r)
    (resultPanels r) (battleResults r).

Definition set_progressText (v : list piece) (r : Dom) : Dom :=
  MkDom (stockCodeValue r) (stockCodeClass r) (stockInfo r)
    (validateBtnDisabled r) (analyzeBtnDisabled r) (progressCardShown r)
    (resultCardShown r) (battleCardShown r) (progressBarWidth r)
    (progressPercent r) v (agentCards r) (agentProgressEpoch r) (toasts r)
    (resultPanels r) (battleResults r).

Definition set_agentCards (v : gmap (list N) AgentCard) (r : Dom) : Dom :=
  MkDom (stockCodeValue r) (stockCodeClass r) (stockInfo r)
    (validateBtnDisabled r) (analyzeBtnDisabled r) (progressCardShown r)
    (resultCardShown r) (battleCardShown r) (progressBarWidth r)
    (progressPercent r) (progressText r) v (agentProgressEpoch r) (toasts r)
    (resultPanels r) (battleResults r).

Definition set_agentProgressEpoch (v : N) (r : Dom) : Dom :=
  MkDom (stockCodeValue r) (stockCodeClass r) (stockInfo r)
    (validateBtnDisabled r) (analyzeBtnDisabled r) (progressCardShown r)
    (resultCardShown r) (battleCardShown r) (progressBarWidth r)
    (progressPercent r) (progressText r) (agentCards r) v (toasts r)
    (resultPanels r) (battleResults r).

Definition set_toasts (v : list Toast) (r : Dom) : Dom :=
  MkDom (stockCodeValue r) (stockCodeClass r) (stockInfo r)
    (validateBtnDisabled r) (analyzeBtnDisabled r) (progressCardShown r)
    (resultCardShown r) (battleCardShown r) (progressBarWidth r)
    (progressPercent r) (progressText r) (agentCards r) (agentProgressEpoch
    r) v (resultPanels r) (battleResults r).

Definition set_resultPanels (v : ResultPanels) (r : Dom) : Dom :=
  MkDom (stockCodeValue r) (stockCodeClass r) (stockInfo r)
    (validateBtnDisabled r) (analyzeBtnDisabled r) (progressCardShown r)
    (resultCardShown r) (battleCardShown r) (progressBarWidth r)
    (progressPercent r) (progressText r) (agentCards r) (agentProgressEpoch
    r) (toasts r) v (battleResults r).

Definition set_battleResults (v : option BattleResult) (r : Dom) : Dom :=
  MkDom (stockCodeValue r) (stockCodeClass r) (stockInfo r)
    (validateBtnDisabled r) (analyzeBtnDisabled r) (progressCardShown r)
    (resultCardShown r) (battleCardShown r) (progressBarWidth r)
    (progressPercent r) (progressText r) (agentCards r) (agentProgressEpoch
    r) (toasts r) (resultPanels r) v.

(** The browser around the controller: the clock in milliseconds, the
    pending timers and the next timer handle, the values [Math.random]
    will return, and the messages sent over the socket. *)
Record Env := MkEnv {
  now : Z;
  timers : list Timer;
  nextTimerId : positive;
  randoms : list Z;
  sent : list Outbound
}.

(** [set_f v r] is [r] with its field [f] set to [v]. *)

Definition set_now (v : Z) (r : Env) : Env :=
  MkEnv v (timers r) (nextTimerId r) (randoms r) (sent r).

Definition set_timers (v : list Timer) (r : Env) : Env :=
  MkEnv (now r) v (nextTimerId r) (randoms r) (sent r).

Definition set_nextTimerId (v : positive) (r : Env) : Env :=
  MkEnv (now r) (timers r) v (randoms r) (sent r).

Definition set_randoms (v : list Z) (r : Env) : Env :=
  MkEnv (now r) (timers r) (nextTimerId r) v (sent r).

Definition set_sent (v : list Outbound) (r : Env) : Env :=
  MkEnv (now r) (timers r) (nextTimerId r) (randoms r) v.

(** The controller, the page and the browser environment (clock, pending
    timers, the source of [Math.random], the messages sent so far). *)
Record State := MkState { this : Ctl; document : Dom; env : Env }.

(** ** Methods as state transformers

    A method is a function from the state before the call to the state
    after it. [a >> b] runs [a], then [b]; [val x := r in k] reads [r] off
    the current state and goes on with [k]. *)

Definition Action : Type := State → State.

Definition skip : Action := λ s, s.

Definition seq (a b : Action) : Action := λ s, b (a s).

Definition read {A} (r : State → A) (k : A → Action) : Action :=
  λ s, k (r s) s.

Notation "a >> b" := (seq a b) (at level 61, left associativity).
Notation "'val' x := r 'in' k" := (read r (λ x, k))
  (at level 10, x name, k at level 200).

Definition upd_this (f : Ctl → Ctl) : Action :=
  λ s, MkState (f (this s)) (document s) (env s).
Definition upd_document (f : Dom → Dom) : Action :=
  λ s, MkState (this s) (f (document s)) (env s).
Definition upd_env (f : Env → Env) : Action :=
  λ s, MkState (this s) (document s) (f (env s)).

(** [this.f], [f] of the page, [f] of the environment. *)
Definition the {A} (f : Ctl → A) : State → A := λ s, f (this s).
Definition page {A} (f : Dom → A) : State → A := λ s, f (document s).
Definition world {A} (f : Env → A) : State → A := λ s, f (env s).

(** *** Timers *)

(** [setTimeout(cb, delay)]: the timer is queued under the next handle;
    handles are positive and never reused. The handle returned is
    [nextTimerId] as read before the call. *)
Definition setTimeout (cb : Callback) (delay : Z) : Action :=
  upd_env (λ e,
    set_nextTimerId (nextTimerId e + 1)%positive
      (set_timers (timers e ++ [MkTimer (nextTimerId e) (now e + delay) cb])
         e)).

Definition clearTimeout (id : positive) : Action :=
  upd_env (λ e, set_timers (filter (λ t, tid t ≠ id) (timers e)) e).

(** [Math.random() * 2000], truncated to milliseconds: the next value of
    the random source, which [drawRandom] then consumes. *)
Definition random2000 (s : State) : Z :=
  match randoms (env s) with
  | r :: _ => r `mod` 2000
  | [] => 0
  end.

Definition drawRandom : Action :=
  upd_env (λ e, set_randoms (tail (randoms e)) e).

(** *** Small helpers of the class *)

(** The log of the toasts shown; their removal after three seconds is an
    animation of the page and is left out. *)
Definition showToast (message : list piece) (type : ToastType) : Action :=
  upd_document (λ d, set_toasts (toasts d ++ [MkToast message type]) d).

Definition showValidationError (message : list piece) : Action :=
  upd_document (λ d,
    set_stockCodeClass (stockCodeClass d ∪ {["is-invalid"]})
      (set_stockInfo (InfoDanger message) d)).

Definition showValidationSuccess (message : list piece) : Action :=
  upd_document (λ d,
    set_stockCodeClass (stockCodeClass d ∖ {["is-invalid"]} ∪ {["is-valid"]})
      (set_stockInfo (InfoSuccess message) d)).

Definition clearValidationError : Action :=
  upd_document (λ d,
    set_stockCodeClass (stockCodeClass d ∖ {["is-invalid"]} ∖ {["is-valid"]})
      (set_stockInfo InfoEmpty d)).

Definition disableAnalysisButton : Action :=
  upd_document (set_analyzeBtnDisabled true).

Definition enableAnalysisButton : Action :=
  upd_document (set_analyzeBtnDisabled false).

(** [Math.round(x)] *)
Definition mathRound (x : Q) : Z := Qfloor (x + (1 # 2)).

(** [Math.max(0, Math.min(percent, 100))] *)
Definition clamp (percent : Q) : Q := Qmax 0 (Qmin percent 100).

Definition setProgress (percent : Q) (text : option (list piece)) : Action :=
  let clampedPercent := clamp percent in
  upd_document (set_progressBarWidth clampedPercent)
  >> upd_document (set_progressPercent (mathRound clampedPercent))
  >> match text with
     | Some t => upd_document (set_progressText t)
     | None => skip
     end.

(** *** Property access on an object literal used as a table *)

(** The names every object literal inherits from [Object.prototype]; the
    values found there are functions or objects, hence truthy. *)
Definition objectPrototypeKeys : list (list N) :=
  str <$> ["constructor"; "__defineGetter__"; "__defineSetter__";
           "hasOwnProperty"; "__lookupGetter__"; "__lookupSetter__";
           "isPrototypeOf"; "propertyIsEnumerable"; "toString"; "valueOf";
           "__proto__"; "toLocaleString"]%string.

Inductive Property (A : Type) :=
| Own (v : A)
| FromPrototype
| Undefined.
Arguments Own {A} v.
Arguments FromPrototype {A}.
Arguments Undefined {A}.

(** [obj[key]] *)
Definition getProperty {A} (obj : gmap (list N) A) (key : list N)
  : Property A :=
  match obj !! key with
  | Some v => Own v
  | None =>
      if bool_decide (key ∈ objectPrototypeKeys) then FromPrototype
      else Undefined
  end.

Definition mockStocks : gmap (list N) StockRow :=
  list_to_map
    [ (str "2330", MkRow (str "2330") "台積電" "半導體");
      (str "2317", MkRow (str "2317") "鴻海" "電子零件");
      (str "2454", MkRow (str "2454") "聯發科" "半導體");
      (str "3008", MkRow (str "3008") "大立光" "光學鏡頭");
      (str "2881", MkRow (str "2881") "富邦金" "金融保險");
      (str "2882", MkRow (str "2882") "國泰金" "金融保險") ].

(** [mockStocks[stockCode] || null]; [Undefined] stands for [null]. *)
Definition getMockStockInfo (stockCode : list N) : Property StockRow :=
  getProperty mockStocks stockCode.

Definition phaseIcons : gmap (list N) string :=
  list_to_map [ (str "research", "🔬"); (str "battle", "⚖️");
                (str "report", "📄") ]%string.

Definition phaseStartIcons : gmap (list N) string :=
  list_to_map [ (str "research", "🔍"); (str "battle", "⚖️");
                (str "report", "📊") ]%string.

Definition phaseNames : gmap (list N) string :=
  list_to_map [ (str "research", "🔬 研究階段");
                (str "battle", "⚖️ AI 專家辯論階段");
                (str "report", "📄 報告生成階段") ]%string.

(** [`${table[key]}`] *)
Definition interpolate (table : gmap (list N) string) (key : list N)
  : piece :=
  match getProperty table key with
  | Own v => L v
  | FromPrototype => Inherited key ""
  | Undefined => L "undefined"
  end.

(** [`${this.currentStock}`] *)
Definition stockText (stock : option (list N)) : piece :=
  match stock with
  | Some c => D c
  | None => L "null"
  end.

(** [message || fallback] for an optional string. *)
Definition orElse (message : option (list N)) (fallback : string) : piece :=
  match message with
  | Some (c :: m) => D (c :: m)
  | _ => L fallback
  end.

(** *** The agent cards *)

Inductive AgentStatus := waiting | started | completed.

(** The status a card shows, as [updateProgressBar] reads it off the
    class list. *)
Definition cardStatus (card : AgentCard) : AgentStatus :=
  if bool_decide ("completed" ∈ classList card) then completed
  else if bool_decide ("active" ∈ classList card) then started
  else waiting.

Definition classList_add (c : string) (card : AgentCard) : AgentCard :=
  MkCard (classList card ∪ {[c]}) (cardName card) (statusText card)
    (iconHtml card).

Definition classList_remove (c : string) (card : AgentCard) : AgentCard :=
  MkCard (classList card ∖ {[c]}) (cardName card) (statusText card)
    (iconHtml card).

Definition set_statusText (v : string) (card : AgentCard) : AgentCard :=
  MkCard (classList card) (cardName card) v (iconHtml card).

Definition set_iconHtml (v : IconHtml) (card : AgentCard) : AgentCard :=
  MkCard (classList card) (cardName card) (statusText card) v.

(** The element of the card of [agent] is changed in place. *)
Definition mutateCard (agent : list N) (f : AgentCard → AgentCard) : Action :=
  upd_document (λ d, set_agentCards (alter f agent (agentCards d)) d).

(** [document.querySelectorAll('.agent-card.' + c).length] *)
Definition countCards (c : string) (s : State) : nat :=
  size (filter (λ kv : list N * AgentCard,
                  "agent-card" ∈ classList kv.2 ∧ c ∈ classList kv.2)
               (agentCards (document s))).

(** The [agents] array of [resetProgress] and of [simulateAnalysis]. *)
Definition agents : list (list N * string) :=
  [ (str "sentiment", "輿情分析"); (str "risk", "風險評估");
    (str "institutional_investor", "三大法人");
    (str "technical", "技術分析"); (str "chip_analysis", "籌碼分析");
    (str "big_deal", "大額交易") ]%string.

Definition freshCard (nm : string) : AgentCard :=
  MkCard ({["agent-card"]} ∪ {["p-3"]}) nm "⏳ 等待中" IconClock.

(** [(completedAgents / totalAgents) * 100] *)
Definition percentOf (completedAgents totalAgents : nat) : Q :=
  (inject_Z (Z.of_nat completedAgents) / inject_Z (Z.of_nat totalAgents)
   * 100)%Q.

Definition updateProgressBar : Action :=
  let totalAgents := 6%nat in
  val completedAgents := countCards "completed" in
  let progress := percentOf completedAgents totalAgents in
  setProgress progress None
  >> if bool_decide (completedAgents = totalAgents)
     then upd_document
            (set_progressText [L "✓ 研究階段完成，準備進入辯論階段..."])
     else skip.

Definition handleAgentProgress (agent status progressMessage : list N)
  : Action :=
  if bool_decide (agent = str "all") then
    upd_document (set_progressText [D progressMessage])
  else
    val found := page (λ d, agentCards d !! agent) in
    match found with
    | None => skip
    | Some agentCard =>
        if bool_decide (status = str "started") then
          mutateCard agent
            (λ card,
               set_iconHtml IconSpinner
                 (set_statusText "分析中..."
                    (classList_remove "completed"
                       (classList_add "active" card))))
          >> upd_document
               (set_progressText
                  [L "🔍 "; L (cardName agentCard); L "正在分析中..."])
        else if bool_decide (status = str "completed") then
          mutateCard agent
            (λ card,
               set_iconHtml IconCheck
                 (set_statusText "✓ 完成"
                    (classList_add "completed"
                       (classList_remove "active" card))))
          >> updateProgressBar
        else skip
    end.

(** *** Inbound messages *)

Definition handleValidationResult (valid : bool)
  (stock_info : option StockMeta) (message : option (list N)) : Action :=
  match valid, stock_info with
  | true, Some i =>
      (val stock := the currentStock in
       upd_document
         (set_stockInfo
            (InfoCompany [D (meta_name i)] [stockText stock]
               [D (meta_industry i)])))
      >> showValidationSuccess [orElse message "股票驗證成功"]
      >> setTimeout CbFocusAnalyzeBtn 500
  | _, _ => showValidationError [orElse message "找不到該股票代碼"]
  end.

Definition handleAnalysisStarted : Action :=
  (val t := world now in upd_this (set_analysisStartTime (Some t)))
  >> upd_this (set_connectionStatus analyzing)
  >> (val stock := the currentStock in
      showToast [L "🚀 開始分析 "; stockText stock] info).

Definition handlePhaseStarted (phase phaseMessage : list N) : Action :=
  upd_document (set_progressText [L "📊 "; D phaseMessage])
  >> showToast [interpolate phaseStartIcons phase; L " 開始";
                interpolate phaseNames phase] info.

Definition tryLoadLatestReport : Action :=
  showToast [L "⚠️ WebSocket 連接問題，請手動重新整理頁面查看結果"] warning
  >> setTimeout CbEnableAnalysisButton 2000.

(** The body of [if (phase === 'report')] in [handlePhaseCompleted]: any
    timeout still held is cleared, then the 30 second timeout is set and
    its handle kept. *)
Definition armReportTimeout : Action :=
  (val pending := the reportCompleteTimeout in
   match pending with
   | Some id => clearTimeout id
   | None => skip
   end)
  >> (val id := world nextTimerId in
      setTimeout CbReportWatchdog 30000
      >> upd_this (set_reportCompleteTimeout (Some id))).

Definition handlePhaseCompleted (phase phaseMessage : list N) : Action :=
  showToast [interpolate phaseIcons phase; L " "; D phaseMessage] success
  >> if bool_decide (phase = str "report") then armReportTimeout else skip.

Definition handleBattleStarted : Action :=
  setProgress 80 (Some [L "⚖️ AI 專家辯論進行中..."])
  >> showToast [L "⚖️ 6 位 AI 專家正在進行多輪辯論投票"] info
  >> upd_document (set_battleCardShown true).

Definition showAnalysisResults : Action :=
  val displayed := the resultsDisplayed in
  if displayed then skip
  else
    upd_this (set_resultsDisplayed true)
    >> upd_this (set_awaitingBattleCompletion false)
    >> setProgress 100 (Some [L "✅ 分析完成！"])
    >> (val pending := the pendingSuccessToast in
        val hasResults := the analysisHasResults in
        if pending && hasResults then
          (val elapsed := the lastAnalysisElapsedTime in
           showToast
             (if 0 <? elapsed
              then [L "✓ 分析完成！耗時 "; Num elapsed; L " 秒"]
              else [L "✓ 分析完成！"]) success)
          >> upd_this (set_pendingSuccessToast false)
        else skip)
    >> upd_this (set_pendingSuccessToast false)
    >> setTimeout CbShowResultCard 1000.

(** 看多 and 看空, the decision labels [handleBattleResults] looks for. *)
Definition BULLISH : list N := [30475; 22810]%N.
Definition BEARISH : list N := [30475; 31354]%N.

Definition emptyResults : Results := MkResults None None 0 false.

(** [results.battle = b], on the results object or on a fresh [{}]. *)
Definition withBattle (b : BattleResult) (results : option Results)
  : option Results :=
  let r := default emptyResults results in
  Some (MkResults (research r) (Some b) (otherKeys r) (chartsThrow r)).

Definition handleBattleResults (final_decision : list N)
  (vote_count : list (list N * Z)) : Action :=
  val wasAwaitingBattle := the awaitingBattleCompletion in
  upd_this (set_isBattleComplete true)
  >> upd_this (set_awaitingBattleCompletion false)
  >> setProgress 95 (Some [L "⚖️ 辯論完成，整理最終報告..."])
  >> (val results := the analysisResults in
      upd_this
        (set_analysisResults
           (withBattle (MkBattle final_decision vote_count) results)))
  >> showToast
       [L (if includes final_decision BULLISH then "📈"
           else if includes final_decision BEARISH then "📉"
           else "➡️");
        L " AI 辯論完成："; D final_decision] success
  >> (val analysisDone := the analysisCompleted in
      val displayed := the resultsDisplayed in
      if analysisDone && (wasAwaitingBattle || negb displayed)
      then showAnalysisResults
      else skip).

(** [start ? Math.round((Date.now() - start) / 1000) : 0]; a start time
    of 0 is falsy, as [null] is. *)
Definition elapsedSeconds (start : option Z) (now : Z) : Z :=
  match start with
  | Some t0 =>
      if bool_decide (t0 = 0) then 0 else (now - t0 + 500) `div` 1000
  | None => 0
  end.

(** [results && Object.keys(results).length > 0] *)
Definition nonEmpty (results : option Results) : bool :=
  match results with
  | Some r => bool_decide (0 < keysLength r)%nat
  | None => false
  end.

(** The first statement of [handleAnalysisComplete]: the timeout that
    [handlePhaseCompleted] set is cleared and forgotten. *)
Definition cancelReportTimeout : Action :=
  val pending := the reportCompleteTimeout in
  match pending with
  | Some id => clearTimeout id >> upd_this (set_reportCompleteTimeout None)
  | None => skip
  end.

Definition handleAnalysisComplete (results : option Results) : Action :=
  cancelReportTimeout
  >> upd_this (set_analysisResults results)
  >> upd_this (set_connectionStatus connected)
  >> upd_this (set_analysisCompleted true)
  >> (val start := the analysisStartTime in
      val t := world now in
      let elapsedTime := elapsedSeconds start t in
      let hasResults := nonEmpty results in
      upd_this (set_analysisHasResults hasResults)
      >> upd_this (set_lastAnalysisElapsedTime elapsedTime)
      >> (val battleDone := the isBattleComplete in
          if battleDone then showAnalysisResults
          else
            upd_this (set_awaitingBattleCompletion true)
            >> setProgress 90 (Some [L "📊 生成最終報告，等待辯論結果..."])
            >> showToast [L "⌛ 正在等待辯論最終結果..."] info
            >> upd_this (set_pendingSuccessToast true))
      >> (val battleDone := the isBattleComplete in
          if negb hasResults then
            showToast
              [L "⚠ 分析完成，但未獲取到有效數據，將顯示示範結果"] warning
            >> upd_this (set_pendingSuccessToast false)
          else if battleDone then
            showToast [L "✓ 分析完成！耗時 "; Num elapsedTime; L " 秒"]
              success
          else skip)
      >> (val battleDone := the isBattleComplete in
          if battleDone then upd_this (set_pendingSuccessToast false)
          else skip))
  >> enableAnalysisButton.

Definition handleApiResult (ok : bool) (message : list N) : Action :=
  if ok then showToast [L "✅ "; D message] success
  else showToast [L "❌ "; D message] danger.

Definition handleWebSocketMessage (m : Message) : Action :=
  match m with
  | validation_result valid stock_info message =>
      handleValidationResult valid stock_info message
  | analysis_started => handleAnalysisStarted
  | phase_started phase message => handlePhaseStarted phase message
  | phase_completed phase message => handlePhaseCompleted phase message
  | agent_progress agent status message =>
      handleAgentProgress agent status message
  | battle_started => handleBattleStarted
  | battle_results final_decision vote_count =>
      handleBattleResults final_decision vote_count
  | analysis_complete results => handleAnalysisComplete results
  | api_config_result ok message => handleApiResult ok message
  | api_test_result ok message => handleApiResult ok message
  | error message =>
      showToast [L "❌ "; orElse message "發生錯誤"] danger
      >> enableAnalysisButton
  | unknown_type => skip
  end.

(** *** User actions *)

Definition validateInput (value : list N) : Action :=
  let stockCode := trim value in
  clearValidationError
  >> if bool_decide (stockCode = []) then skip
     else if negb (isValidFormat stockCode) then
       showValidationError [L "⚠ 台股代碼格式錯誤，應為4-6位數字"]
     else showValidationSuccess [L "✓ 代碼格式正確"].

(** [this.websocket && this.websocket.readyState === WebSocket.OPEN] *)
Definition isOpen (s : State) : bool :=
  match websocket (this s) with OPEN => true | _ => false end.

(** The socket is there and is closing, or closed: [send] on it returns
    and drops the data. *)
Definition isClosing (s : State) : bool :=
  match websocket (this s) with CLOSING => true | _ => false end.

Definition send (m : Outbound) : Action :=
  upd_env (λ e, set_sent (sent e ++ [m]) e).

Definition useMockValidation (stockCode : list N) : Action :=
  setTimeout (CbMockValidation stockCode) 1000.

(** [send] on a socket whose [readyState] is [OPEN] does not throw, so the
    [catch] branches of [validateStockCode] and [startAnalysis] are not
    reached and are left out. *)
Definition validateStockCode : Action :=
  val value := page stockCodeValue in
  let stockCode := trim value in
  if bool_decide (stockCode = []) then
    showValidationError [L "⚠ 請輸入股票代碼"]
  else
    upd_this (set_currentStock (Some stockCode))
    >> showValidationSuccess [L "⏳ 正在驗證股票代碼..."]
    >> upd_document (set_validateBtnDisabled true)
    >> (val open := isOpen in
        if open then
          send (validate_stock stockCode)
          >> setTimeout CbRestoreValidateBtn 5000
        else
          useMockValidation stockCode
          >> upd_document (set_validateBtnDisabled false)).

Definition sendApiConfigToBackend : Action :=
  val open := isOpen in
  if negb open then skip else send configure_api.

Definition resetProgress : Action :=
  upd_this (set_analysisCompleted false)
  >> upd_this (set_isBattleComplete false)
  >> upd_this (set_awaitingBattleCompletion false)
  >> upd_this (set_resultsDisplayed false)
  >> upd_this (set_lastAnalysisElapsedTime 0)
  >> upd_this (set_analysisHasResults false)
  >> upd_this (set_pendingSuccessToast false)
  >> setProgress 0 (Some [L "⏳ 準備開始分析..."])
  >> upd_document (λ d,
       set_agentProgressEpoch (agentProgressEpoch d + 1)%N
         (set_agentCards
            (list_to_map ((λ a, (a.1, freshCard a.2)) <$> agents)) d)).

(** [((i + half) / agents.length) * 70] *)
Definition simProgress (i : nat) (half : Q) : Q :=
  ((inject_Z (Z.of_nat i) + half) / 6 * 70)%Q.

(** [processNextAgent], the local function of [simulateAnalysis], at
    [currentIndex = i]. The closure it schedules keeps the card element it
    found; [agentProgressEpoch] tells whether that element is still the
    one in the document. *)
Definition processNextAgent (i : nat) : Action :=
  match agents !! i with
  | None => setTimeout CbSimBattlePhase 1000
  | Some (agentId, _) =>
      val found := page (λ d, agentCards d !! agentId) in
      match found with
      | None => skip   (* TypeError on [null.classList]: the chain stops *)
      | Some agentCard =>
          mutateCard agentId
            (λ card,
               set_iconHtml IconSpinner
                 (set_statusText "🔍 分析中..."
                    (classList_add "active" card)))
          >> setProgress (simProgress i (1 # 2))
               (Some [L "🔍 "; L (cardName agentCard); L "正在分析中..."])
          >> (val r := random2000 in
              val epoch := page agentProgressEpoch in
              drawRandom >> setTimeout (CbSimAgentDone i epoch) (2000 + r))
      end
  end.

Definition simulateAnalysis : Action := processNextAgent 0.

Definition simulateBattlePhase : Action :=
  setProgress 80 (Some [L "⚖️ AI 專家辯論進行中..."])
  >> showToast [L "⚖️ 6 位 AI 專家正在進行多輪辯論投票"] info
  >> setTimeout CbSimReport 3000.

Definition startAnalysis : Action :=
  val value := page stockCodeValue in
  let stockCode := trim value in
  if bool_decide (stockCode = []) then
    showValidationError [L "⚠ 請輸入股票代碼"]
  else if negb (isValidFormat stockCode) then
    showValidationError [L "⚠ 台股代碼格式錯誤，應為4-6位數字"]
  else
    upd_this (set_currentStock (Some stockCode))
    >> disableAnalysisButton
    >> upd_document (set_progressCardShown true)
    >> upd_document (set_resultCardShown false)
    >> setTimeout CbScrollToProgress 100
    >> resetProgress
    >> (val open := isOpen in
        if open then
          sendApiConfigToBackend
          >> setTimeout (CbSendStartAnalysis stockCode) 100
        else
          showToast [L "💡 使用離線演示模式"] info
          >> simulateAnalysis).

Definition retryAnalysis : Action :=
  val stock := the currentStock in
  match stock with
  | Some (_ :: _) => showToast [L "🔄 正在重新分析..."] info >> startAnalysis
  | _ => skip
  end.

Definition cancelAnalysis : Action :=
  (val open := isOpen in
   val stock := the currentStock in
   if open then send (cancel_analysis stock) else skip)
  >> upd_document (set_progressCardShown false)
  >> upd_this (set_connectionStatus connected)
  >> enableAnalysisButton
  >> showToast [L "⏸ 已取消分析"] info.

(** *** Timer callbacks *)

Definition displayBattleResults (b : BattleResult) : Action :=
  upd_document (set_battleResults (Some b)).

(** The mock debate outcome of [loadMockResults]: 看多 4, 看空 2, 中性 0. *)
Definition mockBattle : BattleResult :=
  MkBattle BULLISH [(BULLISH, 4); (BEARISH, 2); ([20013; 24615]%N, 0)].

(** Only what the properties look at is kept of the rendering: which
    loader filled the tabs, from which data, and the debate outcome that
    is shown. [loadRealResults] builds the charts last, before its toast:
    when [extractChartDataFromReal] throws the closure ends there. *)
Definition loadRealResults (r : Results) (payload : list (list N * list N))
  : Action :=
  upd_document (set_resultPanels (PanelsReal payload))
  >> match battle r with
     | Some b =>
         if bool_decide (final_decision b = []) then skip
         else displayBattleResults b
     | None => skip
     end
  >> if chartsThrow r then skip
     else showToast [L "✅ 真實分析結果已載入"] success.

Definition loadMockResults : Action :=
  (val stock := the currentStock in
   upd_document (set_resultPanels (PanelsMock stock)))
  >> (val results := the analysisResults in
      match results with
      | Some (MkResults _ (Some b) _ _) => displayBattleResults b
      | _ => displayBattleResults mockBattle
      end)
  >> showToast [L "✅ 分析結果已就緒"] success.

(** The closure of [showAnalysisResults], one second later. *)
Definition showResultCard : Action :=
  upd_document (set_progressCardShown false)
  >> upd_document (set_resultCardShown true)
  >> (val results := the analysisResults in
      match results with
      | Some r =>
          match research r with
          | Some payload => loadRealResults r payload
          | None => loadMockResults
          end
      | None => loadMockResults
      end).

(** The closure of [useMockValidation], one second later. *)
Definition mockValidation (stockCode : list N) : Action :=
  match getMockStockInfo stockCode with
  | Own row =>
      upd_document
        (set_stockInfo
           (InfoCompany [L (name row)] [D (code row)] [L (industry row)]))
      >> showValidationSuccess [L "✓ 股票驗證成功（離線模式）"]
  | FromPrototype =>
      upd_document
        (set_stockInfo
           (InfoCompany [Inherited stockCode "name"]
              [Inherited stockCode "code"]
              [Inherited stockCode "industry"]))
      >> showValidationSuccess [L "✓ 股票驗證成功（離線模式）"]
  | Undefined => showValidationError [L "❌ 找不到該股票代碼"]
  end.

(** The closure of [processNextAgent] for agent [i]. *)
Definition simAgentDone (i : nat) (epoch : N) : Action :=
  match agents !! i with
  | Some (agentId, _) =>
      val found := page (λ d, agentCards d !! agentId) in
      val current := page agentProgressEpoch in
      match found with
      | Some _ =>
          if bool_decide (epoch = current) then
            mutateCard agentId
              (λ card,
                 set_iconHtml IconCheck
                   (set_statusText "✓ 完成"
                      (classList_add "completed"
                         (classList_remove "active" card))))
          else skip
      | None => skip
      end
  | None => skip
  end
  >> setProgress (simProgress i 1) None
  >> processNextAgent (S i).

(** The two nested closures of [simulateBattlePhase]. *)
Definition simFinish : Action :=
  upd_this (set_isBattleComplete true)
  >> upd_this (set_analysisCompleted true)
  >> showAnalysisResults.

Definition simReport : Action :=
  setProgress 90 (Some [L "📊 生成分析報告..."])
  >> setTimeout CbSimFinish 2000.

(** The closure of [handlePhaseCompleted], thirty seconds later. *)
Definition reportWatchdog : Action :=
  showToast [L "⚠️ 正在嘗試獲取分析結果..."] warning
  >> tryLoadLatestReport.

Definition runCallback (cb : Callback) : Action :=
  match cb with
  | CbWelcome => showToast [L "👋 歡迎使用 FinGenius 台股分析平台"] info
  | CbFocusAnalyzeBtn => skip
  | CbReportWatchdog => reportWatchdog
  | CbEnableAnalysisButton => enableAnalysisButton
  | CbRestoreValidateBtn => upd_document (set_validateBtnDisabled false)
  | CbMockValidation stockCode => mockValidation stockCode
  | CbScrollToProgress => skip
  | CbSendStartAnalysis stockCode =>
      (* the closure does not look at the socket again: [send] sends on
         an open socket, drops the data on a closing or closed one, and
         throws when there is no socket or it is still connecting *)
      val open := isOpen in
      if open then
        send (start_analysis stockCode)
        >> showToast [L "🚀 開始分析 "; D stockCode] info
      else
        val closing := isClosing in
        if closing then showToast [L "🚀 開始分析 "; D stockCode] info
        else skip
  | CbSimBattlePhase => simulateBattlePhase
  | CbSimAgentDone i epoch => simAgentDone i epoch
  | CbSimReport => simReport
  | CbSimFinish => simFinish
  | CbShowResultCard => showResultCard
  end.

(** *** The event loop *)

Inductive Event :=
| Receive (m : Message)            (* websocket.onmessage *)
| Elapse (dt : N)                  (* the clock advances by [dt] ms *)
| TimerFires (id : positive)       (* a pending timer that is due runs *)
| Input (value : list N)           (* the user edits the stock code *)
| Focus                            (* the stock code field gets the focus *)
| ClickValidate
| Submit                           (* the analysis form is submitted *)
| ClickCancel
| ClickRetry
| SocketOpen                       (* websocket.onopen *)
| SocketClosing                    (* the connection goes down; no handler
                                      has run yet *)
| SocketError                      (* websocket.onerror *)
| SocketClose.                     (* websocket.onclose *)

(** The pending timer with handle [id], if it is due. *)
Definition dueTimer (id : positive) (s : State) : option Timer :=
  match List.find (λ t, bool_decide (tid t = id)) (timers (env s)) with
  | Some t => if bool_decide (due t ≤ now (env s)) then Some t else None
  | None => None
  end.

(** The timer [id] runs once it is due; it is taken off the pending list
    first. An id that is not pending, or not yet due, does nothing. *)
Definition fire (id : positive) : Action :=
  val t := dueTimer id in
  match t with
  | Some t => clearTimeout id >> runCallback (callback t)
  | None => skip
  end.

Definition step (ev : Event) : Action :=
  match ev with
  | Receive m => handleWebSocketMessage m
  | Elapse dt => upd_env (λ e, set_now (now e + Z.of_N dt) e)
  | TimerFires id => fire id
  | Input value =>
      upd_document (set_stockCodeValue value) >> validateInput value
  | Focus => clearValidationError
  | ClickValidate => validateStockCode
  | Submit => startAnalysis
  | ClickCancel => cancelAnalysis
  | ClickRetry => retryAnalysis
  | SocketOpen =>
      upd_this (set_websocket OPEN)
      >> upd_this (set_connectionStatus connected)
      >> showToast [L "✓ 已連接到分析服務器"] success
  | SocketClosing =>
      val socket := the websocket in
      match socket with
      | NoSocket => skip
      | _ => upd_this (set_websocket CLOSING)
      end
  | SocketError =>
      upd_this (set_connectionStatus disconnected)
      >> showToast [L "⚠ 連接服務器失敗，將使用離線演示模式"] warning
      >> upd_this (set_websocket NoSocket)
  | SocketClose =>
      upd_this (set_connectionStatus disconnected)
      >> upd_this (set_websocket NoSocket)
  end.

Definition run (evs : list Event) (s : State) : State :=
  foldl (λ s ev, step ev s) s evs.

(** The state after the constructor and [init()]: the socket is being
    opened and the welcome toast is scheduled. The page is the static
    document: an empty form, no agent card, an empty progress bar. *)
Definition initial (rnd : list Z) : State :=
  MkState
    (MkCtl None None CONNECTING None connecting false false false false 0
       false false None)
    (MkDom [] ∅ InfoEmpty false false false false false 0 0 [] ∅ 0%N []
       PanelsUnset None)
    (MkEnv 0 [MkTimer 1 500 CbWelcome] 2 rnd []).

End App.

Import App.

(** ** Predicates the properties are stated with *)

(** [P] holds after [a] whenever it holds before. *)
Definition Preserves (P : State → Prop) (a : Action) : Prop :=
  ∀ s, P s → P (a s).

(** The width of the progress bar and the percentage shown next to it lie
    between 0 and 100. *)
Definition progressInRange (s : State) : Prop :=
  (0 <= progressBarWidth (document s) <= 100)%Q
  ∧ 0 ≤ progressPercent (document s) ≤ 100.

(** The degraded-mode notice of the report watchdog: the prompt to reload
    the page by hand. *)
Definition degradedNotice : Toast :=
  MkToast [L "⚠️ WebSocket 連接問題，請手動重新整理頁面查看結果"] warning.

(** How often the toast [t] has been shown. *)
Definition countToast (t : Toast) (s : State) : nat :=
  length (filter (λ x, x = t) (toasts (document s))).

(** The display barrier is armed: none of the completion flags is set. *)
Definition barrierArmed (s : State) : Prop :=
  analysisCompleted (this s) = false
  ∧ isBattleComplete (this s) = false
  ∧ awaitingBattleCompletion (this s) = false
  ∧ resultsDisplayed (this s) = false
  ∧ analysisHasResults (this s) = false
  ∧ pendingSuccessToast (this s) = false.

(** The status shown for [agent], if it has a card. *)
Definition statusOf (agent : list N) (s : State) : option AgentStatus :=
  cardStatus <$> agentCards (document s) !! agent.

(** The status of the card of [agent] after one [agent_progress] report
    [(who, status, message)], given the status [st] before it. *)
Definition reported (agent : list N) (st : AgentStatus)
  (m : list N * list N * list N) : AgentStatus :=
  if bool_decide (m.1.1 = agent ∧ agent ≠ str "all") then
    if bool_decide (m.1.2 = str "started") then started
    else if bool_decide (m.1.2 = str "completed") then completed
    else st
  else st.

(** The [agent_progress] events of a list of reports. *)
Definition progressEvents (ms : list (list N * list N * list N))
  : list Event :=
  (λ m, Receive (agent_progress m.1.1 m.1.2 m.2)) <$> ms.

(** The progress panel holds the six cards that [resetProgress] builds,
    each of them marked [agent-card]. *)
Definition sixCards (s : State) : Prop :=
  dom (agentCards (document s)) = list_to_set (agents.*1)
  ∧ map_Forall (λ _ card, "agent-card" ∈ classList card)
      (agentCards (document s)).

(** The Agent Progress Records that are in the completed state: the
    agents of a run whose card shows [completed]. *)
Definition isCompleted (agent : list N) (s : State) : bool :=
  match statusOf agent s with
  | Some completed => true
  | _ => false
  end.

Definition completedRecords (s : State) : list (list N) :=
  filter (λ agent, isCompleted agent s) agents.*1.

(** What a [completed] report does to a card that exists. *)
Definition markCompleted (agent : list N) : Action :=
  mutateCard agent
    (λ card,
       set_iconHtml IconCheck
         (set_statusText "✓ 完成"
            (classList_add "completed" (classList_remove "active" card))))
  >> updateProgressBar.


(** A run that has been started online for the code 2330, and the two
    completion messages of the example: research results without a
    [battle] entry, and a debate that ends 看空 by four votes to two. *)
Definition startedRun : State :=
  run [SocketOpen; Input (str "2330"); Submit] (initial []).

Definition exampleResults : option Results :=
  Some (MkResults (Some [(str "technical", str "ok")]) None 0 false).

Definition exampleBattle : BattleResult :=
  MkBattle BEARISH [(BEARISH, 4); (BULLISH, 2)].

Definition analysisFirst : list Event :=
  [Receive (analysis_complete exampleResults);
   Receive (battle_results BEARISH [(BEARISH, 4); (BULLISH, 2)])].

Definition battleFirst : list Event :=
  [Receive (battle_results BEARISH [(BEARISH, 4); (BULLISH, 2)]);
   Receive (analysis_complete exampleResults)].

(** The report watchdogs that are pending. *)
Definition watchdogs (s : State) : list Timer :=
  filter (λ t, callback t = CbReportWatchdog) (timers (env s)).

(** How often the degraded-mode notice has been shown. *)
Definition notices (s : State) : nat := countToast degradedNotice s.

(** The pending timers have distinct handles, all of them handed out
    already, and the controller holds the handle of every pending
    watchdog. *)
Definition timersTracked (s : State) : Prop :=
  NoDup (tid <$> timers (env s))
  ∧ (∀ t, t ∈ timers (env s) → (tid t < nextTimerId (env s))%positive)
  ∧ (∀ t, t ∈ watchdogs s → reportCompleteTimeout (this s) = Some (tid t)).

(** The pending watchdogs are [W] and the notice has been shown [c]
    times. *)
Definition watch (W : list Timer) (c : nat) (s : State) : Prop :=
  watchdogs s = W ∧ notices s = c.

(** An event that does not re-arm the watchdog. *)
Definition noRearm (ev : Event) : Prop :=
  match ev with
  | Receive (phase_completed phase _) => phase ≠ str "report"
  | _ => True
  end.

(** An event that neither re-arms the watchdog nor completes the
    analysis. *)
Definition quiet (ev : Event) : Prop :=
  match ev with
  | Receive (analysis_complete _) => False
  | _ => noRearm ev
  end.

(** After the watchdog [w] was armed with the notice shown [c] times:
    either [w] is still the one pending watchdog and the notice count has
    not moved, or no watchdog is pending, the notice has been shown once
    more, and [w] was due. *)
Definition armed (w : Timer) (c : nat) (s : State) : Prop :=
  timersTracked s
  ∧ (watch [w] c s ∨ (watch [] (S c) s ∧ due w ≤ now (env s))).

(** After the watchdog was cancelled: none is pending and the notice count
    stays where it was. *)
Definition cancelled (c : nat) (s : State) : Prop :=
  timersTracked s ∧ watch [] c s.

(** From a state with [P], the method [a] leads to a state with [Q]. *)
Definition Leads (P : State → Prop) (a : Action) (Q : State → Prop) : Prop :=
  ∀ s, P s → Q (a s).

(** The results are displayed only when both completion flags are set. *)
Definition displayGuarded (s : State) : Prop :=
  resultsDisplayed (this s) = true →
  analysisCompleted (this s) = true ∧ isBattleComplete (this s) = true.

(** The results have been displayed, and every pending display closure is
    one of [T]. *)
Definition displayedOnce (T : list Timer) (s : State) : Prop :=
  resultsDisplayed (this s) = true
  ∧ (∀ t, t ∈ timers (env s) → callback t = CbShowResultCard → t ∈ T).

(** An event that starts a run. *)
Definition startsRun (ev : Event) : Prop := ev = Submit ∨ ev = ClickRetry.

(** ** The price chart *)

Module Charts.

(** What [calculateMovingAverage] and the chart ask of the numbers of a
    price record: they are added up from 0, a sum is divided by the
    period, a quotient is rounded to two decimals, and a value is tested
    for truthiness. *)
Class Number (Num : Type) := {
  zero : Num;
  add : Num → Num → Num;
  divide : Num → Z → Num;      (* [sum / period] *)
  toFixed2 : Num → Num;        (* [parseFloat(x.toFixed(2))] *)
  truthy : Num → bool          (* neither 0 nor [NaN] *)
}.

(** [xs[k]] *)
Definition item {A} (xs : list A) (k : Z) : option A :=
  if bool_decide (0 ≤ k) then xs !! Z.to_nat k else None.

(** [xs.slice(start)] *)
Definition slice {A} (start : Z) (xs : list A) : list A :=
  let len := Z.of_nat (length xs) in
  let k := if bool_decide (start < 0) then Z.max (len + start) 0
           else Z.min start len in
  drop (Z.to_nat k) xs.

Section Chart.

Context {Num : Type} `{!Number Num}.

(** [`${date.getMonth() + 1}/${date.getDate()}`] for
    [date = new Date(dateStr)], as the browser computes it. *)
Variable monthDay : list N → list N.

(** One record of [daily_kline]; the numeric fields hold numbers, and a
    field may be missing. *)
Record Kline := MkKline {
  date : option (list N);
  Date : option (list N);
  close : option Num;
  Close : option Num;
  high : option Num;
  High : option Num;
  max : option Num;
  low : option Num;
  Low : option Num;
  min : option Num
}.

(** [x || rest] for a numeric field [x]; [parseFloat] gives a number
    back as it is. *)
Definition orNumber (x : option Num) (rest : Num) : Num :=
  match x with
  | Some v => if truthy v then v else rest
  | None => rest
  end.

(** [parseFloat(d.close || d.Close || 0)] *)
Definition closeValue (d : Kline) : Num :=
  orNumber (close d) (orNumber (Close d) zero).

(** [parseFloat(d.high || d.High || d.max || 0)] *)
Definition highValue (d : Kline) : Num :=
  orNumber (high d) (orNumber (High d) (orNumber (max d) zero)).

(** [parseFloat(d.low || d.Low || d.min || 0)] *)
Definition lowValue (d : Kline) : Num :=
  orNumber (low d) (orNumber (Low d) (orNumber (min d) zero)).

(** The inner loop of [calculateMovingAverage] from [j] on, with
    [iterations] rounds to go; [None] is the [TypeError] of reading
    [close] off a record that is not there. *)
Fixpoint sumLoop (data : list Kline) (i j : Z) (iterations : nat) (sum : Num)
  : option Num :=
  match iterations with
  | O => Some sum
  | S n =>
      match item data (i - j) with
      | Some d => sumLoop data i (j + 1) n (add sum (closeValue d))
      | None => None
      end
  end.

(** What the outer loop pushes for index [i]: [null], or the average. *)
Definition movingAverageAt (data : list Kline) (period i : Z)
  : option (option Num) :=
  if bool_decide (i < period - 1) then Some None
  else
    sum ← sumLoop data i 0 (Z.to_nat period) zero;
    Some (Some (toFixed2 (divide sum period))).

Definition calculateMovingAverage (data : list Kline) (period : Z)
  : option (list (option Num)) :=
  mapM (movingAverageAt data period) (seqZ 0 (Z.of_nat (length data))).

(** A dataset of the line chart: its label and its points, [null] where
    there is none; the colours and line styles are left out. *)
Record Dataset := MkDataset { label : string; data : list (option Num) }.

Record LineChart := MkLineChart {
  labels : list (list N);
  datasets : list Dataset
}.

(** The label of a record: [d.date || d.Date] through [monthDay], or the
    empty string. *)
Definition dateLabel (d : Kline) : list N :=
  match date d with
  | Some (c :: s) => monthDay (c :: s)
  | _ =>
      match Date d with
      | Some (c :: s) => monthDay (c :: s)
      | _ => []
      end
  end.

(** [charts.technical] as [extractChartDataFromReal] builds it from the
    price records it found, in the branch
    [klineData && klineData.length > 0]. *)
Definition technicalChart (klineData : list Kline) : option LineChart :=
  let displayDays := Z.min 30 (Z.of_nat (length klineData)) in
  let recentData := slice (- displayDays) klineData in
  ma5 ← calculateMovingAverage klineData 5;
  ma10 ← calculateMovingAverage klineData 10;
  ma20 ← calculateMovingAverage klineData 20;
  Some
    (MkLineChart (dateLabel <$> recentData)
       [ MkDataset "收盤價" ((λ d, Some (closeValue d)) <$> recentData);
         MkDataset "最高價" ((λ d, Some (highValue d)) <$> recentData);
         MkDataset "最低價" ((λ d, Some (lowValue d)) <$> recentData);
         MkDataset "5日均線 (MA5)" (slice (- displayDays) ma5);
         MkDataset "10日均線 (MA10)" (slice (- displayDays) ma10);
         MkDataset "20日均線 (MA20)" (slice (- displayDays) ma20) ]).

(** The sum that [calculateMovingAverage] forms at index [i]: the close
    values of the [period] records that end at [i], the latest first. *)
Definition windowSum (data : list Kline) (period : Z) (i : nat) : Num :=
  let p := Z.to_nat period in
  foldl (λ sum d, add sum (closeValue d)) zero
    (reverse (take p (drop (i + 1 - p) data))).

End Chart.

Arguments Kline Num : clear implicits.
Arguments Dataset Num : clear implicits.
Arguments LineChart Num : clear implicits.

End Charts.

(** ** The payload of the technical agent *)

Module Payload.

(** A value that [JSON.parse] gives; [JNull] stands for [undefined] as
    well. The properties of an object are listed once each, in the order
    in which [for (key in obj)] visits them. *)
#[warnings="-register-all"]
Inductive Json :=
| JNull
| JBool (b : bool)
| JNumber (x : Q)
| JString (s : list N)
| JArray (items : list Json)
| JObject (props : list (list N * Json)).

Definition truthy (v : Json) : bool :=
  match v with
  | JNull => false
  | JBool b => b
  | JNumber x => negb (Qeq_bool x 0)
  | JString s => negb (bool_decide (s = []))
  | JArray _ | JObject _ => true
  end.



(** A loop that returns the first result it gets, or [null]. *)
Fixpoint firstResult {A B} (body : A → option B) (xs : list A) : option B :=
  match xs with
  | [] => None
  | x :: rest =>
      match body x with
      | Some result => Some result
      | None => firstResult body rest
      end
  end.

(** [findKlineData(obj)], the local function of
    [extractChartDataFromReal]: the first array under a key [daily_kline],
    depth first; in an array, [for (key in obj)] visits the indices. *)
Fixpoint findKlineData (obj : Json) : option (list Json) :=
  match obj with
  | JObject props =>
      firstResult
        (λ p : list N * Json,
           match p.2 with
           | JArray items =>
               if bool_decide (p.1 = str "daily_kline") then Some items
               else findKlineData p.2
           | JObject _ => findKlineData p.2
           | _ => None
           end) props
  | JArray items =>
      firstResult
        (λ v : Json,
           match v with
           | JArray _ | JObject _ => findKlineData v
           | _ => None
           end) items
  | _ => None
  end.


(** [items] is an array that [v] holds under a key [daily_kline], at any
    depth. *)
Inductive holdsKline : Json → list Json → Prop :=
| holds_here props items :
    (str "daily_kline", JArray items) ∈ props →
    holdsKline (JObject props) items
| holds_in_property props key v items :
    (key, v) ∈ props → holdsKline v items →
    holdsKline (JObject props) items
| holds_in_item vs v items :
    v ∈ vs → holdsKline v items →
    holdsKline (JArray vs) items.

End Payload.

(** ** The debate panel *)

Module Render.

(** [final_decision.includes('看多') || final_decision === 'bullish'], and
    the same for 看空 and [bearish]. *)
Definition saysBullish (label : list N) : bool :=
  includes label BULLISH || bool_decide (label = str "bullish").

Definition saysBearish (label : list N) : bool :=
  includes label BEARISH || bool_decide (label = str "bearish").

Definition decisionClass (final_decision : list N) : string :=
  if saysBullish final_decision then "success"
  else if saysBearish final_decision then "danger"
  else "warning".

Definition decisionIcon (final_decision : list N) : string :=
  if saysBullish final_decision then "📈"
  else if saysBearish final_decision then "📉"
  else "➡️".

(** One card of the vote statistics. *)
Record VoteCard := MkVoteCard {
  option : list N;
  count : Z;
  percentage : Z;
  optionClass : string
}.

(** The body of [Object.entries(vote_count).map(...)]. *)
Definition voteCard (entry : list N * Z) : VoteCard :=
  let '(option, count) := entry in
  let percentage := mathRound (inject_Z count / 6 * 100) in
  let optionClass :=
    if saysBullish option then "success"
    else if saysBearish option then "danger"
    else "warning" in
  MkVoteCard option count percentage optionClass.

(** What [displayBattleResults] writes into the debate panel. *)
Record BattlePanel := MkBattlePanel {
  panelClass : string;
  panelIcon : string;
  panelDecision : list N;
  voteCards : list VoteCard
}.

Definition battleHTML (battleData : BattleResult) : BattlePanel :=
  let final_decision := final_decision battleData in
  let vote_count := vote_count battleData in
  MkBattlePanel (decisionClass final_decision) (decisionIcon final_decision)
    final_decision (voteCard <$> vote_count).

End Render.

(** ** The API settings *)

Module Settings.

Section Settings.

(** The numbers of the temperature slider, and [parseFloat] on the text
    of its value. *)
Context {Temperature : Type}.
Variable parseFloat : list N → Temperature.

(** [this.apiConfig] *)
Record ApiConfig := MkApiConfig {
  provider : list N;
  apiKey : list N;
  model : list N;
  temperature : Temperature
}.

(** The messages about the settings that the client sends. *)
Inductive Outbound :=
| configure_api (config : ApiConfig)
| test_api (provider api_key model : list N).

(** The fields of the settings dialog; [llmProvider] is the value of the
    radio button that is checked. *)
Record Form := MkForm {
  llmProvider : list N;
  deepseekApiKey : list N;
  deepseekModel : list N;
  geminiApiKey : list N;
  geminiModel : list N;
  temperatureValue : list N;
  saveLocal : bool
}.

(** The status card of the page. *)
Inductive StatusCard :=
| AsLoaded                       (* as the document has it *)
| Configured (provider model : list N) (temperature : Temperature)
| NotConfigured.

(** The content of the test button. *)
Inductive ButtonHtml :=
| ButtonAsLoaded                 (* as the document has it *)
| ButtonTesting                  (* spinner, 測試中... *)
| ButtonTestApi.                 (* flask, 測試 API *)

(** The closure of [testApiKey], which keeps the content the button had. *)
Record Timer := MkTimer { due : Z; originalText : ButtonHtml }.

Record State := MkState {
  apiConfig : ApiConfig;
  form : Form;
  statusCard : StatusCard;
  testBtnDisabled : bool;
  testBtnHtml : ButtonHtml;
  toasts : list Toast;
  localStorage : option ApiConfig;   (* the item holds [JSON.stringify] of it *)
  open : bool;                       (* the socket is there and [OPEN] *)
  sent : list Outbound;
  now : Z;
  timers : list Timer
}.

Definition showToast (message : list piece) (type : ToastType) (s : State)
  : State :=
  MkState (apiConfig s) (form s) (statusCard s) (testBtnDisabled s)
    (testBtnHtml s) (toasts s ++ [MkToast message type])
    (localStorage s) (open s) (sent s) (now s) (timers s).

Definition send (m : Outbound) (s : State) : State :=
  MkState (apiConfig s) (form s) (statusCard s) (testBtnDisabled s)
    (testBtnHtml s) (toasts s) (localStorage s) (open s)
    (sent s ++ [m]) (now s) (timers s).

Definition setTestBtn (disabled : bool) (html : ButtonHtml) (s : State)
  : State :=
  MkState (apiConfig s) (form s) (statusCard s) disabled html
    (toasts s) (localStorage s) (open s) (sent s) (now s) (timers s).

Definition updateApiConfigStatus (s : State) : State :=
  let c := apiConfig s in
  MkState c (form s)
    (if bool_decide (apiKey c = []) then NotConfigured
     else Configured (provider c) (model c) (temperature c))
    (testBtnDisabled s) (testBtnHtml s) (toasts s)
    (localStorage s) (open s) (sent s) (now s) (timers s).

Definition sendApiConfigToBackend (s : State) : State :=
  if negb (open s) then s else send (configure_api (apiConfig s)) s.

(** The key and the model that [saveApiConfig] reads for the provider
    that is checked; both stay [''] for any other provider. *)
Definition fieldsOf (f : Form) : list N * list N :=
  if bool_decide (llmProvider f = str "deepseek")
  then (deepseekApiKey f, deepseekModel f)
  else if bool_decide (llmProvider f = str "gemini")
  then (geminiApiKey f, geminiModel f)
  else ([], []).

(** Closing the dialog is left to the dialog library and is not part of
    the state. *)
Definition saveApiConfig (s : State) : State :=
  let f := form s in
  let provider := llmProvider f in
  let '(apiKey, model) := fieldsOf f in
  if bool_decide (apiKey = []) then
    showToast [L "❌ 請輸入 API KEY"] danger s
  else
    let config :=
      MkApiConfig provider apiKey model (parseFloat (temperatureValue f)) in
    let s1 :=
      MkState config f (statusCard s) (testBtnDisabled s) (testBtnHtml s)
        (toasts s)
        (if saveLocal f then Some config else None)
        (open s) (sent s) (now s) (timers s) in
    let s2 := updateApiConfigStatus (sendApiConfigToBackend s1) in
    showToast [L "✅ API 配置已保存"] success s2.

Definition testApiKey (s : State) : State :=
  let c := apiConfig s in
  if bool_decide (apiKey c = []) then
    showToast [L "❌ 請先輸入 API KEY"] warning s
  else
    let originalText := testBtnHtml s in
    let s1 := setTestBtn true ButtonTesting s in
    if open s1 then
      let s2 := send (test_api (provider c) (apiKey c) (model c)) s1 in
      MkState (apiConfig s2) (form s2) (statusCard s2) (testBtnDisabled s2)
        (testBtnHtml s2) (toasts s2) (localStorage s2)
        (open s2) (sent s2) (now s2)
        (timers s2 ++ [MkTimer (now s2 + 30000) originalText])
    else
      setTestBtn false originalText
        (showToast [L "❌ WebSocket 連接未就緒"] danger s1).

(** [handleApiConfigResult] and the toast of [handleApiTestResult] *)
Definition resultToast (ok : bool) (message : list N) (s : State) : State :=
  if ok then showToast [L "✅ "; D message] success s
  else showToast [L "❌ "; D message] danger s.

Definition handleApiTestResult (ok : bool) (message : list N) (s : State)
  : State :=
  resultToast ok message (setTestBtn false ButtonTestApi s).

(** The closure of [testApiKey], thirty seconds later. *)
Definition restoreTestBtn (t : Timer) (s : State) : State :=
  setTestBtn false (originalText t) s.

(** The events of the settings dialog. *)
Inductive Event :=
| Edit (f : Form)                      (* the user changes the fields *)
| ClickSave
| ClickTest
| ApiConfigResult (ok : bool) (message : list N)
| ApiTestResult (ok : bool) (message : list N)
| Elapse (dt : N)
| TimerFires (i : nat)                 (* the [i]-th pending closure runs *)
| SocketOpens
| SocketCloses.

Definition step (ev : Event) (s : State) : State :=
  match ev with
  | Edit f =>
      MkState (apiConfig s) f (statusCard s) (testBtnDisabled s)
        (testBtnHtml s) (toasts s) (localStorage s) (open s)
        (sent s) (now s) (timers s)
  | ClickSave => saveApiConfig s
  | ClickTest => testApiKey s
  | ApiConfigResult ok message => resultToast ok message s
  | ApiTestResult ok message => handleApiTestResult ok message s
  | Elapse dt =>
      MkState (apiConfig s) (form s) (statusCard s) (testBtnDisabled s)
        (testBtnHtml s) (toasts s) (localStorage s) (open s)
        (sent s) (now s + Z.of_N dt) (timers s)
  | TimerFires i =>
      match timers s !! i with
      | Some t =>
          if bool_decide (due t ≤ now s) then
            restoreTestBtn t
              (MkState (apiConfig s) (form s) (statusCard s)
                 (testBtnDisabled s) (testBtnHtml s)
                 (toasts s) (localStorage s) (open s) (sent s) (now s)
                 (delete i (timers s)))
          else s
      | None => s
      end
  | SocketOpens =>
      MkState (apiConfig s) (form s) (statusCard s) (testBtnDisabled s)
        (testBtnHtml s) (toasts s) (localStorage s) true
        (sent s) (now s) (timers s)
  | SocketCloses =>
      MkState (apiConfig s) (form s) (statusCard s) (testBtnDisabled s)
        (testBtnHtml s) (toasts s) (localStorage s) false
        (sent s) (now s) (timers s)
  end.

Definition run (evs : list Event) (s : State) : State :=
  foldl (λ s ev, step ev s) s evs.

(** What the status card shows for a configuration. *)
Definition cardOf (c : ApiConfig) : StatusCard :=
  if bool_decide (apiKey c = []) then NotConfigured
  else Configured (provider c) (model c) (temperature c).

(** No empty key has been tested or stored, and the status card, once
    written, shows the configuration in use. *)
Definition keysInOrder (s : State) : Prop :=
  (∀ p k m, test_api p k m ∈ sent s → k ≠ [])
  ∧ (∀ c, localStorage s = Some c → apiKey c ≠ [])
  ∧ (statusCard s = AsLoaded ∨ statusCard s = cardOf (apiConfig s)).

End Settings.

Arguments ApiConfig Temperature : clear implicits.
Arguments Outbound Temperature : clear implicits.
Arguments StatusCard Temperature : clear implicits.
Arguments State Temperature : clear implicits.

End Settings.

(** ** Predicates of the further properties *)







(** The page is idle: the progress panel is hidden and the analysis
    button can be used. *)
Definition idle (s : State) : Prop :=
  progressCardShown (document s) = false
  ∧ analyzeBtnDisabled (document s) = false.

(** The company line ([✓ name (code) - industry]) is not what the
    [stockInfo] element shows. *)
Definition noCompanyLine (s : State) : Prop :=
  ∀ nm cd ind, stockInfo (document s) ≠ InfoCompany nm cd ind.

(** Every [start_analysis] request on the socket comes after a
    [configure_api] message, and so will the requests that are scheduled. *)
Definition configuredFirst (s : State) : Prop :=
  (∀ i c, sent (env s) !! i = Some (start_analysis c) →
          ∃ j, (j < i)%nat ∧ sent (env s) !! j = Some configure_api)
  ∧ (∀ t c, t ∈ timers (env s) → callback t = CbSendStartAnalysis c →
            configure_api ∈ sent (env s)).

(** The progress panel and the result card are not shown together. *)
Definition onePanel (s : State) : Prop :=
  progressCardShown (document s) = false ∨ resultCardShown (document s) = false.


(** The seconds a run took, as the completion toast gives them: the time
    since [analysisStartTime] to the nearest second, a half counting
    up, and 0 when no start time is held; a start time of 0 counts as
    none. *)
Definition tookSeconds (s : State) (n : Z) : Prop :=
  match analysisStartTime (this s) with
  | Some t0 =>
      if decide (t0 = 0) then n = 0
      else 1000 * n - 500 ≤ now (env s) - t0 < 1000 * n + 500
  | None => n = 0
  end.

(** * Properties *)

(** ** Reasoning about methods *)

Lemma Preserves_skip P : Preserves P skip.
Proof. intros s Hs. exact Hs. Qed.

Lemma Preserves_seq P a b : Preserves P a → Preserves P b → Preserves P (a >> b).
Proof. intros Ha Hb s Hs. apply Hb, Ha, Hs. Qed.

Lemma Preserves_read {A} P (r : State → A) k :
  (∀ x, Preserves P (k x)) → Preserves P (read r k).
Proof. intros Hk s Hs. apply Hk, Hs. Qed.

Lemma Preserves_run P :
  (∀ ev, Preserves P (step ev)) → ∀ evs, Preserves P (run evs).
Proof.
  intros Hstep evs. induction evs as [|ev evs IH] using rev_ind; intros s Hs.
  - exact Hs.
  - unfold run. rewrite foldl_app. simpl. apply Hstep, IH, Hs.
Qed.

Ltac head_of a :=
  lazymatch a with
  | ?f _ => head_of f
  | _ => a
  end.

(** [Preserves P a] by the structure of [a]: [leaf] closes the goals of
    the field updates and of the methods it knows; any other method is
    unfolded. *)
Ltac pres leaf :=
  lazymatch goal with
  | |- Preserves _ (_ >> _) => apply Preserves_seq; pres leaf
  | |- Preserves _ (read _ _) => apply Preserves_read; intros ?; pres leaf
  | |- Preserves _ skip => apply Preserves_skip
  | |- Preserves _ (match ?x with _ => _ end) =>
      destruct x eqn:?; pres leaf
  | |- Preserves _ ?a =>
      first [ solve [leaf]
            | let h := head_of a in unfold h; cbv zeta; pres leaf
            | idtac ]
  end.

(** A field update that the property does not look at. *)
Ltac untouched :=
  idtac;
  lazymatch goal with
  | |- Preserves _ (upd_this _) => intros ? H; exact H
  | |- Preserves _ (upd_document _) => intros ? H; exact H
  | |- Preserves _ (upd_env _) => intros ? H; exact H
  end.

(** ** The stock-code format *)

Section FormatCheck.

Import Regex.

Lemma consume_all a n s :
  consume a n s = Some [] ↔ length s = n ∧ Forall (λ c, atom_matches a c = true) s.
Proof.
  revert s. induction n as [|n IH]; intros [|c s]; simpl.
  - split; [intros _; split; [done | constructor] | done].
  - split; [done | intros [? _]; done].
  - split; [done | intros [? _]; done].
  - destruct (atom_matches a c) eqn:Hc.
    + rewrite IH. split.
      * intros [<- ?]. split; [done | by constructor].
      * intros [[= <-] Hall]. by inversion Hall.
    + split; [done |]. intros [_ Hall]. inversion Hall; congruence.
Qed.

Lemma digit_matches c : atom_matches Digit c = true ↔ (48 ≤ c ≤ 57)%N.
Proof.
  simpl. rewrite andb_true_iff, !N.leb_le. done.
Qed.

Lemma exec_stockCodeRe s :
  is_Some (exec stockCodeRe true s)
  ↔ ∃ k, (4 ≤ k ≤ 6)%nat ∧ consume Digit k s = Some [].
Proof.
  change (exec stockCodeRe true s) with
    (first_some
       (λ k : nat, match consume Digit k s return option (list N) with
             | Some rest => match rest with [] => Some [] | _ => None end
             | None => None
             end) [6; 5; 4]%nat).
  cbn [first_some].
  destruct (consume Digit 6 s) as [[|? ?]|] eqn:E6;
    destruct (consume Digit 5 s) as [[|? ?]|] eqn:E5;
    destruct (consume Digit 4 s) as [[|? ?]|] eqn:E4;
    (split;
     [ intros [? ?]; try discriminate;
       first [ exists 6%nat; split; [lia | done]
             | exists 5%nat; split; [lia | done]
             | exists 4%nat; split; [lia | done] ]
     | intros (k & Hk & Hc);
       assert (k = 4 ∨ k = 5 ∨ k = 6)%nat as [-> | [-> | ->]] by lia;
       first [ by eexists | congruence ] ]).
Qed.

Lemma isValidFormat_spec c :
  isValidFormat c = true ↔ matches_4_to_6_digits c.
Proof.
  unfold isValidFormat, test, matches_4_to_6_digits.
  rewrite bool_decide_eq_true, exec_stockCodeRe. split.
  - intros (k & Hk & Hc). apply consume_all in Hc as [<- Hall]. split; [done |].
    eapply Forall_impl; [exact Hall |]. intros x. by rewrite digit_matches.
  - intros [Hlen Hall]. exists (length c). split; [done |].
    apply consume_all. split; [done |].
    eapply Forall_impl; [exact Hall |]. intros x. by rewrite digit_matches.
Qed.

End FormatCheck.

Lemma validateInput_stockInfo v s :
  stockInfo (document (validateInput v s)) =
    if bool_decide (trim v = []) then InfoEmpty
    else if isValidFormat (trim v) then InfoSuccess [L "✓ 代碼格式正確"]
    else InfoDanger [L "⚠ 台股代碼格式錯誤，應為4-6位數字"].
Proof.
  unfold validateInput. case_bool_decide; [done |].
  by destruct (isValidFormat (trim v)).
Qed.

(** C4. The format check accepts a string exactly when it consists of four
    to six decimal digits, that is, when it matches [^\d{4,6}$]: "2330" is
    accepted, "AB12", "12" and "1234567" are rejected. [validateInput]
    applies the same check to the trimmed value of the field: it shows the
    success mark exactly for the values whose trimmed form matches, and the
    format error exactly for the non-empty trimmed forms that do not. *)
Theorem C4_format_validator :
  (∀ c, isValidFormat c = true ↔ matches_4_to_6_digits c)
  ∧ isValidFormat (str "2330") = true
  ∧ isValidFormat (str "AB12") = false
  ∧ isValidFormat (str "12") = false
  ∧ isValidFormat (str "1234567") = false
  ∧ (∀ v s,
       stockInfo (document (validateInput v s)) = InfoSuccess [L "✓ 代碼格式正確"]
       ↔ matches_4_to_6_digits (trim v))
  ∧ (∀ v s,
       stockInfo (document (validateInput v s))
         = InfoDanger [L "⚠ 台股代碼格式錯誤，應為4-6位數字"]
       ↔ trim v ≠ [] ∧ ¬ matches_4_to_6_digits (trim v)).
Proof.
  split; [exact isValidFormat_spec |].
  do 4 (split; [reflexivity |]).
  split; intros v s; rewrite validateInput_stockInfo, <- isValidFormat_spec.
  - case_bool_decide as Ht.
    + rewrite Ht. split; [done | intros Hv; vm_compute in Hv; done].
    + destruct (isValidFormat (trim v)); split; done.
  - case_bool_decide as Ht.
    + split; [done | intros [? _]; done].
    + destruct (isValidFormat (trim v)).
      * split; [done | intros [_ Hn]; by destruct Hn].
      * split; [intros _; by split | done].
Qed.

(** ** Backend URL resolution *)

Lemma getBaseUrl_cases h :
  ((h = str "localhost" ∨ h = str "127.0.0.1")
   ∧ CONFIG.getBaseUrl h = CONFIG.LOCAL_ORIGIN)
  ∨ (h ≠ str "localhost" ∧ h ≠ str "127.0.0.1"
     ∧ CONFIG.getBaseUrl h = CONFIG.PRODUCTION_ORIGIN).
Proof.
  unfold CONFIG.getBaseUrl.
  do 2 case_bool_decide; simpl; [left | left | left | right]; tauto.
Qed.

Lemma wsUrlOf_http host :
  CONFIG.wsUrlOf (str "http://" ++ host) = str "ws://" ++ host.
Proof. by vm_compute. Qed.

Lemma wsUrlOf_https host :
  CONFIG.wsUrlOf (str "https://" ++ host) = str "wss://" ++ host.
Proof. by vm_compute. Qed.

(** C7, as the code has it. The base URL is the local development origin
    exactly on the two host names the code compares with, [localhost] and
    [127.0.0.1], and the production origin on every other host name. Both
    are loopback host names, so the local origin is used on a loopback
    host only; not every loopback host name gets it. The WebSocket URL is
    the base URL with [http] replaced by [ws] and [https] by [wss], the
    host kept as it is. *)
Theorem C7_base_url_resolution :
  (∀ h, h = str "localhost" ∨ h = str "127.0.0.1" →
        CONFIG.getBaseUrl h = str "http://localhost:8000"
        ∧ CONFIG.getWebSocketUrl h = str "ws://localhost:8000")
  ∧ (∀ h, h ≠ str "localhost" → h ≠ str "127.0.0.1" →
          CONFIG.getBaseUrl h
          = str "https://willis-stock-genie-api.onrender.com"
          ∧ CONFIG.getWebSocketUrl h
            = str "wss://willis-stock-genie-api.onrender.com")
  ∧ (∀ h, CONFIG.getBaseUrl h = str "http://localhost:8000" →
          loopbackHostname h = true)
  ∧ (∀ h, CONFIG.getWebSocketUrl h = CONFIG.wsUrlOf (CONFIG.getBaseUrl h))
  ∧ (∀ host, CONFIG.wsUrlOf (str "http://" ++ host) = str "ws://" ++ host)
  ∧ (∀ host, CONFIG.wsUrlOf (str "https://" ++ host) = str "wss://" ++ host).
Proof.
  split; [| split; [| split; [| split; [done | split]]]].
  - intros h Hh. unfold CONFIG.getWebSocketUrl.
    destruct (getBaseUrl_cases h) as [[_ ->] | (? & ? & _)]; [| tauto].
    split; [done |]. apply (wsUrlOf_http (str "localhost:8000")).
  - intros h H1 H2. unfold CONFIG.getWebSocketUrl.
    destruct (getBaseUrl_cases h) as [[? _] | (_ & _ & ->)]; [tauto |].
    split; [done |].
    apply (wsUrlOf_https (str "willis-stock-genie-api.onrender.com")).
  - intros h Hlocal.
    destruct (getBaseUrl_cases h) as [[[-> | ->] _] | (_ & _ & Hprod)];
      [by vm_compute | by vm_compute |].
    rewrite Hprod in Hlocal. by vm_compute in Hlocal.
  - apply wsUrlOf_http.
  - apply wsUrlOf_https.
Qed.

(** C7 as the specification states it fails: the IPv6 loopback address,
    an IPv4 loopback address other than 127.0.0.1 and [localhost] written
    with the dot of the root are loopback host names, and the page served
    from them talks to the production origin. *)
Lemma C7_loopback_host_gets_production :
  Forall (λ h, loopbackHostname h = true
               ∧ CONFIG.getBaseUrl h
                 = str "https://willis-stock-genie-api.onrender.com"
               ∧ CONFIG.getWebSocketUrl h
                 = str "wss://willis-stock-genie-api.onrender.com")
    [str "[::1]"; str "127.0.0.2"; str "localhost."].
Proof. repeat constructor; by vm_compute. Qed.

(** The host names of the Internet are not loopback host names. *)
Example loopbackHostname_examples :
  loopbackHostname <$> [str "localhost"; str "127.0.0.1"; str "app.localhost";
                        str "example.com"; str "127.0.0.1.example.com";
                        str "128.0.0.1"; str "127.0.0.256"; str "localhost.tw"]
  = [true; true; true; false; false; false; false; false].
Proof. by vm_compute. Qed.

(** ** The progress bar *)

Lemma clamp_range p : (0 <= clamp p <= 100)%Q.
Proof.
  unfold clamp. split; [apply Q.le_max_l |].
  apply Q.max_lub; [done | apply Q.le_min_r].
Qed.

Lemma mathRound_range x : (0 <= x <= 100)%Q → 0 ≤ mathRound x ≤ 100.
Proof.
  intros [H0 H100]. unfold mathRound. split.
  - change 0 with (Qfloor (0 + (1 # 2))).
    apply Qfloor_resp_le. by apply Qplus_le_l.
  - change 100 with (Qfloor (100 + (1 # 2))).
    apply Qfloor_resp_le. by apply Qplus_le_l.
Qed.

Lemma setProgress_range percent text s :
  progressInRange (setProgress percent text s).
Proof.
  unfold progressInRange, setProgress.
  destruct text; (split; [apply clamp_range | apply mathRound_range, clamp_range]).
Qed.

Lemma setProgress_progressInRange percent text :
  Preserves progressInRange (setProgress percent text).
Proof. intros s _. apply setProgress_range. Qed.

Lemma step_progressInRange ev : Preserves progressInRange (step ev).
Proof.
  destruct ev; unfold step;
    pres ltac:(idtac;
               lazymatch goal with
               | |- Preserves _ (setProgress _ _) =>
                   apply setProgress_progressInRange
               | |- _ => untouched
               end).
Qed.

(** C10. [setProgress] clamps its argument: whatever the percentage asked
    for, negative or above 100, the width of the bar and the rounded
    percentage shown are between 0 and 100 afterwards; and no event of the
    controller takes them out of that range. *)
Theorem C10_progress_clamped :
  (∀ percent text s, progressInRange (setProgress percent text s))
  ∧ (∀ percent text s,
       (progressBarWidth (document (setProgress percent text s))
        == if Qlt_le_dec percent 0 then 0
           else if Qlt_le_dec 100 percent then 100 else percent)%Q)
  ∧ (∀ evs s, progressInRange s → progressInRange (run evs s))
  ∧ (∀ evs rnd, progressInRange (run evs (initial rnd))).
Proof.
  split; [exact setProgress_range |].
  split; [| split].
  - intros percent text s.
    assert (progressBarWidth (document (setProgress percent text s))
            = clamp percent) as -> by (by destruct text).
    unfold clamp.
    destruct (Qlt_le_dec percent 0) as [Hn | Hp].
    + rewrite Q.max_l; [done |].
      apply Qle_trans with percent; [apply Q.le_min_l | by apply Qlt_le_weak].
    + destruct (Qlt_le_dec 100 percent) as [Hb | Hs].
      * rewrite Q.min_r by (by apply Qlt_le_weak). by rewrite Q.max_r.
      * rewrite Q.min_l by done. by rewrite Q.max_r.
  - intros evs. apply Preserves_run, step_progressInRange.
  - intros evs rnd. apply Preserves_run; [apply step_progressInRange |].
    by vm_compute.
Qed.

(** ** The start of a run *)

(** Case analysis on the fields of the controller. *)
Ltac controller_cases s :=
  destruct s as [[? ? ? ? ? ? ? ? ? ? ? ? ?] ? ?];
  cbn [this document env analysisCompleted isBattleComplete
       awaitingBattleCompletion resultsDisplayed analysisHasResults
       pendingSuccessToast reportCompleteTimeout] in *;
  subst;
  repeat match goal with
         | b : bool |- _ => destruct b
         | o : option positive |- _ => destruct o
         end.






(** ** The agent cards *)

Lemma updateProgressBar_cards s :
  agentCards (document (updateProgressBar s)) = agentCards (document s).
Proof.
  unfold updateProgressBar, read. cbv zeta. unfold seq.
  by case_bool_decide.
Qed.

Lemma cardStatus_started card :
  cardStatus
    (set_iconHtml IconSpinner
       (set_statusText "分析中..."
          (classList_remove "completed" (classList_add "active" card))))
  = started.
Proof.
  unfold cardStatus. cbn.
  rewrite bool_decide_eq_false_2.
  2: { intros Hin. apply elem_of_difference in Hin as [_ Hn].
       apply Hn. by apply elem_of_singleton. }
  rewrite bool_decide_eq_true_2; [done |].
  apply elem_of_difference. split; [set_solver |].
  rewrite elem_of_singleton. done.
Qed.

Lemma cardStatus_completed card :
  cardStatus
    (set_iconHtml IconCheck
       (set_statusText "✓ 完成"
          (classList_add "completed" (classList_remove "active" card))))
  = completed.
Proof.
  unfold cardStatus. cbn. rewrite bool_decide_eq_true_2; [done | set_solver].
Qed.

Lemma reported_same a st status message :
  a ≠ str "all" →
  reported a st (a, status, message)
  = if bool_decide (status = str "started") then started
    else if bool_decide (status = str "completed") then completed
    else st.
Proof.
  intros Ha. unfold reported. cbn [fst snd].
  by rewrite (bool_decide_eq_true_2 (a = a ∧ _)).
Qed.

Lemma reported_other a agent st status message :
  ¬ (agent = a ∧ a ≠ str "all") →
  reported a st (agent, status, message) = st.
Proof.
  intros Ha. unfold reported. cbn [fst snd].
  by rewrite (bool_decide_eq_false_2 (agent = a ∧ _)).
Qed.

Lemma cardStatus_completed_inv card :
  cardStatus card = completed → "completed" ∈ classList card.
Proof. unfold cardStatus. by repeat case_bool_decide. Qed.

Lemma statusOf_handleAgentProgress a agent status message s :
  statusOf a (handleAgentProgress agent status message s)
  = (λ st, reported a st (agent, status, message)) <$> statusOf a s.
Proof.
  unfold statusOf.
  destruct (decide (agent = a ∧ a ≠ str "all")) as [[-> Hall] | Hother].
  - (* the report is about the card of [a] *)
    unfold handleAgentProgress. rewrite bool_decide_eq_false_2 by done.
    unfold read, page.
    destruct (agentCards (document s) !! a) as [card|] eqn:Hc;
      [| unfold skip; by rewrite Hc].
    change ((λ st, reported a st (a, status, message)) <$>
            (cardStatus <$> Some card))
      with (Some (reported a (cardStatus card) (a, status, message))).
    rewrite reported_same by done.
    case_bool_decide; [| case_bool_decide].
    + cbn. rewrite lookup_alter_eq, Hc. cbn. by rewrite cardStatus_started.
    + unfold seq. rewrite updateProgressBar_cards. cbn.
      rewrite lookup_alter_eq, Hc. cbn. by rewrite cardStatus_completed.
    + unfold skip. by rewrite Hc.
  - (* the report is about another card, or about all of them *)
    assert (agentCards (document (handleAgentProgress agent status message s))
              !! a = agentCards (document s) !! a) as ->.
    { unfold handleAgentProgress. case_bool_decide as Hall; [done |].
      assert (agent ≠ a) by (intros ->; apply Hother; done).
      unfold read, page.
      destruct (agentCards (document s) !! agent); [| done].
      case_bool_decide; [| case_bool_decide]; [| | done].
      - cbn. by rewrite lookup_alter_ne.
      - unfold seq. rewrite updateProgressBar_cards. cbn.
        by rewrite lookup_alter_ne. }
    destruct (agentCards (document s) !! a); [| done].
    cbn. by rewrite reported_other.
Qed.

Lemma statusOf_progressEvents a ms s st :
  statusOf a s = Some st →
  statusOf a (run (progressEvents ms) s) = Some (foldl (reported a) st ms).
Proof.
  revert s st. induction ms as [|m ms IH]; intros s st Hs; [done |].
  cbn. apply IH. destruct m as [[agent status] message].
  cbn [step handleWebSocketMessage fst snd].
  rewrite statusOf_handleAgentProgress, Hs. done.
Qed.

Lemma reported_not_waiting a st m : st ≠ waiting → reported a st m ≠ waiting.
Proof. unfold reported. intros ?. repeat case_bool_decide; done. Qed.

(** C3, as the code has it. Under [agent_progress] events the status of a
    card is the one of the last [started] or [completed] report for its
    agent: a report never takes a card back to [waiting], a [completed]
    report always leaves it [completed], and a [started] report for a card
    that is [completed] takes it back to [started]. *)
Theorem C3_status_follows_last_report a ms s st :
  statusOf a s = Some st →
  statusOf a (run (progressEvents ms) s) = Some (foldl (reported a) st ms)
  ∧ (st ≠ waiting → foldl (reported a) st ms ≠ waiting)
  ∧ (a ≠ str "all" → ∀ message,
       reported a st (a, str "completed", message) = completed
       ∧ reported a st (a, str "started", message) = started).
Proof.
  intros Hs. split; [by apply statusOf_progressEvents |]. split.
  - clear Hs. revert st. induction ms as [|m ms IH]; intros st Hst; [done |].
    cbn. by apply IH, reported_not_waiting.
  - intros Ha message. by rewrite !reported_same.
Qed.

Lemma mutateCard_sixCards agent f :
  (∀ card, "agent-card" ∈ classList card → "agent-card" ∈ classList (f card)) →
  Preserves sixCards (mutateCard agent f).
Proof.
  intros Hf s [Hdom Hall]. split; cbn.
  - by rewrite dom_alter_L.
  - intros k card. rewrite lookup_alter.
    case_decide as Hk; [| by apply Hall].
    destruct (agentCards (document s) !! agent) as [card0|] eqn:Hc; [| done].
    intros [= <-]. eapply Hf, Hall. by subst k.
Qed.

Lemma resetProgress_cards s :
  agentCards (document (resetProgress s))
  = list_to_map ((λ a, (a.1, freshCard a.2)) <$> agents).
Proof. reflexivity. Qed.

Lemma resetProgress_sixCards s : sixCards (resetProgress s).
Proof.
  unfold sixCards. rewrite resetProgress_cards. split.
  - by rewrite dom_list_to_map_L.
  - intros k card Hk.
    apply elem_of_list_to_map_2, list_elem_of_fmap in Hk
      as ([a nm] & [= -> ->] & _).
    unfold freshCard. cbn [classList snd]. set_solver.
Qed.

Ltac sixCards_leaf :=
  idtac;
  lazymatch goal with
  | |- Preserves _ resetProgress => intros ? _; apply resetProgress_sixCards
  | |- Preserves _ (mutateCard _ _) =>
      apply mutateCard_sixCards; intros ? ?; cbn; set_solver
  | |- _ => untouched
  end.

Lemma step_sixCards ev : Preserves sixCards (step ev).
Proof. destruct ev; unfold step; pres sixCards_leaf. Qed.

Lemma countCards_le c s :
  (countCards c s ≤ size (agentCards (document s)))%nat.
Proof. apply map_subseteq_size, map_filter_subseteq. Qed.

Lemma sixCards_size s : sixCards s → size (agentCards (document s)) = 6%nat.
Proof.
  intros [Hdom _].
  rewrite <- (size_dom (D := gset (list N))), Hdom. by vm_compute.
Qed.

Lemma percentOf_range c : (c ≤ 6)%nat → (0 <= percentOf c 6 <= 100)%Q.
Proof.
  intros Hc.
  assert (c ∈ [0; 1; 2; 3; 4; 5; 6]%nat) as Hin.
  { do 7 (destruct c as [|c]; [set_solver |]). lia. }
  repeat (apply elem_of_cons in Hin as [-> | Hin]; [by vm_compute |]).
  by apply elem_of_nil in Hin.
Qed.

Lemma clamp_id x : (0 <= x <= 100)%Q → (clamp x == x)%Q.
Proof.
  intros [H0 H100]. unfold clamp.
  rewrite Q.min_l by done. by rewrite Q.max_r.
Qed.

Lemma updateProgressBar_progress s :
  progressBarWidth (document (updateProgressBar s))
    = clamp (percentOf (countCards "completed" s) 6)
  ∧ progressPercent (document (updateProgressBar s))
    = mathRound (clamp (percentOf (countCards "completed" s) 6)).
Proof.
  unfold updateProgressBar, read. cbv zeta. unfold seq.
  by case_bool_decide.
Qed.

Lemma countCards_updateProgressBar c s :
  countCards c (updateProgressBar s) = countCards c s.
Proof. unfold countCards. by rewrite updateProgressBar_cards. Qed.

Lemma completed_ne_started : str "completed" ≠ str "started".
Proof. intros H. vm_compute in H. discriminate. Qed.

Lemma all_not_an_agent agent : agent ∈ agents.*1 → agent ≠ str "all".
Proof.
  intros Hagent ->. revert Hagent. apply (bool_decide_unpack _). by vm_compute.
Qed.

Lemma handleAgentProgress_completed agent message card s :
  agent ≠ str "all" →
  agentCards (document s) !! agent = Some card →
  handleAgentProgress agent (str "completed") message s
  = markCompleted agent s.
Proof.
  intros Hall Hcard. unfold handleAgentProgress.
  rewrite bool_decide_eq_false_2 by done. unfold read, page. rewrite Hcard.
  rewrite (bool_decide_eq_false_2 _ completed_ne_started).
  by rewrite (bool_decide_eq_true_2 (str "completed" = str "completed")).
Qed.

Lemma markCompleted_progress agent card s :
  sixCards s →
  agentCards (document s) !! agent = Some card →
  let s' := markCompleted agent s in
  (1 ≤ countCards "completed" s' ≤ 6)%nat
  ∧ statusOf agent s' = Some completed
  ∧ (progressBarWidth (document s')
     == percentOf (countCards "completed" s') 6)%Q
  ∧ progressPercent (document s')
    = mathRound (percentOf (countCards "completed" s') 6).
Proof.
  intros Hsix Hcard s'. subst s'. unfold markCompleted, seq.
  set (s1 := mutateCard agent _ s).
  assert (sixCards s1) as [Hdom1 Hall1].
  { apply mutateCard_sixCards; [| done]. intros c Hc. cbn. set_solver. }
  assert (∃ card1, agentCards (document s1) !! agent = Some card1
                   ∧ cardStatus card1 = completed) as (card1 & Hcard1 & Hst1).
  { eexists. split; [| apply cardStatus_completed].
    unfold s1. cbn. by rewrite lookup_alter_eq, Hcard. }
  clearbody s1.
  rewrite countCards_updateProgressBar.
  destruct (updateProgressBar_progress s1) as [-> ->].
  assert (countCards "completed" s1 ≤ 6)%nat as Hle.
  { rewrite <- (sixCards_size s1) by done. apply countCards_le. }
  pose proof (percentOf_range _ Hle) as Hrange.
  split; [split; [| done] |].
  { unfold countCards.
    destruct (decide (size (filter (λ kv : list N * AgentCard,
                      "agent-card" ∈ classList kv.2
                      ∧ "completed" ∈ classList kv.2)
                   (agentCards (document s1))) = 0%nat)) as [Hz | Hnz]; [| lia].
    apply map_size_empty_inv in Hz.
    assert (filter (λ kv : list N * AgentCard,
                      "agent-card" ∈ classList kv.2
                      ∧ "completed" ∈ classList kv.2)
                   (agentCards (document s1)) !! agent = Some card1) as Hf.
    { apply map_lookup_filter_Some. split; [done |]. split.
      - by eapply Hall1.
      - by apply cardStatus_completed_inv. }
    rewrite Hz in Hf. done. }
  split.
  { unfold statusOf. rewrite updateProgressBar_cards, Hcard1.
    change (cardStatus <$> Some card1) with (Some (cardStatus card1)).
    by rewrite Hst1. }
  split; [by apply clamp_id |].
  unfold mathRound. apply Qfloor_comp. by rewrite clamp_id.
Qed.

Lemma size_filter_keys {A} (P : list N * A → Prop) `{!∀ x, Decision (P x)}
    (f : list N → bool) (l : list (list N)) (m : gmap (list N) A) :
  NoDup l → dom m = list_to_set l →
  (∀ a v, m !! a = Some v → (P (a, v) ↔ f a)) →
  size (filter P m) = length (filter (λ a, f a) l).
Proof.
  revert m. induction l as [|a l IH]; intros m Hnd Hdom HP.
  - apply dom_empty_inv_L in Hdom as ->. by rewrite map_filter_empty.
  - apply NoDup_cons in Hnd as [Ha Hnd].
    assert (is_Some (m !! a)) as [v Hv].
    { apply (elem_of_dom (D := gset (list N))). rewrite Hdom.
      apply elem_of_list_to_set. by left. }
    assert (size (filter P (delete a m)) = length (filter (λ a, f a) l))
      as Hrest.
    { apply IH; [done | |].
      - rewrite dom_delete_L, Hdom, list_to_set_cons.
        assert (a ∉ (list_to_set l : gset (list N)))
          by (by rewrite elem_of_list_to_set).
        apply set_eq. intros b.
        rewrite elem_of_difference, elem_of_union, elem_of_singleton.
        split; [intros [[-> | ?] ?]; done | intros ?; split; [by right |]].
        by intros ->.
      - intros b w [_ Hb]%lookup_delete_Some. by apply HP. }
    rewrite <- (insert_delete_id m a v Hv).
    destruct (f a) eqn:Hf.
    + rewrite map_filter_insert_True by (by apply (HP a v Hv); rewrite Hf).
      rewrite map_size_insert_None
        by (apply map_lookup_filter_None; left; apply lookup_delete_eq).
      rewrite filter_cons_True by (by rewrite Hf). cbn. by rewrite Hrest.
    + rewrite map_filter_insert_not'.
      * rewrite filter_cons_False by (rewrite Hf; exact id). done.
      * intros HPa. apply (HP a v Hv) in HPa. by rewrite Hf in HPa.
      * intros w. by rewrite lookup_delete_eq.
Qed.

(** The cards that [updateProgressBar] counts are the completed records. *)
Lemma countCards_completedRecords s :
  sixCards s → countCards "completed" s = length (completedRecords s).
Proof.
  intros [Hdom Hall]. unfold countCards, completedRecords.
  apply size_filter_keys; [| done |].
  - apply (bool_decide_unpack _). by vm_compute.
  - intros a card Hcard. unfold isCompleted, statusOf. rewrite Hcard.
    pose proof (Hall a card Hcard) as Hagent. cbn in Hagent |- *.
    unfold cardStatus. repeat case_bool_decide; cbn; tauto.
Qed.

Lemma percentOf_shown (n : nat) :
  (1 ≤ n ≤ 6)%nat →
  (percentOf n 6 == inject_Z (Z.of_nat n) / 6 * 100)%Q
  ∧ [0; 17; 33; 50; 67; 83; 100] !! n = Some (mathRound (percentOf n 6)).
Proof.
  intros Hn.
  assert (n ∈ [1; 2; 3; 4; 5; 6]%nat) as Hin.
  { destruct n as [|n]; [lia |].
    do 6 (destruct n as [|n]; [set_solver |]). lia. }
  repeat (apply elem_of_cons in Hin as [-> | Hin]; [by vm_compute |]).
  by apply elem_of_nil in Hin.
Qed.

Lemma handleAgentProgress_no_card agent status message s :
  sixCards s → agent ∉ agents.*1 →
  let s' := handleAgentProgress agent status message s in
  agentCards (document s') = agentCards (document s)
  ∧ progressBarWidth (document s') = progressBarWidth (document s)
  ∧ progressPercent (document s') = progressPercent (document s).
Proof.
  intros [Hdom _] Hagent. unfold handleAgentProgress.
  case_bool_decide; [done |]. unfold read, page.
  assert (agentCards (document s) !! agent = None) as ->; [| done].
  apply (not_elem_of_dom (D := gset (list N))). rewrite Hdom.
  by rewrite elem_of_list_to_set.
Qed.

(** C6, as the code has it. Once the six cards of a run exist, an
    [agent_progress] event with status [completed] for one of the six
    agents leaves that agent's record completed and the progress bar at
    [completedAgents / 6 * 100], where [completedAgents], between 1 and
    6, is the number of records that are completed at that point; the
    percentage shown is that value rounded: 17, 33, 50, 67, 83 or 100. An
    event with status [completed] for the agent [all], or for an agent
    that has no card, completes no record and leaves the bar where it
    is. *)
Theorem C6_progress_after_completed s0 evs agent message :
  let s := run evs (resetProgress s0) in
  let s' := step (Receive (agent_progress agent (str "completed") message)) s in
  let completedAgents := length (completedRecords s') in
  (agent ∈ agents.*1 →
   (1 ≤ completedAgents ≤ 6)%nat
   ∧ statusOf agent s' = Some completed
   ∧ (progressBarWidth (document s')
      == inject_Z (Z.of_nat completedAgents) / 6 * 100)%Q
   ∧ [0; 17; 33; 50; 67; 83; 100] !! completedAgents
     = Some (progressPercent (document s')))
  ∧ (agent ∉ agents.*1 →
     completedRecords s' = completedRecords s
     ∧ progressBarWidth (document s') = progressBarWidth (document s)
     ∧ progressPercent (document s') = progressPercent (document s)).
Proof.
  intros s.
  assert (sixCards s) as Hsix
    by (apply Preserves_run; [apply step_sixCards | apply resetProgress_sixCards]).
  clearbody s. intros s'.
  assert (sixCards s') as Hsix' by (by apply step_sixCards).
  cbv zeta. rewrite <- (countCards_completedRecords s' Hsix').
  subst s'. cbn [step handleWebSocketMessage]. split.
  - intros Hagent.
    assert (is_Some (agentCards (document s) !! agent)) as [card Hcard].
    { apply (elem_of_dom (D := gset (list N))). destruct Hsix as [-> _].
      by apply elem_of_list_to_set. }
    rewrite (handleAgentProgress_completed _ _ card)
      by (by try apply all_not_an_agent).
    destruct (markCompleted_progress agent card s Hsix Hcard)
      as (Hn & Hst & Hwidth & Hshown).
    destruct (percentOf_shown _ Hn) as [Hformula Htable].
    split; [done |]. split; [done |]. split.
    + by rewrite Hwidth.
    + by rewrite Hshown.
  - intros Hagent.
    destruct (handleAgentProgress_no_card agent (str "completed") message s
                Hsix Hagent) as (Hcards & Hwidth & Hshown).
    split; [| done].
    unfold completedRecords, isCompleted, statusOf. by rewrite Hcards.
Qed.

(** C6 at the first report of a run: the risk agent completes, and the
    bar shows 17 per cent. *)
Lemma C6_witness :
  str "risk" ∈ agents.*1
  ∧ let s' := step (Receive (agent_progress (str "risk") (str "completed") []))
                (run [] (resetProgress (initial []))) in
    (1 ≤ length (completedRecords s') ≤ 6)%nat
    ∧ statusOf (str "risk") s' = Some completed
    ∧ (progressBarWidth (document s')
       == inject_Z (Z.of_nat (length (completedRecords s'))) / 6 * 100)%Q
    ∧ [0; 17; 33; 50; 67; 83; 100] !! length (completedRecords s')
      = Some (progressPercent (document s')).
Proof.
  assert (str "risk" ∈ agents.*1) as Hin
    by (apply (bool_decide_unpack _); vm_compute; exact I).
  split; [exact Hin |].
  exact (proj1 (C6_progress_after_completed (initial []) [] (str "risk") [])
           Hin).
Defined.

(** C6 as the specification states it fails: in a run whose six agents
    have completed and whose debate has started, the bar is at 80; a
    [completed] report for the agent [all], or for an agent the page has
    no card for, leaves it there, with six records completed. *)
Lemma C6_completed_report_without_recount :
  let s :=
    run (progressEvents ((λ a, (a, str "completed", [])) <$> agents.*1)
         ++ [Receive battle_started]) startedRun in
  Forall (λ agent,
            let s' :=
              step (Receive (agent_progress agent (str "completed") [])) s in
            length (completedRecords s') = 6%nat
            ∧ progressBarWidth (document s') = 80%Q
            ∧ progressPercent (document s') = 80
            ∧ ¬ (progressBarWidth (document s') == inject_Z 6 / 6 * 100)%Q)
    [str "all"; str "summary"].
Proof. repeat constructor; by vm_compute. Qed.

(** The percentages of a run in which the agents complete one after the
    other: 0, 17, 33, 50, 67, 83 and 100 are shown. *)
Example progress_of_a_run :
  (λ k, progressPercent
          (document
             (run (progressEvents
                     ((λ a, (a, str "completed", [])) <$> take k (agents.*1)))
                (resetProgress (initial [])))))
    <$> [0; 1; 2; 3; 4; 5; 6]%nat
  = [0; 17; 33; 50; 67; 83; 100].
Proof. by vm_compute. Qed.

(** C3 on a card that starts and then completes. *)
Lemma C3_witness :
  statusOf (str "risk") (resetProgress (initial [])) = Some waiting
  ∧ statusOf (str "risk")
      (run (progressEvents [(str "risk", str "started", []);
                            (str "risk", str "completed", [])])
         (resetProgress (initial [])))
    = Some completed.
Proof.
  assert (statusOf (str "risk") (resetProgress (initial [])) = Some waiting)
    as Hs by (vm_compute; reflexivity).
  split; [exact Hs |].
  destruct (C3_status_follows_last_report (str "risk")
              [(str "risk", str "started", []);
               (str "risk", str "completed", [])]
              (resetProgress (initial [])) waiting Hs) as [Hrun _].
  rewrite Hrun. vm_compute. reflexivity.
Defined.

(** C3 as the specification states it fails: a card that is completed goes
    back to [started] when a [started] report for its agent follows. *)
Lemma C3_completed_card_restarts :
  statusOf (str "risk")
    (run (progressEvents [(str "risk", str "completed", [])])
       (resetProgress (initial [])))
  = Some completed
  ∧ statusOf (str "risk")
      (run (progressEvents [(str "risk", str "completed", []);
                            (str "risk", str "started", [])])
         (resetProgress (initial [])))
    = Some started.
Proof. by vm_compute. Qed.

(** ** The gate in front of the requests *)

Lemma dueTimer_Some id s t :
  dueTimer id s = Some t →
  t ∈ timers (env s) ∧ tid t = id ∧ due t ≤ now (env s).
Proof.
  unfold dueTimer.
  destruct (List.find _ _) as [t'|] eqn:Hfind; [| done].
  case_bool_decide as Hdue; [| done]. intros [= ->].
  apply find_some in Hfind as [Hin Hid].
  apply bool_decide_eq_true in Hid. by rewrite list_elem_of_In.
Qed.











Lemma validateStockCode_unfold s :
  trim (stockCodeValue (document s)) ≠ [] →
  let stockCode := trim (stockCodeValue (document s)) in
  validateStockCode s
  = (if isOpen s then
       send (validate_stock stockCode) >> setTimeout CbRestoreValidateBtn 5000
     else
       useMockValidation stockCode
       >> upd_document (set_validateBtnDisabled false))
      ((upd_this (set_currentStock (Some stockCode))
        >> showValidationSuccess [L "⏳ 正在驗證股票代碼..."]
        >> upd_document (set_validateBtnDisabled true)) s).
Proof.
  intros He stockCode. unfold validateStockCode, read, page.
  cbv beta zeta. by rewrite bool_decide_eq_false_2.
Qed.




(** ** Offline validation *)

Lemma mockValidation_stockInfo c s :
  stockInfo (document (mockValidation c s))
  = match getMockStockInfo c with
    | Undefined => InfoDanger [L "❌ 找不到該股票代碼"]
    | _ => InfoSuccess [L "✓ 股票驗證成功（離線模式）"]
    end.
Proof. unfold mockValidation. by destruct (getMockStockInfo c). Qed.

(** C8, evaluated. Without a connection the validation of "2330" is
    deferred by one second and ends in the success state, but the line
    with the company name 台積電 that the lookup writes is overwritten at
    once by the success message, so the name is not what the page shows;
    a code that is neither in the table nor a property name inherited by
    the table ends in the failure state, while "toString" ends in the
    success state. *)
Theorem C8_offline_validation_evaluated :
  getMockStockInfo (str "2330") = Own (MkRow (str "2330") "台積電" "半導體")
  ∧ timers (env (run [Input (str "2330"); ClickValidate] (initial [])))
    = [MkTimer 1 500 CbWelcome; MkTimer 2 1000 (CbMockValidation (str "2330"))]
  ∧ stockInfo
      (document
         (run [Input (str "2330"); ClickValidate; Elapse 1000; TimerFires 2]
            (initial [])))
    = InfoSuccess [L "✓ 股票驗證成功（離線模式）"]
  ∧ (∀ c s,
       stockInfo (document (mockValidation c s))
       = match getMockStockInfo c with
         | Undefined => InfoDanger [L "❌ 找不到該股票代碼"]
         | _ => InfoSuccess [L "✓ 股票驗證成功（離線模式）"]
         end)
  ∧ (∀ c, mockStocks !! c = None → c ∉ objectPrototypeKeys →
          getMockStockInfo c = Undefined)
  ∧ getMockStockInfo (str "9999") = Undefined
  ∧ getMockStockInfo (str "toString") = FromPrototype
  ∧ stockInfo
      (document
         (run [Input (str "toString"); ClickValidate; Elapse 1000;
               TimerFires 2] (initial [])))
    = InfoSuccess [L "✓ 股票驗證成功（離線模式）"].
Proof.
  split; [by vm_compute |]. split; [by vm_compute |].
  split; [by vm_compute |]. split; [exact mockValidation_stockInfo |].
  split.
  { intros c Hc Hp. unfold getMockStockInfo, getProperty. rewrite Hc.
    by rewrite bool_decide_eq_false_2. }
  by vm_compute.
Qed.

(** ** The display barrier *)

Lemma analysisResults_either_order s results fd vc :
  analysisResults
    (this (handleAnalysisComplete results (handleBattleResults fd vc s)))
  = results
  ∧ analysisResults
      (this (handleBattleResults fd vc (handleAnalysisComplete results s)))
    = withBattle (MkBattle fd vc) results.
Proof.
  unfold handleAnalysisComplete, cancelReportTimeout.
  destruct (nonEmpty results); controller_cases s; by split.
Qed.

(** C1, evaluated. In both arrival orders the second completion message
    triggers the display, once; but the results that are displayed depend
    on the order. [analysis_complete] replaces the stored results, so a
    debate outcome that [battle_results] stored before it is lost: with
    research results that carry no [battle] entry, the page shows the
    debate outcome when [analysis_complete] comes first and none when
    [battle_results] comes first. *)
Theorem C1_display_depends_on_arrival_order :
  (∀ s results fd vc,
     analysisResults
       (this (handleBattleResults fd vc (handleAnalysisComplete results s)))
     = withBattle (MkBattle fd vc) results
     ∧ analysisResults
         (this (handleAnalysisComplete results (handleBattleResults fd vc s)))
       = results)
  ∧ resultsDisplayed (this (run analysisFirst startedRun)) = true
  ∧ resultsDisplayed (this (run battleFirst startedRun)) = true
  ∧ callback <$> timers (env (run analysisFirst startedRun))
    = callback <$> timers (env (run battleFirst startedRun))
  ∧ battleResults
      (document
         (run (analysisFirst ++ [Elapse 1000; TimerFires 4]) startedRun))
    = Some exampleBattle
  ∧ battleResults
      (document (run (battleFirst ++ [Elapse 1000; TimerFires 4]) startedRun))
    = None
  ∧ resultCardShown
      (document (run (battleFirst ++ [Elapse 1000; TimerFires 4]) startedRun))
    = true.
Proof.
  split.
  { intros s results fd vc.
    destruct (analysisResults_either_order s results fd vc). by split. }
  by vm_compute.
Qed.

(** ** The report watchdog *)

Lemma watchdogs_setTimeout cb delay s :
  cb ≠ CbReportWatchdog →
  watchdogs (setTimeout cb delay s) = watchdogs s.
Proof.
  intros Hcb. unfold watchdogs, setTimeout. cbn.
  rewrite filter_app, filter_cons_False, filter_nil by done.
  by rewrite app_nil_r.
Qed.

Lemma watchdogs_clearTimeout id s :
  watchdogs (clearTimeout id s) = filter (λ t, tid t ≠ id) (watchdogs s).
Proof.
  unfold watchdogs, clearTimeout. cbn. rewrite !list_filter_filter.
  apply list_filter_iff. intros t. tauto.
Qed.

Lemma setTimeout_timersTracked cb delay :
  cb ≠ CbReportWatchdog → Preserves timersTracked (setTimeout cb delay).
Proof.
  intros Hcb s (Hnd & Hfresh & Hwd). split; [| split].
  - cbn. rewrite fmap_app. apply NoDup_app. split; [done |]. split.
    + intros x Hx Hx'. apply list_elem_of_fmap in Hx as (t & -> & Ht).
      cbn in Hx'. apply list_elem_of_singleton in Hx'.
      specialize (Hfresh t Ht). lia.
    + apply NoDup_singleton.
  - intros t Ht. cbn in Ht |- *. apply elem_of_app in Ht as [Ht | Ht].
    + specialize (Hfresh t Ht). lia.
    + apply list_elem_of_singleton in Ht as ->. cbn. lia.
  - intros t Ht. rewrite watchdogs_setTimeout in Ht by done. by apply Hwd.
Qed.

Lemma clearTimeout_timersTracked id : Preserves timersTracked (clearTimeout id).
Proof.
  intros s (Hnd & Hfresh & Hwd). split; [| split].
  - cbn. eapply sublist_NoDup; [exact Hnd |].
    apply fmap_sublist, sublist_filter.
  - intros t Ht. cbn in Ht |- *. apply list_elem_of_filter in Ht as [_ Ht].
    by apply Hfresh.
  - intros t Ht. rewrite watchdogs_clearTimeout in Ht.
    apply list_elem_of_filter in Ht as [_ Ht]. by apply Hwd.
Qed.

Lemma watchdogs_after_clear id s :
  timersTracked s →
  reportCompleteTimeout (this s) = Some id →
  watchdogs (clearTimeout id s) = [].
Proof.
  intros (_ & _ & Hwd) Hid. rewrite watchdogs_clearTimeout.
  induction (watchdogs s) as [|t l IH]; [done |].
  rewrite filter_cons_False.
  - apply IH. intros t' Ht'. apply Hwd. by right.
  - intros Hne. apply Hne.
    assert (reportCompleteTimeout (this s) = Some (tid t)) as Ht
      by (apply Hwd; by left).
    congruence.
Qed.

Lemma watchdogs_untracked s :
  timersTracked s → reportCompleteTimeout (this s) = None → watchdogs s = [].
Proof.
  intros (_ & _ & Hwd) Hnone. destruct (watchdogs s) as [|t l]; [done |].
  assert (reportCompleteTimeout (this s) = Some (tid t)) by (apply Hwd; by left).
  congruence.
Qed.

(** Arming: whatever was pending is cleared, and exactly one watchdog is
    pending afterwards, due thirty seconds from now. *)
Lemma armReportTimeout_spec s :
  timersTracked s →
  timersTracked (armReportTimeout s)
  ∧ watchdogs (armReportTimeout s)
    = [MkTimer (nextTimerId (env s)) (now (env s) + 30000) CbReportWatchdog]
  ∧ reportCompleteTimeout (this (armReportTimeout s))
    = Some (nextTimerId (env s))
  ∧ notices (armReportTimeout s) = notices s
  ∧ now (env (armReportTimeout s)) = now (env s).
Proof.
  intros Hs.
  assert (∃ s', timersTracked s' ∧ watchdogs s' = []
                ∧ nextTimerId (env s') = nextTimerId (env s)
                ∧ now (env s') = now (env s) ∧ notices s' = notices s
                ∧ armReportTimeout s
                  = upd_this
                      (set_reportCompleteTimeout (Some (nextTimerId (env s'))))
                      (setTimeout CbReportWatchdog 30000 s'))
    as (s' & Hs' & Hw' & Hnext & Hnow & Hn & ->).
  { unfold armReportTimeout, seq, read, the, world.
    destruct (reportCompleteTimeout (this s)) as [id|] eqn:Hid.
    - exists (clearTimeout id s). split; [by apply clearTimeout_timersTracked |].
      split; [by apply watchdogs_after_clear |]. done.
    - exists s. split; [done |]. split; [by apply watchdogs_untracked |]. done. }
  rewrite <- Hnext, <- Hnow, <- Hn. clear Hnext Hnow Hn Hs s.
  destruct Hs' as (Hnd & Hfresh & _).
  assert (watchdogs
            (upd_this (set_reportCompleteTimeout (Some (nextTimerId (env s'))))
               (setTimeout CbReportWatchdog 30000 s'))
          = [MkTimer (nextTimerId (env s')) (now (env s') + 30000)
               CbReportWatchdog]) as Hw.
  { unfold watchdogs in *. cbn. rewrite filter_app, Hw'.
    by rewrite filter_cons_True. }
  split; [| by repeat split]. split; [| split].
  - cbn. rewrite fmap_app. apply NoDup_app. split; [done |]. split.
    + intros x Hx Hx'. apply list_elem_of_fmap in Hx as (t & -> & Ht).
      cbn in Hx'. apply list_elem_of_singleton in Hx'.
      specialize (Hfresh t Ht). lia.
    + apply NoDup_singleton.
  - intros t Ht. cbn in Ht |- *. apply elem_of_app in Ht as [Ht | Ht].
    + specialize (Hfresh t Ht). lia.
    + apply list_elem_of_singleton in Ht as ->. cbn. lia.
  - intros t Ht. rewrite Hw in Ht. by apply list_elem_of_singleton in Ht as ->.
Qed.

(** Cancelling: no watchdog is pending afterwards. *)
Lemma cancelReportTimeout_spec s :
  timersTracked s →
  timersTracked (cancelReportTimeout s)
  ∧ watchdogs (cancelReportTimeout s) = []
  ∧ notices (cancelReportTimeout s) = notices s
  ∧ now (env (cancelReportTimeout s)) = now (env s).
Proof.
  intros Hs. unfold cancelReportTimeout, read, the.
  destruct (reportCompleteTimeout (this s)) as [id|] eqn:Hid.
  - unfold seq.
    pose proof (clearTimeout_timersTracked id s Hs) as (Hnd & Hfresh & _).
    pose proof (watchdogs_after_clear id s Hs Hid) as Hw.
    split; [| by repeat split]. split; [done |]. split; [done |].
    intros t Ht. change (t ∈ watchdogs (clearTimeout id s)) in Ht.
    rewrite Hw in Ht. by apply elem_of_nil in Ht.
  - split; [done |]. split; [by apply watchdogs_untracked | done].
Qed.

Ltac tracked_leaf :=
  idtac;
  lazymatch goal with
  | |- Preserves _ armReportTimeout =>
      intros ? ?; by apply armReportTimeout_spec
  | |- Preserves _ cancelReportTimeout =>
      intros ? ?; by apply cancelReportTimeout_spec
  | |- Preserves _ (setTimeout _ _) => by apply setTimeout_timersTracked
  | |- Preserves _ (clearTimeout _) => apply clearTimeout_timersTracked
  | |- _ => untouched
  end.

Lemma step_timersTracked ev : Preserves timersTracked (step ev).
Proof. destruct ev; unfold step; pres tracked_leaf. Qed.

Lemma initial_timersTracked rnd : timersTracked (initial rnd).
Proof.
  split; [| split].
  - cbn. apply NoDup_singleton.
  - intros t Ht. cbn in Ht. by apply list_elem_of_singleton in Ht as ->.
  - intros t Ht. cbn in Ht. by apply elem_of_nil in Ht.
Qed.

Lemma Preserves_run_Forall (Q : Event → Prop) P :
  (∀ ev, Q ev → Preserves P (step ev)) →
  ∀ evs, Forall Q evs → Preserves P (run evs).
Proof.
  intros Hstep evs. induction evs as [|ev evs IH] using rev_ind; intros HQ s Hs.
  - exact Hs.
  - apply Forall_app in HQ as [HQ Hev]. rewrite Forall_singleton in Hev.
    unfold run. rewrite foldl_app. simpl. apply Hstep; [exact Hev |].
    by apply IH.
Qed.

Lemma showToast_watch m ty W c :
  MkToast m ty ≠ degradedNotice → Preserves (watch W c) (showToast m ty).
Proof.
  intros Hne s [Hw Hn]. split; [exact Hw |].
  unfold notices, countToast in *. cbn.
  rewrite filter_app, filter_cons_False, filter_nil by done.
  by rewrite app_nil_r.
Qed.

Lemma setTimeout_watch cb delay W c :
  cb ≠ CbReportWatchdog → Preserves (watch W c) (setTimeout cb delay).
Proof.
  intros Hcb s [Hw Hn]. split; [| exact Hn].
  by rewrite watchdogs_setTimeout.
Qed.

Lemma clearTimeout_watch_nil id c : Preserves (watch [] c) (clearTimeout id).
Proof.
  intros s [Hw Hn]. split; [| exact Hn].
  by rewrite watchdogs_clearTimeout, Hw.
Qed.

Ltac watch_leaf :=
  idtac;
  lazymatch goal with
  | |- Preserves _ (setTimeout _ _) => by apply setTimeout_watch
  | |- Preserves _ (showToast _ _) => by apply showToast_watch
  | |- Preserves _ (clearTimeout _) => apply clearTimeout_watch_nil
  | |- _ => untouched
  end.

(** The callbacks other than the watchdog leave the watchdogs and the
    notice count alone. *)
Lemma runCallback_watch cb W c :
  cb ≠ CbReportWatchdog → Preserves (watch W c) (runCallback cb).
Proof. intros Hcb. destruct cb; [| | done | ..]; pres watch_leaf. Qed.

Lemma step_watch_quiet ev W c :
  quiet ev → (∀ id, ev ≠ TimerFires id) → Preserves (watch W c) (step ev).
Proof.
  intros Hq Hfire. destruct ev as [m| | id | | | | | | | | | |];
    [destruct m | | by destruct (Hfire id) | ..]; cbn in Hq; try done;
    unfold step, handleWebSocketMessage.
  4: { unfold handlePhaseCompleted. rewrite bool_decide_eq_false_2 by done.
       pres watch_leaf. }
  all: pres watch_leaf.
Qed.

Lemma fire_watch_nil id c : Preserves (watch [] c) (fire id).
Proof.
  intros s Hs. unfold fire, read.
  destruct (dueTimer id s) as [t|] eqn:Ht; [| done].
  apply dueTimer_Some in Ht as (Hin & _ & _).
  assert (callback t ≠ CbReportWatchdog) as Hcb.
  { intros Hcb. destruct Hs as [Hw _].
    assert (t ∈ watchdogs s) as Hmem by (by apply list_elem_of_filter).
    rewrite Hw in Hmem. by apply elem_of_nil in Hmem. }
  unfold seq. by apply runCallback_watch, clearTimeout_watch_nil.
Qed.

Lemma step_cancelled ev c : noRearm ev → Preserves (cancelled c) (step ev).
Proof.
  intros Hq s [Htr Hw]. split; [by apply step_timersTracked |].
  clear Htr. revert s Hw.
  change (Preserves (watch [] c) (step ev)).
  destruct ev as [m| | id | | | | | | | | | |];
    [destruct m | | apply fire_watch_nil | ..]; cbn in Hq;
    unfold step, handleWebSocketMessage.
  4: { unfold handlePhaseCompleted. rewrite bool_decide_eq_false_2 by done.
       pres watch_leaf. }
  all: pres watch_leaf.
Qed.

(** The clock does not go back. *)
Lemma step_now ev d : Preserves (λ s, d ≤ now (env s)) (step ev).
Proof.
  destruct ev as [| dt | | | | | | | | | | |]; unfold step.
  2: { intros s Hs. cbn. lia. }
  all: pres untouched.
Qed.

Lemma dueTimer_pending t s :
  NoDup (tid <$> timers (env s)) →
  t ∈ timers (env s) → due t ≤ now (env s) →
  dueTimer (tid t) s = Some t.
Proof.
  intros Hnd Hin Hdue. unfold dueTimer.
  destruct (List.find _ _) as [t'|] eqn:Hfind.
  - apply find_some in Hfind as [Hin' Hid].
    apply bool_decide_eq_true in Hid. rewrite <- list_elem_of_In in Hin'.
    assert (t' = t) as ->.
    { apply list_elem_of_lookup in Hin as [i Hi].
      apply list_elem_of_lookup in Hin' as [j Hj].
      assert (i = j) as ->; [| congruence].
      eapply NoDup_lookup; [exact Hnd | |]; rewrite list_lookup_fmap.
      - by rewrite Hi.
      - rewrite Hj. cbn. by rewrite Hid. }
    by rewrite bool_decide_eq_true_2.
  - exfalso. eapply find_none in Hfind; [| by apply list_elem_of_In].
    cbn in Hfind. by rewrite bool_decide_eq_true_2 in Hfind.
Qed.

Lemma reportWatchdog_watch c s :
  watch [] c s → watch [] (S c) (reportWatchdog s).
Proof.
  intros [Hw Hn]. unfold reportWatchdog, tryLoadLatestReport, seq. split.
  - rewrite watchdogs_setTimeout by done. exact Hw.
  - unfold notices, countToast in *. cbn.
    rewrite !filter_app, filter_cons_False, filter_cons_True, !filter_nil
      by done.
    rewrite app_nil_r, length_app, Hn. cbn. lia.
Qed.

(** When the pending watchdog runs, the notice is shown once and no
    watchdog is left. *)
Lemma fire_watchdog w c s :
  callback w = CbReportWatchdog →
  timersTracked s → watch [w] c s → due w ≤ now (env s) →
  watch [] (S c) (fire (tid w) s).
Proof.
  intros Hcb (Hnd & _ & _) [Hw Hn] Hdue.
  assert (w ∈ timers (env s)) as Hin.
  { assert (w ∈ watchdogs s) as Hmem by (rewrite Hw; by left).
    by apply list_elem_of_filter in Hmem as [_ ?]. }
  unfold fire, read. rewrite (dueTimer_pending w s) by done.
  rewrite Hcb. unfold seq. cbn [runCallback].
  apply reportWatchdog_watch. split; [| exact Hn].
  rewrite watchdogs_clearTimeout, Hw, filter_cons_False, filter_nil; [done |].
  by intros Hne.
Qed.

(** What the page shows when the watchdog runs: the attempt message, then
    the notice. *)
Lemma fire_watchdog_toasts w s :
  callback w = CbReportWatchdog →
  timersTracked s → w ∈ watchdogs s → due w ≤ now (env s) →
  toasts (document (fire (tid w) s))
  = toasts (document s)
    ++ [MkToast [L "⚠️ 正在嘗試獲取分析結果..."] warning; degradedNotice].
Proof.
  intros Hcb (Hnd & _ & _) Hmem Hdue.
  apply list_elem_of_filter in Hmem as [_ Hin].
  unfold fire, read. rewrite (dueTimer_pending w s) by done.
  rewrite Hcb. cbn. by rewrite <- app_assoc.
Qed.

(** Any other timer that runs leaves the pending watchdog in place. *)
Lemma fire_other w c id s :
  callback w = CbReportWatchdog →
  timersTracked s → watch [w] c s →
  watch [w] c (fire id s)
  ∨ (id = tid w ∧ due w ≤ now (env s) ∧ watch [] (S c) (fire id s)).
Proof.
  intros Hcb Htr Hwatch. pose proof Htr as (Hnd & _ & _).
  pose proof Hwatch as [Hw Hn].
  assert (w ∈ timers (env s)) as Hin.
  { assert (w ∈ watchdogs s) as Hmem by (rewrite Hw; by left).
    by apply list_elem_of_filter in Hmem as [_ ?]. }
  destruct (dueTimer id s) as [t|] eqn:Ht.
  - pose proof Ht as Ht'. apply dueTimer_Some in Ht' as (Hin' & Hid & Hdue).
    destruct (decide (callback t = CbReportWatchdog)) as [Hwd | Hother].
    + assert (t = w) as ->.
      { assert (t ∈ watchdogs s) as Hmem by (by apply list_elem_of_filter).
        rewrite Hw in Hmem. by apply list_elem_of_singleton in Hmem. }
      right. subst id. split; [done |]. split; [done |].
      by apply fire_watchdog.
    + left. unfold fire, read. rewrite Ht. unfold seq.
      apply runCallback_watch; [done |]. split; [| exact Hn].
      rewrite watchdogs_clearTimeout, Hw, filter_cons_True, filter_nil; [done |].
      cbn. intros Heq. apply Hother.
      assert (w = t) as ->; [| done].
      apply list_elem_of_lookup in Hin as [i Hi].
      apply list_elem_of_lookup in Hin' as [j Hj].
      assert (i = j) as ->; [| congruence].
      eapply NoDup_lookup; [exact Hnd | |]; rewrite list_lookup_fmap.
      * by rewrite Hi.
      * rewrite Hj. cbn. congruence.
  - left. unfold fire, read. by rewrite Ht.
Qed.

Lemma fire_now id s : now (env (fire id s)) = now (env s).
Proof.
  assert (Preserves (λ s', now (env s') = now (env s)) (fire id)) as Hfire
    by (unfold fire; pres untouched).
  by apply Hfire.
Qed.

Lemma step_armed w c ev :
  callback w = CbReportWatchdog → quiet ev → Preserves (armed w c) (step ev).
Proof.
  intros Hcb Hq s [Htr Hcases].
  split; [by apply step_timersTracked |].
  assert ((∃ id, ev = TimerFires id) ∨ (∀ id, ev ≠ TimerFires id))
    as [[id ->] | Hnf] by (destruct ev; [right | right | left; by eexists |
                           right ..]; done).
  - cbn [step]. destruct Hcases as [Hpending | [Hfired Hdue]].
    + destruct (fire_other w c id s Hcb Htr Hpending) as [? | (_ & ? & ?)];
        [by left | right].
      split; [done |]. by rewrite fire_now.
    + right. split; [by apply fire_watch_nil |]. by rewrite fire_now.
  -     destruct Hcases as [Hpending | [Hfired Hdue]].
    + left. by apply step_watch_quiet.
    + right. split; [by apply step_watch_quiet |]. by apply (step_now ev (due w)).
Qed.

Lemma Leads_seq P Q a b : Leads P a Q → Preserves Q b → Leads P (a >> b) Q.
Proof. intros Ha Hb s Hs. apply Hb, Ha, Hs. Qed.

Lemma handleAnalysisComplete_cancels w c results :
  Leads (λ s, timersTracked s ∧ watch [w] c s)
    (handleAnalysisComplete results) (watch [] c).
Proof.
  unfold handleAnalysisComplete.
  repeat (apply Leads_seq; [| pres watch_leaf]).
  intros s [Htr [_ Hn]].
  destruct (cancelReportTimeout_spec s Htr) as (_ & Hw & Hn' & _).
  split; [done | congruence].
Qed.

Lemma handlePhaseCompleted_report message s :
  handlePhaseCompleted (str "report") message s
  = armReportTimeout
      (showToast [interpolate phaseIcons (str "report"); L " "; D message]
         success s).
Proof.
  unfold handlePhaseCompleted. by rewrite bool_decide_eq_true_2.
Qed.

(** C5. Processing [phase_completed] with phase [report] leaves exactly
    one watchdog pending, due thirty seconds later, whatever was pending
    before. As long as no [analysis_complete] arrives and the watchdog is
    not re-armed, the degraded-mode notice is shown either not at all, the
    watchdog still pending, or exactly once, the watchdog gone and its
    thirty seconds over; it is not shown before the thirty seconds are
    over, and it is shown when the watchdog runs, after a message that the
    results are being fetched. If [analysis_complete]
    is processed while the watchdog is pending, the watchdog is cancelled
    and the notice is not shown afterwards. *)
Theorem C5_report_watchdog rnd evs0 message :
  let s := run evs0 (initial rnd) in
  let s1 := step (Receive (phase_completed (str "report") message)) s in
  let w := MkTimer (nextTimerId (env s)) (now (env s) + 30000)
             CbReportWatchdog in
  watchdogs s1 = [w]
  ∧ reportCompleteTimeout (this s1) = Some (tid w)
  ∧ notices s1 = notices s
  ∧ (∀ evs, Forall quiet evs →
       let s2 := run evs s1 in
       (watchdogs s2 = [w] ∧ notices s2 = notices s1)
       ∨ (watchdogs s2 = [] ∧ notices s2 = S (notices s1)
          ∧ now (env s) + 30000 ≤ now (env s2)))
  ∧ (∀ evs, Forall quiet evs →
       let s2 := run evs s1 in
       now (env s2) < now (env s) + 30000 → notices s2 = notices s1)
  ∧ (∀ evs, Forall quiet evs →
       let s2 := run evs s1 in
       watchdogs s2 = [w] → now (env s) + 30000 ≤ now (env s2) →
       let s3 := step (TimerFires (tid w)) s2 in
       watchdogs s3 = [] ∧ notices s3 = S (notices s1)
       ∧ toasts (document s3)
         = toasts (document s2)
           ++ [MkToast [L "⚠️ 正在嘗試獲取分析結果..."] warning;
               degradedNotice])
  ∧ (∀ evs results evs', Forall quiet evs → Forall noRearm evs' →
       let s2 := run evs s1 in
       watchdogs s2 = [w] →
       let s3 := run evs' (step (Receive (analysis_complete results)) s2) in
       watchdogs s3 = [] ∧ notices s3 = notices s1).
Proof.
  intros s.
  assert (timersTracked s) as Hs
    by (apply Preserves_run;
        [apply step_timersTracked | apply initial_timersTracked]).
  clearbody s. intros s1 w.
  assert (timersTracked s1 ∧ watchdogs s1 = [w]
          ∧ reportCompleteTimeout (this s1) = Some (tid w)
          ∧ notices s1 = notices s) as (Hs1 & Hw1 & Hid1 & Hn1).
  { unfold s1. cbn [step handleWebSocketMessage].
    rewrite handlePhaseCompleted_report.
    set (s' := showToast _ _ s).
    assert (timersTracked s') as Hs' by exact Hs.
    destruct (armReportTimeout_spec s' Hs') as (Htr1 & Hwd & Hrct & Hn & _).
    split; [exact Htr1 |]. split; [exact Hwd |]. split; [exact Hrct |].
    rewrite Hn. by apply (showToast_watch _ _ (watchdogs s) (notices s)). }
  clearbody s1.
  assert (∀ evs, Forall quiet evs → armed w (notices s1) (run evs s1)) as Harmed.
  { intros evs Hq.
    apply (Preserves_run_Forall quiet); [| done |].
    - intros ev Hev. by apply step_armed.
    - split; [done |]. by left. }
  split; [done |]. split; [done |]. split; [done |].
  split; [| split; [| split]].
  - intros evs Hq s2. destruct (Harmed evs Hq) as [_ [[? ?] | [[? ?] ?]]];
      [left | right]; done.
  - intros evs Hq s2 Hnow. destruct (Harmed evs Hq) as [_ [[? ?] | [_ Hdue]]];
      [done |]. unfold w in Hdue. cbn in Hdue. unfold s2 in Hnow. lia.
  - intros evs Hq s2 Hw2 Hnow s3.
    destruct (Harmed evs Hq) as [Htr [Hpending | [[Hnil _] _]]].
    + destruct (fire_watchdog w (notices s1) s2) as [? ?]; try done.
      split; [done |]. split; [done |].
      apply fire_watchdog_toasts; try done.
      unfold s2 in Hw2 |- *. rewrite Hw2. by left.
    + unfold s2 in Hw2. congruence.
  - intros evs results evs' Hq Hq' s2 Hw2 s3.
    destruct (Harmed evs Hq) as [Htr [Hpending | [[Hnil _] _]]];
      [| unfold s2 in Hw2; congruence].
    assert (cancelled (notices s1) s3) as [_ ?]; [| done].
    apply (Preserves_run_Forall noRearm); [| done |].
    + intros ev Hev. by apply step_cancelled.
    + split; [by apply step_timersTracked |].
      by apply (handleAnalysisComplete_cancels w).
Qed.

(** A run of the watchdog, evaluated: armed at time 0, it does nothing
    when asked to run after 29.999 s, shows the notice once when it runs
    after 30 s, and is gone after that; and it shows nothing when
    [analysis_complete] came first. *)
Example report_watchdog_run :
  let arm := [Receive (phase_completed (str "report") [])] in
  (λ evs, notices (run (arm ++ evs) (initial [])))
    <$> [ [];
          [Elapse 29999; TimerFires 2];
          [Elapse 30000; TimerFires 2];
          [Elapse 30000; TimerFires 2; Elapse 30000; TimerFires 2];
          [Receive (analysis_complete None); Elapse 30000; TimerFires 2] ]
  = [0; 0; 1; 1; 0]%nat.
Proof. by vm_compute. Qed.

(** ** The display barrier: what holds of it *)

Lemma handleBattleResults_displayGuarded fd vc :
  Preserves displayGuarded (handleBattleResults fd vc).
Proof. intros s Hs. unfold displayGuarded in *. controller_cases s; tauto. Qed.

Lemma handleAnalysisComplete_displayGuarded results :
  Preserves displayGuarded (handleAnalysisComplete results).
Proof.
  intros s Hs. unfold displayGuarded, handleAnalysisComplete,
    cancelReportTimeout in *.
  destruct (nonEmpty results); controller_cases s; tauto.
Qed.

Lemma simFinish_displayGuarded : Preserves displayGuarded simFinish.
Proof. intros s Hs. unfold displayGuarded in *. controller_cases s; tauto. Qed.

Lemma resetProgress_displayGuarded : Preserves displayGuarded resetProgress.
Proof. intros s _. unfold displayGuarded. cbn. done. Qed.

Ltac guarded_leaf :=
  idtac;
  lazymatch goal with
  | |- Preserves _ (handleBattleResults _ _) =>
      apply handleBattleResults_displayGuarded
  | |- Preserves _ (handleAnalysisComplete _) =>
      apply handleAnalysisComplete_displayGuarded
  | |- Preserves _ simFinish => apply simFinish_displayGuarded
  | |- Preserves _ resetProgress => apply resetProgress_displayGuarded
  | |- _ => untouched
  end.

Lemma step_displayGuarded ev : Preserves displayGuarded (step ev).
Proof. destruct ev; unfold step; pres guarded_leaf. Qed.

(** The display is triggered only after both completion flags are set: in
    every state the controller reaches, [resultsDisplayed] implies
    [analysisCompleted] and [isBattleComplete]. *)
Lemma display_only_after_both evs rnd :
  displayGuarded (run evs (initial rnd)).
Proof. apply Preserves_run; [apply step_displayGuarded | done]. Qed.

Lemma showAnalysisResults_displayed s :
  resultsDisplayed (this s) = true → showAnalysisResults s = s.
Proof. intros Hd. unfold showAnalysisResults, read, the. by rewrite Hd. Qed.

Lemma showAnalysisResults_displayedOnce T :
  Preserves (displayedOnce T) showAnalysisResults.
Proof.
  intros s Hs. rewrite showAnalysisResults_displayed; [done |]. by destruct Hs.
Qed.

Lemma setTimeout_displayedOnce cb delay T :
  cb ≠ CbShowResultCard → Preserves (displayedOnce T) (setTimeout cb delay).
Proof.
  intros Hcb s [Hd Ht]. split; [exact Hd |].
  intros t Hin Hc. cbn in Hin. apply elem_of_app in Hin as [Hin | Hin].
  - by apply Ht.
  - apply list_elem_of_singleton in Hin as ->. done.
Qed.

Lemma clearTimeout_displayedOnce id T :
  Preserves (displayedOnce T) (clearTimeout id).
Proof.
  intros s [Hd Ht]. split; [exact Hd |].
  intros t Hin Hc. cbn in Hin. apply list_elem_of_filter in Hin as [_ Hin].
  by apply Ht.
Qed.

Ltac once_leaf :=
  idtac;
  lazymatch goal with
  | |- Preserves _ showAnalysisResults => apply showAnalysisResults_displayedOnce
  | |- Preserves _ (setTimeout _ _) => by apply setTimeout_displayedOnce
  | |- Preserves _ (clearTimeout _) => apply clearTimeout_displayedOnce
  | |- _ => untouched
  end.

Lemma step_displayedOnce ev T :
  ¬ startsRun ev → Preserves (displayedOnce T) (step ev).
Proof.
  intros Hev. destruct ev; unfold step;
    try (exfalso; apply Hev; by (left + right)); pres once_leaf.
Qed.

(** The display is triggered at most once per run: once the results are
    displayed, no event other than the start of a new run clears the flag
    or schedules the display again, and [showAnalysisResults] itself does
    nothing. *)
Lemma display_at_most_once evs s :
  Forall (λ ev, ¬ startsRun ev) evs →
  resultsDisplayed (this s) = true →
  showAnalysisResults s = s
  ∧ resultsDisplayed (this (run evs s)) = true
  ∧ (∀ t, t ∈ timers (env (run evs s)) → callback t = CbShowResultCard →
          t ∈ timers (env s)).
Proof.
  intros Hevs Hd. split; [by apply showAnalysisResults_displayed |].
  apply (Preserves_run_Forall (λ ev, ¬ startsRun ev)
           (displayedOnce (timers (env s)))); [| done |].
  - intros ev Hev. by apply step_displayedOnce.
  - by split.
Qed.

(** * Further properties *)

(** ** The moving averages and the price chart *)

Section MovingAverage.

Import Charts.

Context {Num : Type} `{!Number Num}.

Lemma item_lookup {A} (xs : list A) (k : nat) :
  item xs (Z.of_nat k) = xs !! k.
Proof.
  unfold item. rewrite bool_decide_eq_true_2 by lia. by rewrite Nat2Z.id.
Qed.

(** The inner loop reads the records from [i - j] down to [i - j - n + 1]
    and adds their close values up in that order. *)
Lemma sumLoop_window (data : list (Kline Num)) (i j n : nat) sum :
  (j + n ≤ i + 1)%nat → (i - j < length data)%nat →
  sumLoop data (Z.of_nat i) (Z.of_nat j) n sum
  = Some (foldl (λ sum d, add sum (closeValue d)) sum
            (reverse (take n (drop (i + 1 - j - n) data)))).
Proof.
  revert j sum. induction n as [|n IH]; intros j sum Hj Hi.
  - by rewrite take_0.
  - cbn [sumLoop].
    replace (Z.of_nat i - Z.of_nat j) with (Z.of_nat (i - j)) by lia.
    rewrite item_lookup.
    destruct (lookup_lt_is_Some_2 data (i - j) Hi) as [d Hd].
    rewrite Hd.
    replace (Z.of_nat j + 1) with (Z.of_nat (S j)) by lia.
    rewrite IH by lia.
    replace (i + 1 - S j - n)%nat with (i + 1 - j - S n)%nat by lia.
    assert (drop (i + 1 - j - S n) data !! n = Some d) as Hn.
    { rewrite lookup_drop. rewrite <- Hd. f_equal. lia. }
    by rewrite (take_S_r _ _ _ Hn), reverse_snoc.
Qed.

Lemma movingAverageAt_window (data : list (Kline Num)) period (i : nat) :
  (i < length data)%nat →
  movingAverageAt data period (Z.of_nat i)
  = Some (if bool_decide (Z.of_nat i < period - 1) then None
          else Some (toFixed2 (divide (windowSum data period i) period))).
Proof.
  intros Hi. unfold movingAverageAt. case_bool_decide as Hp; [done |].
  rewrite (sumLoop_window data i 0 (Z.to_nat period) zero) by lia.
  cbn. unfold windowSum. by rewrite Nat.sub_0_r.
Qed.

(** The result of [calculateMovingAverage], entry by entry. *)
Lemma calculateMovingAverage_entries (data : list (Kline Num)) (period : Z) :
  ∃ result,
    calculateMovingAverage data period = Some result
    ∧ length result = length data
    ∧ ∀ i, (i < length data)%nat →
        result !! i
        = Some (if bool_decide (Z.of_nat i < period - 1) then None
                else Some (toFixed2
                             (divide (windowSum data period i) period))).
Proof.
  unfold calculateMovingAverage.
  destruct (mapM (movingAverageAt data period)
              (seqZ 0 (Z.of_nat (length data)))) as [result|] eqn:Hm.
  - exists result. split; [done |].
    apply mapM_Some in Hm.
    pose proof (Forall2_length _ _ _ Hm) as Hlen.
    rewrite length_seqZ, Nat2Z.id in Hlen.
    split; [done |]. intros i Hi.
    destruct (lookup_lt_is_Some_2 result i) as [r Hr]; [lia |].
    assert (seqZ 0 (Z.of_nat (length data)) !! i = Some (Z.of_nat i)) as Hs.
    { rewrite lookup_seqZ. split; [f_equal |]; lia. }
    pose proof (Forall2_lookup_lr _ _ _ _ _ _ Hm Hs Hr) as Hat.
    cbv beta in Hat. rewrite movingAverageAt_window in Hat by done.
    rewrite Hr. by injection Hat as <-.
  - exfalso. apply mapM_None, Exists_exists in Hm as [i [Hin Hnone]].
    apply elem_of_seqZ in Hin.
    rewrite <- (Z2Nat.id i), movingAverageAt_window in Hnone by lia. done.
Qed.

(** X1. [calculateMovingAverage] never reads outside [data], whatever the
    period, and returns one entry for each record. An entry is [null]
    exactly at the indices below [period - 1], where fewer than [period]
    records end; from there on the entry at [i] is the sum of the close
    values of the [period] records that end at [i], the latest first,
    divided by the period and rounded to two decimals. *)
Theorem moving_average_windows (data : list (Kline Num)) (period : Z) :
  ∃ result,
    calculateMovingAverage data period = Some result
    ∧ length result = length data
    ∧ (∀ i r, result !! i = Some r →
              r = None ↔ Z.of_nat i < period - 1)
    ∧ (∀ i, (i < length data)%nat → period - 1 ≤ Z.of_nat i →
            result !! i
            = Some (Some (toFixed2
                            (divide (windowSum data period i) period)))).
Proof.
  destruct (calculateMovingAverage_entries data period)
    as (result & Hr & Hlen & Hat).
  exists result. split; [done |]. split; [done |]. split.
  - intros i r Hi.
    assert (i < length data)%nat as Hlt
      by (rewrite <- Hlen; by eapply lookup_lt_Some).
    rewrite (Hat i Hlt) in Hi. injection Hi as <-.
    case_bool_decide; split; (done || lia).
  - intros i Hlt Hp. rewrite (Hat i Hlt).
    by rewrite bool_decide_eq_false_2 by lia.
Qed.

Lemma slice_recent {A} (xs : list A) (n : nat) :
  length xs = n →
  slice (- Z.min 30 (Z.of_nat n)) xs = drop (n - n `min` 30) xs.
Proof.
  intros Hn. unfold slice. rewrite Hn. destruct n as [|n].
  - destruct xs; [done | discriminate].
  - rewrite bool_decide_eq_true_2 by lia. f_equal. lia.
Qed.

(** X2. The series of the price chart are aligned: the labels and each of
    the six datasets have one point for each of the last 30 records (for
    every record when there are fewer). The moving averages are computed
    over all the records before they are cut to the days shown, so the
    series of the [p]-day average has a gap at the [j]-th day shown
    exactly when fewer than [p] records end there. *)
Theorem technical_chart_aligned monthDay (klineData : list (Kline Num)) :
  let n := length klineData in
  let shown := (n `min` 30)%nat in
  ∃ chart,
    technicalChart monthDay klineData = Some chart
    ∧ length (labels chart) = shown
    ∧ length (datasets chart) = 6%nat
    ∧ Forall (λ ds, length (data ds) = shown) (datasets chart)
    ∧ ∀ (k : nat) (p : Z), [5; 10; 20] !! k = Some p →
        ∃ ds, datasets chart !! (3 + k)%nat = Some ds
          ∧ ∀ j, (j < shown)%nat →
              data ds !! j = Some None
              ↔ Z.of_nat (n - shown + j) < p - 1.
Proof.
  intros n shown. unfold technicalChart.
  destruct (calculateMovingAverage_entries klineData 5) as (ma5 & -> & H5 & W5).
  destruct (calculateMovingAverage_entries klineData 10) as (ma10 & -> & H10 & W10).
  destruct (calculateMovingAverage_entries klineData 20) as (ma20 & -> & H20 & W20).
  cbn [mbind option_bind]. eexists. split; [reflexivity |].
  cbn [labels datasets]. fold n in H5, H10, H20 |- *.
  rewrite (slice_recent klineData n), (slice_recent ma5 n),
    (slice_recent ma10 n), (slice_recent ma20 n) by done.
  fold shown.
  assert (∀ {A} (xs : list A), length xs = n →
            length (drop (n - shown) xs) = shown) as Hlen.
  { intros A xs Hxs. rewrite length_drop, Hxs. subst shown. lia. }
  split; [by rewrite length_fmap, Hlen |].
  split; [done |].
  split.
  { repeat constructor; cbn [data]; rewrite ?length_fmap; by apply Hlen. }
  assert (∀ ma (p : Z),
            (∀ i, (i < n)%nat →
                  ma !! i
                  = Some (if bool_decide (Z.of_nat i < p - 1) then None
                          else Some (toFixed2
                                       (divide (windowSum klineData p i) p)))) →
            ∀ j, (j < shown)%nat →
              drop (n - shown) ma !! j = Some None
              ↔ Z.of_nat (n - shown + j) < p - 1) as Hgap.
  { intros ma p W j Hj. rewrite lookup_drop, W by (subst shown; lia).
    case_bool_decide; split; (done || lia || intros [=]). }
  intros k p Hk.
  destruct k as [|[|[|k]]]; try done; injection Hk as <-;
    (eexists; split; [reflexivity |]); cbn [data]; by apply Hgap.
Qed.

End MovingAverage.

(** ** The search for the price records *)

Section JsonInduction.

Import Payload.

Variable P : Json → Prop.
Hypothesis Hnull : P JNull.
Hypothesis Hbool : ∀ b, P (JBool b).
Hypothesis Hnumber : ∀ x, P (JNumber x).
Hypothesis Hstring : ∀ s, P (JString s).
Hypothesis Harray : ∀ items, Forall P items → P (JArray items).
Hypothesis Hobject : ∀ props, Forall (λ p, P p.2) props → P (JObject props).

Fixpoint Json_nested_ind (v : Json) : P v :=
  match v with
  | JNull => Hnull
  | JBool b => Hbool b
  | JNumber x => Hnumber x
  | JString s => Hstring s
  | JArray items =>
      Harray items
        ((fix all (vs : list Json) : Forall P vs :=
            match vs with
            | [] => @List.Forall_nil _ P
            | v :: rest =>
                @List.Forall_cons _ P v rest (Json_nested_ind v) (all rest)
            end) items)
  | JObject props =>
      Hobject props
        ((fix all (ps : list (list N * Json)) : Forall (λ p, P p.2) ps :=
            match ps with
            | [] => @List.Forall_nil _ (λ p, P p.2)
            | p :: rest =>
                @List.Forall_cons _ (λ p, P p.2) p rest
                  (Json_nested_ind p.2) (all rest)
            end) props)
  end.

End JsonInduction.

Section Search.

Import Payload.

Lemma firstResult_Some {A B} (body : A → option B) xs result :
  firstResult body xs = Some result →
  ∃ x, x ∈ xs ∧ body x = Some result.
Proof.
  induction xs as [|x xs IH]; [done |]. cbn.
  destruct (body x) as [r|] eqn:Hx.
  - intros [= ->]. exists x. split; [by left | done].
  - intros (y & Hy & Hr)%IH. exists y. split; [by right | done].
Qed.

Lemma firstResult_is_Some {A B} (body : A → option B) xs x :
  x ∈ xs → is_Some (body x) → is_Some (firstResult body xs).
Proof.
  intros Hin Hx. induction Hin as [x xs | x y xs _ IH]; cbn.
  - destruct Hx as [r ->]. by eexists.
  - destruct (body y); [by eexists | by apply IH].
Qed.

Lemma findKlineData_sound v items :
  findKlineData v = Some items → holdsKline v items.
Proof.
  revert items. induction v as [| | | | vs IH | props IH] using Json_nested_ind;
    intros items; try done; cbn [findKlineData].
  - intros (v & Hin & Hv)%firstResult_Some.
    rewrite Forall_forall in IH.
    apply (holds_in_item vs v); [done |]. apply IH; [done |].
    by destruct v.
  - intros ([key v] & Hin & Hv)%firstResult_Some.
    rewrite Forall_forall in IH. cbn [fst snd] in Hv.
    destruct v as [| | | | items' | props']; try done.
    + case_bool_decide as Hkey.
      * injection Hv as <-. apply holds_here. by rewrite <- Hkey.
      * apply (holds_in_property props key (JArray items')); [done |].
        by apply (IH (key, JArray items')).
    + apply (holds_in_property props key (JObject props')); [done |].
      by apply (IH (key, JObject props')).
Qed.

Lemma findKlineData_complete v items :
  holdsKline v items → is_Some (findKlineData v).
Proof.
  induction 1 as [props items Hin | props key v items Hin Hv IH
                  | vs v items Hin Hv IH]; cbn [findKlineData].
  - eapply firstResult_is_Some; [exact Hin |]. cbn [fst snd].
    by rewrite bool_decide_eq_true_2.
  - eapply firstResult_is_Some; [exact Hin |]. cbn [fst snd].
    destruct v; try (by inversion Hv); try done.
    all: case_bool_decide; [by eexists | done].
  - eapply firstResult_is_Some; [exact Hin |].
    destruct v; try (by inversion Hv); done.
Qed.

(** X4. [findKlineData] finds the price records whenever there are any:
    it returns an array exactly when the value holds an array under a key
    [daily_kline] at some depth, inside objects or arrays, and what it
    returns is such an array; a [daily_kline] that is not an array is
    passed over. *)
Theorem findKlineData_finds v :
  (∀ items, findKlineData v = Some items → holdsKline v items)
  ∧ (is_Some (findKlineData v) ↔ ∃ items, holdsKline v items).
Proof.
  split; [intros items; apply findKlineData_sound |]. split.
  - intros [items Hf]. exists items. by apply findKlineData_sound.
  - intros [items Hh]. by eapply findKlineData_complete.
Qed.


End Search.

(** ** The debate outcome, in the toast and in the panel *)

Lemma voteCard_percentage option count :
  Render.percentage (Render.voteCard (option, count))
  = (100 * count + 3) `div` 6.
Proof.
  cbn [Render.voteCard Render.percentage]. unfold mathRound, Qfloor. cbn.
  change (Z.pos (1 * 6 * 1 * 2)) with (2 * 6).
  change (Z.pos (1 * 6 * 1)) with 6.
  replace (count * 1 * 100 * 2 + 1 * 6) with (2 * (100 * count + 3)) by lia.
  by rewrite Z.div_mul_cancel_l.
Qed.

(** The sum of the percentages of the vote cards, and of their counts. *)
Lemma percentages_sum (vote_count : list (list N * Z)) :
  let cards := Render.voteCard <$> vote_count in
  let n := Z.of_nat (length vote_count) in
  100 * foldr Z.add 0 (Render.count <$> cards) - 2 * n
  ≤ 6 * foldr Z.add 0 (Render.percentage <$> cards)
  ≤ 100 * foldr Z.add 0 (Render.count <$> cards) + 3 * n.
Proof.
  induction vote_count as [|[option count] votes IH].
  - cbn. lia.
  - cbn [fmap list_fmap foldr length] in *.
    rewrite voteCard_percentage. cbn [Render.voteCard Render.count].
    rewrite Nat2Z.inj_succ.
    pose proof (Z.div_mod (100 * count + 3) 6 ltac:(done)).
    pose proof (Z.mod_pos_bound (100 * count + 3) 6 ltac:(done)).
    lia.
Qed.

(** X6. A vote card shows [Math.round(count / 6 * 100)] per cent, which
    is the bar's width as well: it lies between 0 and 100 exactly for a
    count between 0 and 6, and nothing clamps it. The percentages of the
    cards are rounded one by one: for [n] options whose counts add up to
    6 their sum lies between [100 - n/3] and [100 + n/2], and for three
    options both 99 and 101 occur. *)
Theorem vote_percentages :
  (∀ option count,
     0 ≤ Render.percentage (Render.voteCard (option, count)) ≤ 100
     ↔ 0 ≤ count ≤ 6)
  ∧ (∀ vote_count,
       foldr Z.add 0 vote_count.*2 = 6 →
       let total :=
         foldr Z.add 0 (Render.percentage <$> (Render.voteCard <$> vote_count)) in
       let n := Z.of_nat (length vote_count) in
       600 - 2 * n ≤ 6 * total ≤ 600 + 3 * n)
  ∧ Render.percentage <$>
      (Render.voteCard <$> [(BULLISH, 2); (BEARISH, 2); ([20013; 24615]%N, 2)])
    = [33; 33; 33]
  ∧ Render.percentage <$>
      (Render.voteCard <$> [(BULLISH, 4); (BEARISH, 1); ([20013; 24615]%N, 1)])
    = [67; 17; 17].
Proof.
  split; [| split; [| split; by vm_compute]].
  - intros option count. rewrite voteCard_percentage.
    pose proof (Z.div_mod (100 * count + 3) 6 ltac:(done)).
    pose proof (Z.mod_pos_bound (100 * count + 3) 6 ltac:(done)).
    lia.
  - intros vote_count Hsix total n.
    pose proof (percentages_sum vote_count) as Hsum. cbv zeta in Hsum.
    replace (Render.count <$> (Render.voteCard <$> vote_count))
      with (vote_count.*2) in Hsum.
    + rewrite Hsix in Hsum. subst total n. lia.
    + rewrite <- list_fmap_compose. apply list_fmap_ext.
      by intros ? [??].
Qed.

Lemma handleBattleResults_toasts fd vc s :
  ∃ rest,
    toasts (document (handleBattleResults fd vc s))
    = toasts (document s)
      ++ MkToast [L (if includes fd BULLISH then "📈"
                     else if includes fd BEARISH then "📉"
                     else "➡️");
                  L " AI 辯論完成："; D fd] success :: rest.
Proof.
  unfold handleBattleResults.
  controller_cases s; cbn; rewrite <- ?app_assoc; eexists; reflexivity.
Qed.

(** X7. The toast of [handleBattleResults] and the panel of
    [displayBattleResults] pick the icon of the same decision by different
    tests: the toast looks for 看多 and 看空 only, the panel takes the
    labels [bullish] and [bearish] as well. For every other decision they
    show the same icon; for these two the toast shows the neutral arrow
    while the panel shows the rising or the falling chart. *)
Theorem debate_icon_toast_and_panel fd vc s :
  ∃ icon rest,
    toasts (document (handleBattleResults fd vc s))
    = toasts (document s)
      ++ MkToast [L icon; L " AI 辯論完成："; D fd] success :: rest
    ∧ (icon = Render.panelIcon (Render.battleHTML (MkBattle fd vc))
       ↔ fd ≠ str "bullish" ∧ fd ≠ str "bearish")
    ∧ (fd = str "bullish" ∨ fd = str "bearish" → icon = "➡️").
Proof.
  destruct (handleBattleResults_toasts fd vc s) as [rest Hrest].
  eexists _, rest. split; [exact Hrest |].
  cbn [Render.battleHTML Render.panelIcon final_decision].
  unfold Render.decisionIcon, Render.saysBullish, Render.saysBearish.
  split.
  - destruct (decide (fd = str "bullish")) as [-> | Hb];
      [split; [by vm_compute | intros [? _]; done] |].
    destruct (decide (fd = str "bearish")) as [-> | Hs];
      [split; [by vm_compute | intros [_ ?]; done] |].
    rewrite !bool_decide_eq_false_2, !orb_false_r by done. done.
  - by intros [-> | ->].
Qed.


(** ** The API settings *)

Section SettingsProperties.

Import Settings.

Context {Temperature : Type}.
Variable parseFloat : list N → Temperature.

(** The two outcomes of [saveApiConfig]. *)
Lemma saveApiConfig_cases (s : State Temperature) :
  let f := form s in
  let config :=
    MkApiConfig (llmProvider f) (fieldsOf f).1 (fieldsOf f).2
      (parseFloat (temperatureValue f)) in
  ((fieldsOf f).1 = [] ∧
   saveApiConfig parseFloat s = showToast [L "❌ 請輸入 API KEY"] danger s)
  ∨ ((fieldsOf f).1 ≠ [] ∧
     saveApiConfig parseFloat s
     = showToast [L "✅ API 配置已保存"] success
         (updateApiConfigStatus
            (sendApiConfigToBackend
               (MkState config f (statusCard s) (testBtnDisabled s)
                  (testBtnHtml s) (toasts s)
                  (if saveLocal f then Some config else None)
                  (open s) (sent s) (now s) (timers s))))).
Proof.
  intros f config. subst config. unfold saveApiConfig. fold f.
  destruct (fieldsOf f) as [key mdl]. cbn [fst snd].
  case_bool_decide; [by left | by right].
Qed.

(** X8. [saveApiConfig] takes the key and the model of the provider that
    is checked. Without a key (the field is empty, or the provider is
    neither [deepseek] nor [gemini]) it only shows an error: the settings
    in use, the browser's storage and the socket are left alone.
    Otherwise the settings in use become those of the dialog; the storage
    keeps them if the user asked for it and forgets them if not; they go
    to the backend if the socket is open; and the status card shows
    them. *)
Theorem save_needs_a_key (s : State Temperature) :
  let f := form s in
  let s' := saveApiConfig parseFloat s in
  let config :=
    MkApiConfig (llmProvider f) (fieldsOf f).1 (fieldsOf f).2
      (parseFloat (temperatureValue f)) in
  ((fieldsOf f).1 = [] →
   apiConfig s' = apiConfig s
   ∧ localStorage s' = localStorage s
   ∧ sent s' = sent s
   ∧ statusCard s' = statusCard s
   ∧ toasts s' = toasts s ++ [MkToast [L "❌ 請輸入 API KEY"] danger])
  ∧ ((fieldsOf f).1 ≠ [] →
     apiConfig s' = config
     ∧ localStorage s' = (if saveLocal f then Some config else None)
     ∧ sent s' = sent s ++ (if open s then [configure_api config] else [])
     ∧ statusCard s'
       = Configured (llmProvider f) (fieldsOf f).2
           (parseFloat (temperatureValue f))
     ∧ toasts s' = toasts s ++ [MkToast [L "✅ API 配置已保存"] success]).
Proof.
  intros f s' config. subst s'.
  destruct (saveApiConfig_cases s) as [[He ->] | [Hne ->]]; fold f; split;
    try done.
  intros _. unfold sendApiConfigToBackend, updateApiConfigStatus. cbn.
  destruct (open s); cbn; rewrite ?app_nil_r;
    rewrite bool_decide_eq_false_2 by done; by repeat split.
Qed.

Lemma saveApiConfig_keysInOrder (s : State Temperature) :
  keysInOrder s → keysInOrder (saveApiConfig parseFloat s).
Proof.
  intros (Htest & Hstore & Hcard).
  destruct (saveApiConfig_cases s) as [[He ->] | [Hne ->]];
    [by split; [| split] |].
  unfold sendApiConfigToBackend, updateApiConfigStatus. cbn.
  destruct (open s); cbn; (split; [| split]).
  - intros p k m [Hin | Hin]%elem_of_app; [by eapply Htest |].
    by apply list_elem_of_singleton in Hin.
  - intros c. destruct (saveLocal (form s)); [| done]. by intros [= <-].
  - right. unfold cardOf. done.
  - exact Htest.
  - intros c. destruct (saveLocal (form s)); [| done]. by intros [= <-].
  - right. unfold cardOf. done.
Qed.

Lemma saveApiConfig_keeps_key (s : State Temperature) :
  apiKey (apiConfig s) ≠ [] →
  apiKey (apiConfig (saveApiConfig parseFloat s)) ≠ [].
Proof.
  intros Hk. destruct (saveApiConfig_cases s) as [[He ->] | [Hne ->]];
    [done |].
  unfold sendApiConfigToBackend, updateApiConfigStatus. cbn.
  by destruct (open s).
Qed.

Lemma step_keysInOrder ev :
  ∀ s : State Temperature, keysInOrder s → keysInOrder (step parseFloat ev s).
Proof.
  intros s (Htest & Hstore & Hcard).
  destruct ev as [f | | | ok msg | ok msg | dt | i | |]; cbn [step];
    try (by split; [| split]).
  - by apply saveApiConfig_keysInOrder.
  - unfold testApiKey. case_bool_decide as Hk; [by split; [| split] |].
    cbn. destruct (open s); (split; [| by split]); cbn; [| done].
    intros p k m [Hin | Hin]%elem_of_app; [by eapply Htest |].
    apply list_elem_of_singleton in Hin. by injection Hin as -> -> ->.
  - destruct ok; by split; [| split].
  - destruct ok; by split; [| split].
  - destruct (timers s !! i) as [t|]; [| by split; [| split]].
    case_bool_decide; by split; [| split].
Qed.

(** X9. Through every sequence of events of the settings dialog, no
    [test_api] request carries an empty key, what the dialog writes to
    the browser's storage has a key, the status card, once written, shows
    the settings in use, and settings that have a key never lose it. *)
Theorem settings_keep_their_key (s : State Temperature) evs :
  keysInOrder s →
  keysInOrder (run parseFloat evs s)
  ∧ (apiKey (apiConfig s) ≠ [] →
     apiKey (apiConfig (run parseFloat evs s)) ≠ []).
Proof.
  intros Hs. induction evs as [|ev evs IH] using rev_ind; [done |].
  unfold run in *. rewrite foldl_app. cbn [foldl].
  destruct IH as [IH1 IH2]. split; [by apply step_keysInOrder |].
  intros Hk. specialize (IH2 Hk).
  set (s1 := foldl _ s evs) in *. clearbody s1.
  destruct ev as [f | | | ok msg | ok msg | dt | i | |]; cbn [step]; try done.
  - by apply saveApiConfig_keeps_key.
  - unfold testApiKey. case_bool_decide; [done |]. cbn.
    destruct (open s1); exact IH2.
  - destruct ok; exact IH2.
  - destruct ok; exact IH2.
  - destruct (timers s1 !! i) as [t|]; [| done].
    case_bool_decide; exact IH2.
Qed.

End SettingsProperties.

Lemma settings_keep_their_key_witness :
  let parseFloat (text : list N) : Q := 7 # 10 in
  let s :=
    Settings.MkState
      (Settings.MkApiConfig (str "deepseek") [] (str "deepseek-chat") (7 # 10))
      (Settings.MkForm (str "deepseek") [] (str "deepseek-chat") []
         (str "gemini-pro") (str "0.7") true)
      Settings.AsLoaded false Settings.ButtonAsLoaded [] None true [] 0 [] in
  let typed :=
    Settings.MkForm (str "deepseek") (str "sk-1") (str "deepseek-chat") []
      (str "gemini-pro") (str "0.7") true in
  let evs :=
    [Settings.ClickTest; Settings.ClickSave; Settings.Edit typed;
     Settings.ClickSave; Settings.ClickTest] in
  Settings.keysInOrder (Settings.run parseFloat evs s)
  ∧ Settings.sent (Settings.run parseFloat evs s)
    = [Settings.configure_api
         (Settings.MkApiConfig (str "deepseek") (str "sk-1")
            (str "deepseek-chat") (7 # 10));
       Settings.test_api (str "deepseek") (str "sk-1") (str "deepseek-chat")].
Proof.
  intros parseFloat s typed evs. split; [| by vm_compute].
  apply (settings_keep_their_key parseFloat s evs).
  split; [| split].
  - intros p k m Hin. by apply elem_of_nil in Hin.
  - intros c Hc. discriminate Hc.
  - by left.
Defined.

(** ** Further invariants of the event loop *)

(** *** The report watchdog is alone *)

(** X10. Whatever messages arrive and whatever the user does, at most one
    report watchdog is pending at any time, and the controller holds its
    handle: a second [phase_completed] for the report phase replaces the
    watchdog of the first. *)
Theorem one_watchdog_at_most rnd evs :
  let s := run evs (initial rnd) in
  (length (watchdogs s) ≤ 1)%nat
  ∧ ∀ t, t ∈ watchdogs s → reportCompleteTimeout (this s) = Some (tid t).
Proof.
  intros s.
  assert (timersTracked s) as (Hnd & _ & Hwd).
  { apply Preserves_run; [apply step_timersTracked |].
    apply initial_timersTracked. }
  split; [| exact Hwd].
  assert (NoDup (tid <$> watchdogs s)) as Hnd'.
  { eapply sublist_NoDup; [exact Hnd |]. apply fmap_sublist, sublist_filter. }
  destruct (watchdogs s) as [|t [|t' l]]; cbn; [lia | lia |].
  exfalso.
  assert (tid t = tid t') as Heq.
  { assert (Some (tid t) = Some (tid t')) as [=]; [| done].
    rewrite <- (Hwd t), <- (Hwd t'); [done | | ]; set_solver. }
  cbn in Hnd'. apply NoDup_cons in Hnd' as [Hnotin _].
  apply Hnotin. rewrite Heq. by left.
Qed.

(** *** Nothing is sent without an open socket *)






(** The closure that sends the request does not look at the socket again.
    When the connection goes down in the 100 ms after the submission, the
    page still announces the analysis although the request is dropped;
    once [onclose] has run the closure throws, and nothing is shown. *)
Example request_on_a_closing_socket :
  let toastsAfter evs :=
    toasts (document
              (run ([SocketOpen; Input (str "2330"); Submit] ++ evs
                    ++ [Elapse 100; TimerFires 3]) (initial []))) in
  let sentAfter evs :=
    sent (env (run ([SocketOpen; Input (str "2330"); Submit] ++ evs
                    ++ [Elapse 100; TimerFires 3]) (initial []))) in
  let announced := MkToast [L "🚀 開始分析 "; D (str "2330")] info in
  (sentAfter [] = [configure_api; start_analysis (str "2330")]
   ∧ last (toastsAfter []) = Some announced)
  ∧ (sentAfter [SocketClosing] = [configure_api]
     ∧ last (toastsAfter [SocketClosing]) = Some announced)
  ∧ (sentAfter [SocketClosing; SocketClose] = [configure_api]
     ∧ announced ∉ toastsAfter [SocketClosing; SocketClose]).
Proof.
  cbv zeta. repeat split; try (by vm_compute).
  apply (bool_decide_unpack _). by vm_compute.
Qed.

(** *** The results of an earlier run *)




(** *** The analysis button after a run *)










(** *** Cancelling *)

Lemma step_idle ev : ¬ startsRun ev → Preserves idle (step ev).
Proof.
  intros Hev.
  destruct ev; try (exfalso; apply Hev; by (left + right)); unfold step;
    pres ltac:(first [ untouched | by intros ? [? ?] ]).
Qed.

(** X14. Cancelling hides the progress panel and enables the analysis
    button, with or without an open socket, and they stay so until the
    next run is started, whatever arrives late from the cancelled run.
    The [cancel_analysis] request goes out only when the socket is open.
    The connection status becomes [connected] even when there is no
    socket. The pending timers and the completion flags are left as they
    are: cancelling stops nothing that is already under way. *)
Theorem cancel_resets_the_page s :
  let s' := step ClickCancel s in
  idle s'
  ∧ (∀ evs, Forall (λ ev, ¬ startsRun ev) evs → idle (run evs s'))
  ∧ sent (env s')
    = sent (env s)
      ++ (if isOpen s then [cancel_analysis (currentStock (this s))] else [])
  ∧ connectionStatus (this s') = connected
  ∧ websocket (this s') = websocket (this s)
  ∧ timers (env s') = timers (env s)
  ∧ analysisCompleted (this s') = analysisCompleted (this s)
  ∧ isBattleComplete (this s') = isBattleComplete (this s)
  ∧ resultsDisplayed (this s') = resultsDisplayed (this s)
  ∧ reportCompleteTimeout (this s') = reportCompleteTimeout (this s).
Proof.
  intros s'. subst s'. unfold step, cancelAnalysis, read, seq, the.
  assert (∀ s0, idle s0 →
            ∀ evs, Forall (λ ev, ¬ startsRun ev) evs → idle (run evs s0))
    as Hrun.
  { intros s0 H0 evs Hevs.
    eapply Preserves_run_Forall; [| exact Hevs | exact H0].
    intros ev Hev. by apply step_idle. }
  destruct (isOpen s) eqn:Ho.
  - split; [split; reflexivity |]. split; [apply Hrun; split; reflexivity |].
    by repeat split.
  - split; [split; reflexivity |]. split; [apply Hrun; split; reflexivity |].
    split; [cbn; by rewrite app_nil_r |]. by repeat split.
Qed.

(** X15. A cancel does not take back the [start_analysis] request that
    [startAnalysis] has scheduled 100 ms after the form was submitted:
    when the user cancels before that timer runs, [cancel_analysis] goes
    out first and [start_analysis] after it, while the page already shows
    the idle state. *)
Theorem cancel_is_overtaken s t c (dt : N) :
  NoDup (tid <$> timers (env s)) →
  isOpen s = true →
  t ∈ timers (env s) →
  callback t = CbSendStartAnalysis c →
  due t ≤ now (env s) + Z.of_N dt →
  let s' := run [ClickCancel; Elapse dt; TimerFires (tid t)] s in
  sent (env s')
  = sent (env s)
    ++ [cancel_analysis (currentStock (this s)); start_analysis c]
  ∧ idle s'.
Proof.
  intros Hnd Ho Hin Hcb Hdue s'. subst s'.
  cbn [run foldl].
  set (s2 := step (Elapse dt) (step ClickCancel s)).
  assert (dueTimer (tid t) s2 = Some t) as Ht.
  { apply dueTimer_pending; subst s2; unfold step, cancelAnalysis, read, seq;
      rewrite Ho; by cbn. }
  assert (step (TimerFires (tid t)) s2
          = showToast [L "🚀 開始分析 "; D c] info
              (send (start_analysis c) (clearTimeout (tid t) s2))) as ->.
  { unfold step, fire, read. rewrite Ht, Hcb.
    assert (isOpen (clearTimeout (tid t) s2) = true) as Ho2.
    { subst s2. unfold step, cancelAnalysis, read, seq. by rewrite Ho. }
    unfold seq, runCallback, read. by rewrite Ho2. }
  subst s2. unfold step, cancelAnalysis, read, seq. rewrite Ho.
  split; [| split; reflexivity]. cbn. by rewrite <- app_assoc.
Qed.

Lemma cancel_is_overtaken_witness :
  let s := run [SocketOpen; Input (str "2330"); Submit] (initial []) in
  let s' := run [ClickCancel; Elapse 100; TimerFires 3] s in
  sent (env s')
  = sent (env s)
    ++ [cancel_analysis (currentStock (this s)); start_analysis (str "2330")]
  ∧ idle s'.
Proof.
  intros s.
  apply (cancel_is_overtaken s (MkTimer 3 100 (CbSendStartAnalysis (str "2330")))
           (str "2330") 100%N).
  - apply (bool_decide_unpack _). by vm_compute.
  - reflexivity.
  - vm_compute. repeat constructor.
  - reflexivity.
  - by vm_compute.
Defined.

(** *** The marks of the stock-code field *)

(** X16. [showValidationError] adds the mark [is-invalid] and leaves
    [is-valid] where it is. [validateStockCode] marks the field
    [is-valid] while the validation is under way; so when the validation
    fails, by the answer of the backend or, offline, by the table of
    known codes, the field carries both marks, under the error
    message. *)
Theorem failed_validation_marks_both s :
  trim (stockCodeValue (document s)) ≠ [] →
  let stockCode := trim (stockCodeValue (document s)) in
  let s1 := step ClickValidate s in
  let marks s2 := stockCodeClass (document s2) in
  "is-valid" ∈ marks s1
  ∧ ("is-invalid" ∉ marks s1)
  ∧ (∀ valid info msg,
       valid = false ∨ info = None →
       "is-valid"
         ∈ marks (step (Receive (validation_result valid info msg)) s1)
       ∧ "is-invalid"
           ∈ marks (step (Receive (validation_result valid info msg)) s1)
       ∧ stockInfo
           (document (step (Receive (validation_result valid info msg)) s1))
         = InfoDanger [orElse msg "找不到該股票代碼"])
  ∧ (getMockStockInfo stockCode = Undefined →
     "is-valid" ∈ marks (mockValidation stockCode s1)
     ∧ "is-invalid" ∈ marks (mockValidation stockCode s1)
     ∧ stockInfo (document (mockValidation stockCode s1))
       = InfoDanger [L "❌ 找不到該股票代碼"]).
Proof.
  intros He stockCode s1 marks. subst marks. cbv beta.
  assert (stockCodeClass (document s1)
          = stockCodeClass (document s) ∖ {["is-invalid"]} ∪ {["is-valid"]})
    as Hcls.
  { subst s1. unfold step. rewrite (validateStockCode_unfold s He).
    by destruct (isOpen s). }
  clearbody s1.
  assert ("is-valid" ∈ stockCodeClass (document s1)) as Hvalid.
  { rewrite Hcls. apply elem_of_union_r. by apply elem_of_singleton. }
  assert (∀ message,
            "is-valid" ∈ stockCodeClass (document (showValidationError message s1))
            ∧ "is-invalid"
                ∈ stockCodeClass (document (showValidationError message s1))
            ∧ stockInfo (document (showValidationError message s1))
              = InfoDanger message) as Herr.
  { intros message. cbn. split; [by apply elem_of_union_l |].
    split; [| done]. apply elem_of_union_r. by apply elem_of_singleton. }
  split; [exact Hvalid |]. split.
  { rewrite Hcls. intros [H | H]%elem_of_union.
    - apply elem_of_difference in H as [_ H]. apply H.
      by apply elem_of_singleton.
    - by apply elem_of_singleton in H. }
  split.
  - intros valid info msg Hfail.
    assert (step (Receive (validation_result valid info msg)) s1
            = showValidationError [orElse msg "找不到該股票代碼"] s1) as ->.
    { unfold step, handleWebSocketMessage, handleValidationResult.
      destruct Hfail as [-> | ->]; [done | by destruct valid]. }
    apply Herr.
  - intros Hmock. unfold mockValidation. rewrite Hmock. apply Herr.
Qed.

Lemma failed_validation_marks_both_witness :
  let s := run [SocketOpen; Input (str "9999")] (initial []) in
  let s1 := step ClickValidate s in
  let s2 := step (Receive (validation_result false None None)) s1 in
  "is-valid" ∈ stockCodeClass (document s2)
  ∧ "is-invalid" ∈ stockCodeClass (document s2)
  ∧ stockInfo (document s2) = InfoDanger [L "找不到該股票代碼"].
Proof.
  intros s s1 s2.
  assert (trim (stockCodeValue (document s)) ≠ []) as He by (by vm_compute).
  exact (proj1 (proj2 (proj2 (failed_validation_marks_both s He)))
           false None None (or_introl eq_refl)).
Defined.

(** *** The company line *)

Lemma handleValidationResult_noCompanyLine valid info msg :
  Preserves noCompanyLine (handleValidationResult valid info msg).
Proof.
  intros s _ nm cd ind. unfold handleValidationResult.
  destruct valid, info; done.
Qed.

Lemma mockValidation_noCompanyLine c : Preserves noCompanyLine (mockValidation c).
Proof.
  intros s _ nm cd ind. unfold mockValidation.
  destruct (getMockStockInfo c); done.
Qed.

Ltac companyLine_leaf :=
  idtac;
  lazymatch goal with
  | |- Preserves _ (handleValidationResult _ _ _) =>
      apply handleValidationResult_noCompanyLine
  | |- Preserves _ (mockValidation _) => apply mockValidation_noCompanyLine
  | |- Preserves _ (showValidationError _) => by intros ? _ ? ? ?
  | |- Preserves _ (showValidationSuccess _) => by intros ? _ ? ? ?
  | |- Preserves _ clearValidationError => by intros ? _ ? ? ?
  | |- _ => untouched
  end.

Lemma step_noCompanyLine ev : Preserves noCompanyLine (step ev).
Proof. destruct ev; unfold step; pres companyLine_leaf. Qed.

(** X17. The stock metadata of a [validation_result] never stays on the
    page. [handleValidationResult] writes the company line into the
    [stockInfo] element and then calls [showValidationSuccess], which
    overwrites that element, as the offline validation does; nothing else
    records the metadata. So the state after a positive answer does not
    depend on the metadata it carried, and in no state that the page
    reaches does [stockInfo] show a company line. *)
Theorem company_line_never_shown :
  (∀ s i i' msg,
     step (Receive (validation_result true (Some i) msg)) s
     = step (Receive (validation_result true (Some i') msg)) s)
  ∧ (∀ s i msg,
       stockInfo (document (step (Receive (validation_result true (Some i) msg)) s))
       = InfoSuccess [orElse msg "股票驗證成功"])
  ∧ (∀ rnd evs, noCompanyLine (run evs (initial rnd))).
Proof.
  split; [done |]. split; [done |].
  intros rnd evs. apply Preserves_run; [apply step_noCompanyLine |].
  by intros ? ? ?.
Qed.

(** *** The order of the requests *)

(** [Preserves P a] by the structure of [a], as [pres] does, with
    [special] tried first at every node. *)
Ltac pres_by special leaf :=
  first
    [ solve [special]
    | lazymatch goal with
      | |- Preserves _ (_ >> _) => apply Preserves_seq; pres_by special leaf
      | |- Preserves _ (read _ _) =>
          apply Preserves_read; intros ?; pres_by special leaf
      | |- Preserves _ skip => apply Preserves_skip
      | |- Preserves _ (match ?x with _ => _ end) =>
          destruct x eqn:?; pres_by special leaf
      | |- Preserves _ ?a =>
          first [ solve [leaf]
                | let h := head_of a in unfold h; cbv zeta;
                  pres_by special leaf
                | idtac ]
      end ].

Lemma send_configuredFirst m :
  (∀ c, m ≠ start_analysis c) → Preserves configuredFirst (send m).
Proof.
  intros Hm s [Hsent Htimers]. split.
  - intros i c Hi. cbn in Hi |- *.
    apply lookup_app_Some in Hi as [Hi | [_ Hi]].
    + destruct (Hsent i c Hi) as (j & Hj & Hc). exists j.
      split; [done |]. by apply lookup_app_l_Some.
    + apply list_lookup_singleton_Some in Hi as [_ ->]. by destruct (Hm c).
  - intros t c Ht Hc. cbn in Ht |- *. apply elem_of_app. left.
    by eapply Htimers.
Qed.

Lemma setTimeout_configuredFirst cb delay :
  (∀ c, cb ≠ CbSendStartAnalysis c) →
  Preserves configuredFirst (setTimeout cb delay).
Proof.
  intros Hcb s [Hsent Htimers]. split; [exact Hsent |].
  intros t c Ht Hc. cbn in Ht |- *. apply elem_of_app in Ht as [Ht | Ht].
  - by eapply Htimers.
  - apply list_elem_of_singleton in Ht as ->. by destruct (Hcb c).
Qed.

Lemma clearTimeout_configuredFirst id :
  Preserves configuredFirst (clearTimeout id).
Proof.
  intros s [Hsent Htimers]. split; [exact Hsent |].
  intros t c Ht Hc. cbn in Ht |- *. apply list_elem_of_filter in Ht as [_ Ht].
  by eapply Htimers.
Qed.

Ltac configured_leaf :=
  idtac;
  lazymatch goal with
  | |- Preserves _ (setTimeout _ _) => by apply setTimeout_configuredFirst
  | |- Preserves _ (clearTimeout _) => apply clearTimeout_configuredFirst
  | |- Preserves _ (send _) => by apply send_configuredFirst
  | |- _ => untouched
  end.

(** The last step of [startAnalysis]: online, the configuration goes out
    before the request is scheduled. *)
Lemma startAnalysis_sends_configuredFirst c :
  Preserves configuredFirst
    (val open := isOpen in
     if open then
       sendApiConfigToBackend >> setTimeout (CbSendStartAnalysis c) 100
     else showToast [L "💡 使用離線演示模式"] info >> simulateAnalysis).
Proof.
  intros s Hs. unfold read at 1. destruct (isOpen s) eqn:Ho.
  - unfold seq, sendApiConfigToBackend, read. rewrite Ho. cbn [negb].
    assert (configuredFirst (send configure_api s)) as [Hsent Htimers]
      by (by apply send_configuredFirst).
    split; [exact Hsent |].
    intros t c' _ _. cbn. apply elem_of_app. right. by left.
  - revert s Hs Ho. 
    assert (Preserves configuredFirst
              (showToast [L "💡 使用離線演示模式"] info >> simulateAnalysis))
      as Hoff by pres configured_leaf.
    intros s Hs _. by apply Hoff.
Qed.

Lemma fire_configuredFirst id : Preserves configuredFirst (fire id).
Proof.
  intros s Hs. unfold fire, read.
  destruct (dueTimer id s) as [t|] eqn:Ht; [| done].
  apply dueTimer_Some in Ht as (Hin & _ & _).
  destruct (callback t) eqn:Hc.
  all: try (revert s Hs Hin;
            assert (Preserves configuredFirst
                      (clearTimeout id >> runCallback (callback t)))
              as Hp by (rewrite Hc; pres configured_leaf);
            rewrite <- Hc; intros s Hs _; by apply Hp).
  assert (configure_api ∈ sent (env s)) as Hconf
    by (by eapply (proj2 Hs)).
  unfold seq, runCallback, read.
  assert (configuredFirst (clearTimeout id s)) as Hs'
    by (by apply clearTimeout_configuredFirst).
  destruct (isOpen (clearTimeout id s));
    [| destruct (isClosing (clearTimeout id s)); exact Hs'].
  destruct Hs' as [Hsent Htimers]. split.
  - intros i c Hi. cbn in Hi |- *.
    apply lookup_app_Some in Hi as [Hi | [Hlen Hi]].
    + destruct (Hsent i c Hi) as (j & Hj & Hcj). exists j.
      split; [done |]. by apply lookup_app_l_Some.
    + apply list_elem_of_lookup in Hconf as [j Hj]. exists j.
      split; [apply lookup_lt_Some in Hj; lia |].
      by apply lookup_app_l_Some.
  - intros t' c Ht' Hc'. cbn in Ht' |- *. apply elem_of_app. left.
    by eapply Htimers.
Qed.

Lemma step_configuredFirst ev : Preserves configuredFirst (step ev).
Proof.
  destruct ev; unfold step;
    pres_by
      ltac:(idtac;
            lazymatch goal with
            | |- Preserves _ (fire _) => apply fire_configuredFirst
            | |- Preserves _ (read isOpen _) =>
                apply startAnalysis_sends_configuredFirst
            end)
      configured_leaf.
Qed.

(** X18. The configuration of the model reaches the backend before the
    analysis is asked for: on the socket, every [start_analysis] request
    comes after a [configure_api] message. *)
Theorem configure_api_precedes_start rnd evs :
  let out := sent (env (run evs (initial rnd))) in
  ∀ i c, out !! i = Some (start_analysis c) →
         ∃ j, (j < i)%nat ∧ out !! j = Some configure_api.
Proof.
  intros out.
  assert (configuredFirst (run evs (initial rnd))) as [Hsent _]; [| exact Hsent].
  apply Preserves_run; [apply step_configuredFirst |].
  split.
  - intros i c Hi. cbn in Hi. by rewrite lookup_nil in Hi.
  - intros t c Ht Hc. cbn in Ht. by apply list_elem_of_singleton in Ht as ->.
Qed.

Lemma configure_api_precedes_start_witness :
  let out :=
    sent (env (run [SocketOpen; Input (str "2330"); Submit; Elapse 100;
                    TimerFires 3] (initial []))) in
  ∃ j, (j < 1)%nat ∧ out !! j = Some configure_api.
Proof.
  intros out.
  apply (configure_api_precedes_start []
           [SocketOpen; Input (str "2330"); Submit; Elapse 100; TimerFires 3]
           1%nat (str "2330")).
  by vm_compute.
Defined.

(** *** The simulated run *)

Lemma agents_NoDup : NoDup agents.*1.
Proof. apply (bool_decide_unpack _). by vm_compute. Qed.

Lemma sixCards_lookup s i agentId nm :
  sixCards s → agents !! i = Some (agentId, nm) →
  is_Some (agentCards (document s) !! agentId).
Proof.
  intros [Hdom _] Hi. apply (elem_of_dom (D := gset (list N))).
  rewrite Hdom. apply elem_of_list_to_set, list_elem_of_fmap.
  exists (agentId, nm). split; [done |]. by eapply list_elem_of_lookup_2.
Qed.

Lemma random2000_range s : 0 ≤ random2000 s < 2000.
Proof.
  unfold random2000. destruct (randoms (env s)); [lia |].
  by apply Z.mod_pos_bound.
Qed.

Lemma simProgress_range i (half : Q) :
  (i < 6)%nat → (0 <= half <= 1)%Q →
  (0 <= simProgress i half <= 100)%Q.
Proof.
  intros Hi Hhalf. unfold simProgress.
  assert (0 <= inject_Z (Z.of_nat i) <= 5)%Q as Hq.
  { split; [change 0%Q with (inject_Z 0) | change 5%Q with (inject_Z 5)];
      rewrite <- Zle_Qle; lia. }
  set (x := inject_Z (Z.of_nat i)) in *.
  split.
  - apply Qmult_le_0_compat; [| done]. apply Qle_shift_div_l; [done | lra].
  - assert ((x + half) / 6 <= 1)%Q by (apply Qle_shift_div_r; [done | lra]).
    lra.
Qed.

(** X19. One step of the simulated run. When the closure that
    [processNextAgent] scheduled for the [i]-th agent runs, with the cards
    of the run still in place, that agent's card becomes completed. If
    there is a next agent, its card becomes active, the bar goes to
    [(i + 1.5) / 6 * 70] per cent, and the closure of the next agent is
    scheduled between 2 and 4 seconds later; after the sixth agent the bar
    is at 70 per cent and the debate phase is scheduled one second later.
    The bar follows the position in the list of agents, not the number of
    completed cards. *)
Theorem simulated_agent_completes i agentId nm s :
  agents !! i = Some (agentId, nm) →
  sixCards s →
  let epoch := agentProgressEpoch (document s) in
  let s' := simAgentDone i epoch s in
  statusOf agentId s' = Some completed
  ∧ match agents !! S i with
    | Some (next, _) =>
        (∃ card, agentCards (document s') !! next = Some card
                 ∧ "active" ∈ classList card)
        ∧ (progressBarWidth (document s') == simProgress (S i) (1 # 2))%Q
        ∧ ∃ delay,
            2000 ≤ delay < 4000
            ∧ timers (env s')
              = timers (env s)
                ++ [MkTimer (nextTimerId (env s)) (now (env s) + delay)
                      (CbSimAgentDone (S i) epoch)]
    | None =>
        (progressBarWidth (document s') == 70)%Q
        ∧ timers (env s')
          = timers (env s)
            ++ [MkTimer (nextTimerId (env s)) (now (env s) + 1000)
                  CbSimBattlePhase]
    end.
Proof.
  intros Hi Hsix epoch s'.
  destruct (sixCards_lookup s i agentId nm Hsix Hi) as [card Hcard].
  set (done := λ card : AgentCard,
         set_iconHtml IconCheck
           (set_statusText "✓ 完成"
              (classList_add "completed" (classList_remove "active" card)))).
  set (s2 := setProgress (simProgress i 1) None (mutateCard agentId done s)).
  assert (s' = processNextAgent (S i) s2) as ->.
  { subst s' s2. unfold simAgentDone, seq, read, page. rewrite Hi, Hcard.
    by rewrite bool_decide_eq_true_2. }
  assert (agentCards (document s2) = alter done agentId (agentCards (document s)))
    as Hcards2 by done.
  assert (env s2 = env s) as Henv2 by done.
  assert (agentProgressEpoch (document s2) = epoch) as Hepoch2 by done.
  assert (progressBarWidth (document s2) = clamp (simProgress i 1)) as Hbar2
    by done.
  assert (i < 6)%nat as Hlt by (by apply lookup_lt_Some in Hi).
  clearbody s2. unfold processNextAgent.
  destruct (agents !! S i) as [[next nm']|] eqn:Hnext.
  - assert (agentId ≠ next) as Hne.
    { intros ->.
      assert (i = S i); [| lia].
      eapply (NoDup_lookup _ _ _ _ agents_NoDup); rewrite list_lookup_fmap.
      - by rewrite Hi.
      - by rewrite Hnext. }
    destruct (sixCards_lookup s (S i) next nm' Hsix Hnext) as [card' Hcard'].
    unfold read, page. rewrite Hcards2, lookup_alter_ne, Hcard' by done.
    unfold seq. cbn [statusOf]. unfold statusOf. cbn.
    rewrite Hcards2, Henv2.
    rewrite lookup_alter_ne, lookup_alter_eq, Hcard by done.
    rewrite ?Hepoch2.
    split; [exact (f_equal Some (cardStatus_completed card)) |].
    split.
    { rewrite lookup_alter_eq, lookup_alter_ne, Hcard' by done.
      eexists. split; [reflexivity |]. cbn.
      apply elem_of_union_r. by apply elem_of_singleton. }
    split.
    { apply clamp_id, simProgress_range; [| done].
      by apply lookup_lt_Some in Hnext. }
    eexists. split; [| reflexivity].
    match goal with
    | |- context [random2000 ?x] => pose proof (random2000_range x)
    end.
    lia.
  - assert (i = 5)%nat as ->.
    { apply lookup_ge_None in Hnext. cbn in Hnext. lia. }
    unfold statusOf. cbn. rewrite Hcards2, Henv2, Hbar2.
    rewrite lookup_alter_eq, Hcard.
    split; [exact (f_equal Some (cardStatus_completed card)) |].
    split; [by vm_compute | done].
Qed.

Lemma simulated_agent_completes_witness :
  let s := processNextAgent 0 (resetProgress (initial [700; 1999])) in
  let epoch := agentProgressEpoch (document s) in
  let s' := simAgentDone 0 epoch s in
  statusOf (str "sentiment") s' = Some completed
  ∧ (∃ card, agentCards (document s') !! str "risk" = Some card
             ∧ "active" ∈ classList card)
  ∧ (progressBarWidth (document s') == simProgress 1 (1 # 2))%Q
  ∧ ∃ delay,
      2000 ≤ delay < 4000
      ∧ timers (env s')
        = timers (env s)
          ++ [MkTimer (nextTimerId (env s)) (now (env s) + delay)
                (CbSimAgentDone 1 epoch)].
Proof.
  intros s.
  assert (Preserves sixCards (processNextAgent 0)) as Hp
    by pres sixCards_leaf.
  exact (simulated_agent_completes 0 (str "sentiment") "輿情分析" s eq_refl
           (Hp _ (resetProgress_sixCards _))).
Defined.

(** *** The completion toast *)

Lemma elapsedSeconds_took s n :
  tookSeconds s n →
  elapsedSeconds (analysisStartTime (this s)) (now (env s)) = n.
Proof.
  unfold tookSeconds, elapsedSeconds.
  destruct (analysisStartTime (this s)) as [t0|]; [| done].
  case_decide as Ht0.
  - by rewrite bool_decide_eq_true_2.
  - rewrite bool_decide_eq_false_2 by done. intros Hn.
    symmetry.
    apply (Z.div_unique_pos _ _ _ (now (env s) - t0 + 500 - 1000 * n)); lia.
Qed.

(** The toasts of the two arrival orders, with the seconds as
    [handleAnalysisComplete] computes them. *)
Lemma completion_toasts s results fd vc :
  barrierArmed s →
  let elapsed := elapsedSeconds (analysisStartTime (this s)) (now (env s)) in
  let debate :=
    MkToast [L (if includes fd BULLISH then "📈"
                else if includes fd BEARISH then "📉"
                else "➡️");
             L " AI 辯論完成："; D fd] success in
  let waits := MkToast [L "⌛ 正在等待辯論最終結果..."] info in
  let took := MkToast [L "✓ 分析完成！耗時 "; Num elapsed; L " 秒"] success in
  let noData :=
    MkToast [L "⚠ 分析完成，但未獲取到有效數據，將顯示示範結果"] warning in
  toasts (document
            (handleBattleResults fd vc (handleAnalysisComplete results s)))
  = toasts (document s)
    ++ (if nonEmpty results
        then [waits; debate;
              if 0 <? elapsed then took
              else MkToast [L "✓ 分析完成！"] success]
        else [waits; noData; debate])
  ∧ toasts (document
              (handleAnalysisComplete results (handleBattleResults fd vc s)))
    = toasts (document s)
      ++ (if nonEmpty results then [debate; took] else [debate; noData]).
Proof.
  intros (? & ? & ? & ? & ? & ?). cbv zeta.
  unfold handleAnalysisComplete, handleBattleResults, cancelReportTimeout.
  destruct (nonEmpty results) eqn:Hne; controller_cases s; cbn;
    repeat rewrite <- app_assoc; split; try reflexivity.
  all: by destruct (0 <? _).
Qed.

(** X20. From an armed barrier, the completion of a run with results is
    announced once, whichever of [analysis_complete] and [battle_results]
    arrives first: by [handleAnalysisComplete] itself when the debate is
    over already, by [showAnalysisResults] otherwise. The seconds are
    those since the start time that is held, to the nearest second, and 0
    when none is held or when it is 0. The two orders give the same toast
    when the seconds are 1 or more; when they are 0 the first order
    leaves the time out and the second says that the run took 0 seconds.
    A run without results gets the warning instead, once, and no
    completion toast. *)
Theorem completion_toast_either_order s results fd vc elapsed :
  barrierArmed s →
  tookSeconds s elapsed →
  let debate :=
    MkToast [L (if includes fd BULLISH then "📈"
                else if includes fd BEARISH then "📉"
                else "➡️");
             L " AI 辯論完成："; D fd] success in
  let waits := MkToast [L "⌛ 正在等待辯論最終結果..."] info in
  let took := MkToast [L "✓ 分析完成！耗時 "; Num elapsed; L " 秒"] success in
  let noData :=
    MkToast [L "⚠ 分析完成，但未獲取到有效數據，將顯示示範結果"] warning in
  let analysisFirst :=
    handleBattleResults fd vc (handleAnalysisComplete results s) in
  let battleFirst :=
    handleAnalysisComplete results (handleBattleResults fd vc s) in
  toasts (document analysisFirst)
  = toasts (document s)
    ++ (if nonEmpty results
        then [waits; debate;
              if 0 <? elapsed then took
              else MkToast [L "✓ 分析完成！"] success]
        else [waits; noData; debate])
  ∧ toasts (document battleFirst)
    = toasts (document s)
      ++ (if nonEmpty results then [debate; took] else [debate; noData]).
Proof.
  intros Harmed Htook.
  pose proof (completion_toasts s results fd vc Harmed) as Htoasts.
  cbv zeta in Htoasts |- *.
  by rewrite (elapsedSeconds_took s elapsed Htook) in Htoasts.
Qed.

Lemma completion_toast_either_order_witness :
  let s :=
    run [SocketOpen; Input (str "2330"); Submit; Elapse 100; TimerFires 3;
         Receive analysis_started; Elapse 5000] (initial []) in
  let debate := MkToast [L "📉"; L " AI 辯論完成："; D BEARISH] success in
  let took := MkToast [L "✓ 分析完成！耗時 "; Num 5; L " 秒"] success in
  analysisStartTime (this s) = Some 100
  ∧ now (env s) = 5100
  ∧ toasts (document (handleBattleResults BEARISH []
                        (handleAnalysisComplete exampleResults s)))
    = toasts (document s)
      ++ [MkToast [L "⌛ 正在等待辯論最終結果..."] info; debate; took]
  ∧ toasts (document (handleAnalysisComplete exampleResults
                        (handleBattleResults BEARISH [] s)))
    = toasts (document s) ++ [debate; took].
Proof.
  intros s.
  assert (barrierArmed s) as Harmed by (repeat split; by vm_compute).
  assert (tookSeconds s 5) as Htook by (by vm_compute).
  pose proof (completion_toast_either_order s exampleResults BEARISH [] 5
                Harmed Htook) as Hw.
  split; [by vm_compute |]. split; [by vm_compute |].
  cbv zeta in Hw |- *. vm_compute in Hw |- *. exact Hw.
Defined.

(** The start time 0 counts as no start time: the run is said to have
    taken 0 seconds, however long it took. *)
Example elapsedSeconds_start_0 :
  elapsedSeconds (Some 0) 5000 = 0 ∧ elapsedSeconds (Some 1) 5000 = 5.
Proof. by vm_compute. Qed.

(** *** Progress reports that change nothing *)

(** X21. An [agent_progress] message about an agent that has no card on
    the page (before the first run, or an agent the page does not know),
    or with a status other than [started] and [completed], leaves the
    state as it is; only the agent [all] is treated apart. *)
Theorem progress_report_ignored s agent status message :
  agent ≠ str "all" →
  agentCards (document s) !! agent = None
  ∨ (status ≠ str "started" ∧ status ≠ str "completed") →
  step (Receive (agent_progress agent status message)) s = s.
Proof.
  intros Hall Hcase. unfold step, handleWebSocketMessage, handleAgentProgress.
  rewrite bool_decide_eq_false_2 by done. unfold read, page.
  destruct (agentCards (document s) !! agent) as [card|] eqn:Hcard; [| done].
  destruct Hcase as [? | [Hs Hc]]; [done |].
  by rewrite !bool_decide_eq_false_2.
Qed.

Lemma progress_report_ignored_witness :
  step (Receive (agent_progress (str "sentiment") (str "completed") []))
    (initial [])
  = initial [].
Proof.
  apply progress_report_ignored.
  - intros H. by vm_compute in H.
  - by left.
Defined.

(** *** The validate button and the two panels *)




Lemma step_onePanel ev : Preserves onePanel (step ev).
Proof.
  destruct ev; unfold step;
    pres_by
      ltac:(idtac;
            lazymatch goal with
            | |- Preserves _
                   (_ >> upd_document (set_progressCardShown true)
                    >> upd_document (set_resultCardShown false)) =>
                intros ? _; by right
            | |- Preserves _
                   (upd_document (set_progressCardShown false)
                    >> upd_document (set_resultCardShown true)) =>
                intros ? _; by left
            | |- Preserves _ (upd_document (set_progressCardShown false)) =>
                intros ? _; by left
            end)
      untouched.
Qed.

(** X23. The progress panel and the result card are never shown
    together: starting a run shows the first and hides the second, the
    display closure does the opposite, and cancelling hides the first. *)
Theorem one_panel_at_a_time rnd evs :
  let s := run evs (initial rnd) in
  progressCardShown (document s) = false ∨ resultCardShown (document s) = false.
Proof.
  intros s. apply (Preserves_run onePanel step_onePanel). by left.
Qed.
